(** * parse_psxgpu_dump: the PSX GPU capture decoder

    A shallow embedding of [scripts/parse_psxgpu_dump.py] and the
    properties of its packet reader, GP0 primitive decoder, frame
    segmenter and VRAM extractor.

    Conventions.  Python integers are unbounded, so every integer of the
    script is a [Z]; [>>], [&] and [|] are [Z.shiftr], [Z.land] and
    [Z.lor], which agree with Python on negative numbers too.  A [bytes]
    object is a [list byte]; [struct.unpack_from("<I", ...)] is
    coqutil's little-endian [le_combine] on four bytes.  Cursors and
    indices are byte or word offsets: the model covers offsets [>= 0],
    the only ones the script ever produces.  Exceptions are values of
    [res]; text written by [print] is a list of strings, one per call. *)

From Stdlib Require Import ZArith List String Ascii Lia Bool Sorted.
From Stdlib Require Decimal Hexadecimal.
From coqutil Require Import Byte Word.LittleEndianList.
Import ListNotations.
Local Open Scope string_scope.
Local Open Scope list_scope.
Local Open Scope Z_scope.

(** ** Results and exceptions *)

Inductive exn : Type :=
| IndexError      (* a list or string index out of range *)
| StructError     (* struct.unpack_from on a buffer that is too short *)
| ValueError      (* parse_header on a bad magic tag *)
| SystemExit (status : Z)   (* sys.exit(status) *)
| OutOfFuel.      (* the model's loop bound was reached; no Python counterpart *)

Inductive res (A : Type) : Type :=
| Ok (a : A)
| Raise (e : exn).
Arguments Ok {A} a.
Arguments Raise {A} e.

Definition bind {A B : Type} (m : res A) (k : A -> res B) : res B :=
  match m with
  | Ok a => k a
  | Raise e => Raise e
  end.

Notation "x <- m ;; k" := (bind m (fun x => k))
  (at level 61, m at next level, right associativity).
Notation "' pat <- m ;; k" := (bind m (fun x => match x with pat => k end))
  (at level 61, pat pattern, m at next level, right associativity).

(** [len(l)] as a Python integer. *)
Definition len {A : Type} (l : list A) : Z := Z.of_nat (List.length l).

(** [l[i]] for [i >= 0]; IndexError past the end. *)
Definition index {A : Type} (l : list A) (i : Z) : res A :=
  if i <? 0 then Raise IndexError
  else match nth_error l (Z.to_nat i) with
       | Some a => Ok a
       | None => Raise IndexError
       end.

(** [l[a:b]] for [0 <= a]: slices never raise, they clamp. *)
Definition slice {A : Type} (l : list A) (a b : Z) : list A :=
  firstn (Z.to_nat (b - a)) (skipn (Z.to_nat a) l).

(** ** Text formatting: [str(int)], [{:02X}], [{:08X}], [" ".join] *)

Definition nl : string := String (ascii_of_nat 10) EmptyString.

Fixpoint dec_digits (u : Decimal.uint) : string :=
  match u with
  | Decimal.Nil => ""
  | Decimal.D0 u => String "0" (dec_digits u)
  | Decimal.D1 u => String "1" (dec_digits u)
  | Decimal.D2 u => String "2" (dec_digits u)
  | Decimal.D3 u => String "3" (dec_digits u)
  | Decimal.D4 u => String "4" (dec_digits u)
  | Decimal.D5 u => String "5" (dec_digits u)
  | Decimal.D6 u => String "6" (dec_digits u)
  | Decimal.D7 u => String "7" (dec_digits u)
  | Decimal.D8 u => String "8" (dec_digits u)
  | Decimal.D9 u => String "9" (dec_digits u)
  end.

(** [str(z)], also what [f"{z}"] gives. *)
Definition str (z : Z) : string :=
  match z with
  | Z0 => "0"
  | Zpos p => dec_digits (Pos.to_uint p)
  | Zneg p => String "-" (dec_digits (Pos.to_uint p))
  end.

Fixpoint hex_digits (u : Hexadecimal.uint) : string :=
  match u with
  | Hexadecimal.Nil => ""
  | Hexadecimal.D0 u => String "0" (hex_digits u)
  | Hexadecimal.D1 u => String "1" (hex_digits u)
  | Hexadecimal.D2 u => String "2" (hex_digits u)
  | Hexadecimal.D3 u => String "3" (hex_digits u)
  | Hexadecimal.D4 u => String "4" (hex_digits u)
  | Hexadecimal.D5 u => String "5" (hex_digits u)
  | Hexadecimal.D6 u => String "6" (hex_digits u)
  | Hexadecimal.D7 u => String "7" (hex_digits u)
  | Hexadecimal.D8 u => String "8" (hex_digits u)
  | Hexadecimal.D9 u => String "9" (hex_digits u)
  | Hexadecimal.Da u => String "A" (hex_digits u)
  | Hexadecimal.Db u => String "B" (hex_digits u)
  | Hexadecimal.Dc u => String "C" (hex_digits u)
  | Hexadecimal.Dd u => String "D" (hex_digits u)
  | Hexadecimal.De u => String "E" (hex_digits u)
  | Hexadecimal.Df u => String "F" (hex_digits u)
  end.

Fixpoint zeros (n : nat) : string :=
  match n with
  | O => ""
  | S n => String "0" (zeros n)
  end.

Definition zero_pad (width : nat) (s : string) : string :=
  (zeros (width - String.length s) ++ s)%string.

(** [f"{z:0<width>X}"]: upper-case hexadecimal, zero-padded to [width]
    characters, the sign counted in the width. *)
Definition fmt_X (width : nat) (z : Z) : string :=
  match z with
  | Z0 => zero_pad width "0"
  | Zpos p => zero_pad width (hex_digits (Pos.to_hex_uint p))
  | Zneg p => String "-" (zero_pad (width - 1) (hex_digits (Pos.to_hex_uint p)))
  end.

(** [sep.join(parts)]. *)
Fixpoint join (sep : string) (parts : list string) : string :=
  match parts with
  | [] => ""
  | [p] => p
  | p :: ps => (p ++ sep ++ join sep ps)%string
  end.

(** ** Constants *)

Definition PT_GPUPort0Data : Z := 0x00.
Definition PT_GPUPort1Data : Z := 0x01.
Definition PT_VSyncEvent : Z := 0x02.
Definition PT_DiscardPort0Data : Z := 0x03.
Definition PT_ReadbackPort0Data : Z := 0x04.
Definition PT_TraceBegin : Z := 0x05.
Definition PT_GPUVersion : Z := 0x06.
Definition PT_GameID : Z := 0x10.
Definition PT_TextualVideoFormat : Z := 0x11.
Definition PT_Comment : Z := 0x12.

(** The dict [GP0_ENV]: [GP0_ENV_get cmd] is [GP0_ENV.get(cmd)]. *)
Definition GP0_ENV_get (cmd : Z) : option string :=
  if cmd =? 0xE1 then Some "TEXPAGE"
  else if cmd =? 0xE2 then Some "TEXWIN"
  else if cmd =? 0xE3 then Some "CLIP_TL"
  else if cmd =? 0xE4 then Some "CLIP_BR"
  else if cmd =? 0xE5 then Some "DRAW_OFFSET"
  else if cmd =? 0xE6 then Some "MASK"
  else None.

(** [cmd in GP0_ENV]. *)
Definition in_GP0_ENV (cmd : Z) : bool :=
  match GP0_ENV_get cmd with
  | Some _ => true
  | None => false
  end.

(** ** Field helpers *)

Definition sign_extend_11 (x : Z) : Z :=
  let x := Z.land x 0x7FF in
  if Z.land x 0x400 =? 0 then x else x - 0x800.

Definition expand5to8 (x : Z) : Z :=
  Z.lor (Z.shiftl x 3) (Z.shiftr x 2).

(** ** Packet reader *)

Definition magic : list byte :=
  list_byte_of_string "PSXGPUDUMP".

Fixpoint bytes_eqb (a b : list byte) : bool :=
  match a, b with
  | [], [] => true
  | x :: a, y :: b => Byte.eqb x y && bytes_eqb a b
  | _, _ => false
  end.

Definition parse_header (data : list byte) : res Z :=
  if (len data <? 14) || negb (bytes_eqb (slice data 0 10) magic)
  then Raise ValueError
  else Ok 14.

(** [struct.unpack_from("<I", data, pos)[0]]. *)
Definition unpack_u32 (data : list byte) (pos : Z) : res Z :=
  if len data <? pos + 4 then Raise StructError
  else Ok (le_combine (slice data pos (pos + 4))).

(** [list(struct.unpack_from(f"<{len(payload)//4}I", payload, 0))]:
    whole little-endian words, trailing bytes beyond a multiple of four
    left out. *)
Fixpoint unpack_words (payload : list byte) : list Z :=
  match payload with
  | b0 :: b1 :: b2 :: b3 :: rest => le_combine [b0; b1; b2; b3] :: unpack_words rest
  | _ => []
  end.

(** A packet as the reader returns it: [(ptype, payload)]. *)
Definition packet : Type := Z * list byte.

Definition get_next_packet (data : list byte) (pos : Z) : res (option packet * Z) :=
  if len data <? pos + 4 then Ok (None, pos)
  else
    hdr <- unpack_u32 data pos ;;
    let pos := pos + 4 in
    let length := Z.land hdr 0xFFFFFF in
    let ptype := Z.land (Z.shiftr hdr 24) 0xFF in
    let payload_size := length * 4 in
    if len data <? pos + payload_size then Ok (None, pos)
    else
      let payload := slice data pos (pos + payload_size) in
      let pos := pos + payload_size in
      Ok (Some (ptype, payload), pos).

(** ** GP0 primitive decoder *)

Definition parse_gp0_env (val : Z) : string :=
  let cmd := Z.land (Z.shiftr val 24) 0xFF in
  let name := match GP0_ENV_get cmd with
              | Some n => n
              | None => ("ENV_0x" ++ fmt_X 2 cmd)%string
              end in
  if cmd =? 0xE3 then
    let x := Z.land val 0x3FF in
    let y := Z.land (Z.shiftr val 10) 0x1FF in
    ("  GP0 " ++ name ++ " (" ++ str x ++ "," ++ str y ++ ")")%string
  else if cmd =? 0xE4 then
    let x := Z.land val 0x3FF in
    let y := Z.land (Z.shiftr val 10) 0x1FF in
    ("  GP0 " ++ name ++ " (" ++ str x ++ "," ++ str y ++ ")")%string
  else if cmd =? 0xE5 then
    let ox := sign_extend_11 (Z.land val 0x7FF) in
    let oy := sign_extend_11 (Z.land (Z.shiftr val 11) 0x7FF) in
    ("  GP0 " ++ name ++ " (" ++ str ox ++ "," ++ str oy ++ ")")%string
  else ("  GP0 " ++ name ++ " 0x" ++ fmt_X 8 val)%string.

(** [(cmd & mask) != 0], the truth value of a masked bit. *)
Definition bit_set (cmd mask : Z) : bool := negb (Z.land cmd mask =? 0).

Definition gp0_param_count (cmd : Z) : Z :=
  if cmd <=? 0x1F then 0
  else if (0x20 <=? cmd) && (cmd <=? 0x3F) then
    let gouraud := bit_set cmd 0x10 in
    let quad := bit_set cmd 0x08 in
    let textured := bit_set cmd 0x04 in
    let verts := if quad then 4 else 3 in
    if negb gouraud && negb textured then verts
    else if negb gouraud && textured then verts * 2
    else if gouraud && negb textured then verts * 2 - 1
    else verts * 3 - 1
  else if (0x40 <=? cmd) && (cmd <=? 0x5F) then
    if bit_set cmd 0x08 then -1
    else if bit_set cmd 0x10 then 3 else 2
  else if (0x60 <=? cmd) && (cmd <=? 0x7F) then
    let size_code := Z.land (Z.shiftr cmd 3) 3 in
    let params := 1 in
    let params := if size_code =? 0 then params + 1 else params in
    let params := if bit_set cmd 0x04 then params + 1 else params in
    params
  else if (0xE0 <=? cmd) && (cmd <=? 0xFF) then 0
  else 0.

(** A decoded operation: [(consumed_count, line_str)]. *)
Definition op : Type := Z * string.

(** A decoded vertex [(x, y, r, g, b)]. *)
Definition vertex : Type := Z * Z * Z * Z * Z.

(** [range(n)]. *)
Definition range (n : Z) : list Z := map Z.of_nat (seq 0 (Z.to_nat n)).

(** The state the vertex loop of a polygon carries. *)
Record poly_state : Type := mk_poly_state {
  ps_idx : Z;
  ps_r : Z;
  ps_g : Z;
  ps_b : Z;
  ps_verts : list vertex
}.

(** [for j in range(nverts): ...] of the polygon branch, over the
    remaining values [js] of [j]; [break] returns the state at once. *)
Fixpoint poly_verts (js : list Z) (chunk : list Z) (gouraud textured : bool)
    (st : poly_state) : res poly_state :=
  match js with
  | [] => Ok st
  | j :: js =>
    st <- (if (0 <? j) && gouraud then
             c <- index chunk (ps_idx st) ;;
             Ok (mk_poly_state (ps_idx st + 1)
                   (expand5to8 (Z.land (Z.shiftr c 0) 0x1F))
                   (expand5to8 (Z.land (Z.shiftr c 5) 0x1F))
                   (expand5to8 (Z.land (Z.shiftr c 10) 0x1F))
                   (ps_verts st))
           else Ok st) ;;
    if len chunk <=? ps_idx st then Ok st
    else
      v <- index chunk (ps_idx st) ;;
      let x := sign_extend_11 (Z.land v 0x7FF) in
      let y := sign_extend_11 (Z.land (Z.shiftr v 16) 0x7FF) in
      let verts := ps_verts st ++ [(x, y, ps_r st, ps_g st, ps_b st)] in
      let idx := ps_idx st + 1 in
      let idx := if textured then idx + 1 else idx in
      poly_verts js chunk gouraud textured
        (mk_poly_state idx (ps_r st) (ps_g st) (ps_b st) verts)
  end.

(** [f"v{k}=({x},{y})#{r:02X}{g:02X}{b:02X}"] for the [k]-th vertex on. *)
Fixpoint vertex_parts (k : Z) (verts : list vertex) : list string :=
  match verts with
  | [] => []
  | (x, y, r, g, b) :: verts =>
    ("v" ++ str k ++ "=(" ++ str x ++ "," ++ str y ++ ")#"
       ++ fmt_X 2 r ++ fmt_X 2 g ++ fmt_X 2 b)%string
    :: vertex_parts (k + 1) verts
  end.

(** The complete-polygon part of the polygon branch, from
    [chunk = words[i:i + 1 + nparams]] on: the operation appended. *)
Definition decode_polygon (cmd : Z) (chunk : list Z) : res op :=
  let quad := bit_set cmd 0x08 in
  let gouraud := bit_set cmd 0x10 in
  let textured := bit_set cmd 0x04 in
  let nverts := if quad then 4 else 3 in
  let flat := if negb gouraud then "FLAT" else "GOURAUD" in
  let typ := if quad then "QUAD" else "TRI" in
  let name := (typ ++ "_" ++ flat)%string in
  let name := if textured then (name ++ "_TEX")%string else name in
  c0 <- index chunk 0 ;;
  let r := expand5to8 (Z.land (Z.shiftr c0 0) 0x1F) in
  let g := expand5to8 (Z.land (Z.shiftr c0 5) 0x1F) in
  let b := expand5to8 (Z.land (Z.shiftr c0 10) 0x1F) in
  st <- poly_verts (range nverts) chunk gouraud textured
          (mk_poly_state 1 r g b []) ;;
  let parts := join " " (vertex_parts 0 (ps_verts st)) in
  Ok (len chunk, ("  GP0 " ++ name ++ " " ++ parts)%string).

(** The polyline terminator scan: [while j < len(words): ...], returning
    the final [j]. *)
Fixpoint polyline_scan (fuel : nat) (words : list Z) (cmd : Z) (j : Z) : res Z :=
  if j <? len words then
    match fuel with
    | O => Raise OutOfFuel
    | S fuel =>
      w <- index words j ;;
      if Z.land w 0xF000F000 =? 0x50005000 then Ok j
      else polyline_scan fuel words cmd (j + (if bit_set cmd 0x10 then 2 else 1))
    end
  else Ok j.

(** The operand count the line branch settles on: [gp0_param_count], or
    for a polyline the distance to the terminator found by the scan. *)
Definition line_nparams (words : list Z) (i cmd : Z) : res Z :=
  let nparams := gp0_param_count cmd in
  if nparams <? 0 then
    j <- polyline_scan (List.length words) words cmd (i + 1) ;;
    Ok (j - i - 1)
  else Ok nparams.

(** One iteration of the [while i < len(words)] loop of
    [parse_gp0_stream]: the new [i] and what is appended to [lines]. *)
Definition gp0_iter (words : list Z) (i : Z) : res (Z * list op) :=
  val <- index words i ;;
  let cmd := Z.land (Z.shiftr val 24) 0xFF in
  if in_GP0_ENV cmd then Ok (i + 1, [(1, parse_gp0_env val)])
  else if (0x20 <=? cmd) && (cmd <=? 0x3F) then
    let nparams := gp0_param_count cmd in
    if len words <? i + 1 + nparams then
      Ok (i + 1, [(1, ("  GP0 POLY 0x" ++ fmt_X 2 cmd ++ " (incomplete)")%string)])
    else
      let chunk := slice words i (i + 1 + nparams) in
      o <- decode_polygon cmd chunk ;;
      Ok (i + len chunk, [o])
  else if (0x40 <=? cmd) && (cmd <=? 0x5F) then
    nparams <- line_nparams words i cmd ;;
    if i + 1 + nparams <=? len words then
      Ok (i + (1 + nparams),
          [(1 + nparams, ("  GP0 LINE (skip " ++ str (nparams + 1) ++ " words)")%string)])
    else
      Ok (i + 1, [(1, ("  GP0 LINE 0x" ++ fmt_X 2 cmd ++ " (incomplete)")%string)])
  else if (0x60 <=? cmd) && (cmd <=? 0x7F) then
    let nparams := gp0_param_count cmd in
    if i + 1 + nparams <=? len words then
      Ok (i + (1 + nparams), [(1 + nparams, ("  GP0 RECT 0x" ++ fmt_X 2 cmd ++ " (skip)")%string)])
    else
      Ok (i + 1, [(1, ("  GP0 RECT 0x" ++ fmt_X 2 cmd ++ " (incomplete)")%string)])
  else if cmd =? 0xA0 then
    if i + 3 <=? len words then
      w1 <- index words (i + 1) ;;
      w2 <- index words (i + 2) ;;
      let n := Z.land w1 0xFFFF * Z.land w2 0xFFFF in
      let nwords := 3 + (n + 1) / 2 in
      Ok (i + Z.min nwords (len words - i),
          [(Z.min nwords (len words - i),
            ("  GP0 VRAM_WRITE ~" ++ str n ++ " pixels")%string)])
    else Ok (i + 1, [])
  else
    Ok (i + 1, [(1, ("  GP0 0x" ++ fmt_X 8 val ++ " (cmd=0x" ++ fmt_X 2 cmd ++ ")")%string)]).

(** [while i < len(words): ...] with [lines] threaded through. *)
Fixpoint parse_gp0_loop (fuel : nat) (words : list Z) (i : Z) (lines : list op)
    : res (list op) :=
  if i <? len words then
    match fuel with
    | O => Raise OutOfFuel
    | S fuel =>
      '(i', new) <- gp0_iter words i ;;
      parse_gp0_loop fuel words i' (lines ++ new)
    end
  else Ok lines.

(** The loop entered at word [i] with [lines]; every iteration advances
    [i], so [length words] iterations are enough from any [i >= 0]. *)
Definition parse_gp0_from (words : list Z) (i : Z) (lines : list op) : res (list op) :=
  parse_gp0_loop (List.length words) words i lines.

Definition parse_gp0_stream (words : list Z) : res (list op) :=
  parse_gp0_from words 0 [].

(** ** The process: standard output, files written, exit *)

Record world : Type := mk_world {
  stdout : list string;                 (* one entry per print call *)
  files : list (string * list byte)     (* files created, with their contents *)
}.

Definition world0 : world := mk_world [] [].

(** A computation of [main]: it may print and write files, and ends in a
    value or in an exception ([sys.exit] is the exception SystemExit). *)
Definition proc (A : Type) : Type := world -> res A * world.

Definition pret {A : Type} (a : A) : proc A := fun w => (Ok a, w).

Definition pbind {A B : Type} (m : proc A) (k : A -> proc B) : proc B :=
  fun w =>
    match m w with
    | (Ok a, w') => k a w'
    | (Raise e, w') => (Raise e, w')
    end.

Notation "x <~ m ;; k" := (pbind m (fun x => k))
  (at level 61, m at next level, right associativity).
Notation "m ;;; k" := (pbind m (fun _ => k))
  (at level 61, right associativity).

Definition lift {A : Type} (r : res A) : proc A := fun w => (r, w).

Definition print (s : string) : proc unit :=
  fun w => (Ok tt, mk_world (stdout w ++ [s]) (files w)).

Fixpoint print_all (ss : list string) : proc unit :=
  match ss with
  | [] => pret tt
  | s :: ss => print s ;;; print_all ss
  end.

(** [with open(name, "w") as f: f.write(content)], the file created with
    its whole content. *)
Definition write_file (name : string) (content : list byte) : proc unit :=
  fun w => (Ok tt, mk_world (stdout w) (files w ++ [(name, content)])).

Definition sys_exit {A : Type} (status : Z) : proc A :=
  fun w => (Raise (SystemExit status), w).

(** The exit status of the process: 0 on a normal return, the argument
    of [sys.exit], 1 on an uncaught exception. *)
Definition exit_status {A : Type} (r : res A) : Z :=
  match r with
  | Ok _ => 0
  | Raise (SystemExit s) => s
  | Raise _ => 1
  end.

(** ** The packet loop of [main]

    [main] walks the packets three times with the same loop head:

      while pos < len(data):
          pkt, pos = get_next_packet(data, pos)
          if pkt is None:
              break
          ptype, payload = pkt
          BODY

    [packet_loop] is that loop; [body st pos pkt] is BODY on the loop's
    variables [st], ending in [continue] (or the end of the body) or in
    [break]. *)

Inductive ctl (S : Type) : Type :=
| Continue (s : S)
| Break (s : S).
Arguments Continue {S} s.
Arguments Break {S} s.

Fixpoint packet_loop {S : Type} (fuel : nat) (data : list byte)
    (body : S -> Z -> packet -> proc (ctl S)) (pos : Z) (st : S) : proc S :=
  if pos <? len data then
    match fuel with
    | O => lift (Raise OutOfFuel)
    | Datatypes.S fuel =>
      r <~ lift (get_next_packet data pos) ;;
      match r with
      | (None, _) => pret st
      | (Some pkt, pos) =>
        c <~ body st pos pkt ;;
        match c with
        | Continue st => packet_loop fuel data body pos st
        | Break st => pret st
        end
      end
    end
  else pret st.

(** ** Frame segmenter *)

(** First pass: [(in_trace, frame_start_offsets)]. *)
Definition first_pass_body (st : bool * list Z) (pos : Z) (pkt : packet)
    : proc (ctl (bool * list Z)) :=
  let '(in_trace, frame_start_offsets) := st in
  let '(ptype, payload) := pkt in
  if ptype =? PT_TraceBegin then
    pret (Continue (true, frame_start_offsets ++ [pos]))
  else if (ptype =? PT_VSyncEvent) && in_trace then
    pret (Continue (in_trace, frame_start_offsets ++ [pos]))
  else pret (Continue st).

Definition first_pass (data : list byte) (pos : Z) : proc (list Z) :=
  st <~ packet_loop (List.length data) data first_pass_body pos (false, []) ;;
  pret (snd st).

(** [(words[0] >> 24) == 0xA0 and words[1] == 0 and words[2] == 0],
    evaluated left to right as Python's [and] does. *)
Definition blit_signature (words : list Z) : res bool :=
  w0 <- index words 0 ;;
  if Z.shiftr w0 24 =? 0xA0 then
    w1 <- index words 1 ;;
    if w1 =? 0 then
      w2 <- index words 2 ;;
      Ok (w2 =? 0)
    else Ok false
  else Ok false.

(** What the second pass prints for a packet of the selected frame. *)
Definition emit_packet (pkt : packet) : proc unit :=
  let '(ptype, payload) := pkt in
  if ptype =? PT_GPUPort0Data then
    let words := unpack_words payload in
    vram_init <~ lift (if 3 <=? len words then blit_signature words
                       else Ok false) ;;
    if (vram_init : bool) then
      print ("  [VRAM init " ++ str (len words - 3) ++ " words - skipped]")%string
    else
      lines <~ lift (parse_gp0_stream words) ;;
      print_all (map snd lines)
  else if (ptype =? PT_GPUPort1Data) && (4 <=? len payload) then
    w <~ lift (unpack_u32 payload 0) ;;
    let g1 := Z.land (Z.shiftr w 24) 0x3F in
    print ("  GP1 0x" ++ fmt_X 2 g1 ++ " 0x" ++ fmt_X 8 w)%string
  else pret tt.

(** The variables of the second pass. *)
Record pass2 : Type := mk_pass2 {
  current_frame : Z;
  dumping : bool;
  pkt_count : Z
}.

Definition is_int (frame_idx : option Z) : bool :=
  match frame_idx with
  | Some _ => true
  | None => false
  end.

(** Second pass; [frame_idx] is [None] when no frame was named on the
    command line.  ([in_trace] is assigned here too, but never read.) *)
Definition second_pass_body (frame_idx : option Z) (frames_to_skip : Z)
    (st : pass2) (pos : Z) (pkt : packet) : proc (ctl pass2) :=
  let '(ptype, payload) := pkt in
  if ptype =? PT_TraceBegin then
    let current_frame := current_frame st + 1 in
    if current_frame =? frames_to_skip then
      print (nl ++ "--- Frame " ++ str current_frame ++ " ---")%string ;;;
      pret (Continue (mk_pass2 current_frame true (pkt_count st)))
    else pret (Continue (mk_pass2 current_frame (dumping st) (pkt_count st)))
  else if ptype =? PT_VSyncEvent then
    (if dumping st && (current_frame st =? frames_to_skip)
     then print "  VSync" else pret tt) ;;;
    let current_frame := current_frame st + 1 in
    if (frames_to_skip <? current_frame) && is_int frame_idx then
      pret (Break (mk_pass2 current_frame (dumping st) (pkt_count st)))
    else if current_frame =? frames_to_skip then
      pret (Continue (mk_pass2 current_frame true (pkt_count st)))
    else if (frames_to_skip <? current_frame) && is_int frame_idx then
      pret (Break (mk_pass2 current_frame (dumping st) (pkt_count st)))
    else pret (Continue (mk_pass2 current_frame (dumping st) (pkt_count st)))
  else if negb (dumping st) || negb (current_frame st =? frames_to_skip) then
    pret (Continue st)
  else
    let pkt_count := pkt_count st + 1 in
    emit_packet pkt ;;;
    pret (Continue (mk_pass2 (current_frame st) (dumping st) pkt_count)).

(** [f"\nTotal frames: {n}, packets in frame: {k}"]. *)
Definition total_line (n k : Z) : string :=
  (nl ++ "Total frames: " ++ str n ++ ", packets in frame: " ++ str k)%string.

(** [main] from "First pass: find frame starts" on: the single-frame
    mode, for an integer [frame_idx] or none.  [data] is what [load_dump]
    returned; the listing modes ([--list], [--pre-trace]) return before
    this point and are not part of the model. *)
Definition main_frame (data : list byte) (frame_idx : option Z) : proc unit :=
  pos <~ lift (parse_header data) ;;
  frame_start_offsets <~ first_pass data pos ;;
  match frame_start_offsets with
  | [] => print "No frames found" ;;; sys_exit 1
  | _ :: _ =>
    pos <~ lift (parse_header data) ;;
    let frames_to_skip := match frame_idx with Some n => n | None => 0 end in
    let dumping := match frame_idx with Some n => n =? 0 | None => true end in
    st <~ packet_loop (List.length data) data
            (second_pass_body frame_idx frames_to_skip) pos
            (mk_pass2 (-1) dumping 0) ;;
    print (total_line (len frame_start_offsets) (pkt_count st))
  end.

(** ** VRAM extractor *)

(** The scan of the VRAM mode; the loop's variable is [vram_words]. *)
Definition vram_scan_body (vram_words : option (list Z)) (pos : Z) (pkt : packet)
    : proc (ctl (option (list Z))) :=
  let '(ptype, payload) := pkt in
  if (ptype =? 0) && (4 <=? len payload) then
    let words := unpack_words payload in
    found <~ lift (if 262147 <=? len words then blit_signature words
                   else Ok false) ;;
    if (found : bool) then pret (Break (Some (slice words 3 (3 + 262144))))
    else pret (Continue vram_words)
  else pret (Continue vram_words).

Definition px_to_bright (px16 : Z) : Z :=
  let r := Z.land (Z.shiftr px16 0) 0x1F in
  let g := Z.land (Z.shiftr px16 5) 0x1F in
  let b := Z.land (Z.shiftr px16 10) 0x1F in
  (r * 255 / 31 + g * 255 / 31 + b * 255 / 31) / 3.

Definition vram_pixels (vram_words : list Z) : list Z :=
  flat_map (fun w => [px_to_bright (Z.land w 0xFFFF);
                      px_to_bright (Z.land (Z.shiftr w 16) 0xFFFF)]) vram_words.

Definition chars : string := " .:-=+*#@".

(** The two inner loops over [dy] and [dx]: [(acc, n)] of one block. *)
Definition block_sum (pixels : list Z) (W H block bx by_ : Z) : res (Z * Z) :=
  fold_left
    (fun (st : res (Z * Z)) (d : Z * Z) =>
       '(acc, n) <- st ;;
       let '(dy, dx) := d in
       let x := bx * block + dx in
       let y := by_ * block + dy in
       if (y <? H) && (x <? W) then
         let idx := y * W + x in
         if idx <? len pixels then
           p <- index pixels idx ;;
           Ok (acc + p, n + 1)
         else Ok (acc, n)
       else Ok (acc, n))
    (flat_map (fun dy => map (fun dx => (dy, dx)) (range block)) (range block))
    (Ok (0, 0)).

Fixpoint ascii_row (pixels : list Z) (W H block by_ : Z) (bxs : list Z) : res string :=
  match bxs with
  | [] => Ok ""
  | bx :: bxs =>
    '(acc, n) <- block_sum pixels W H block bx by_ ;;
    let avg := if n =? 0 then 0 else acc / n in
    c <- index (list_ascii_of_string chars) (Z.min 9 (avg * 10 / 256)) ;;
    rest <- ascii_row pixels W H block by_ bxs ;;
    Ok (String c rest)
  end.

Fixpoint ascii_rows (pixels : list Z) (W H block out_w : Z) (bys : list Z)
    : res (list string) :=
  match bys with
  | [] => Ok []
  | by_ :: bys =>
    row <- ascii_row pixels W H block by_ (range (Z.min out_w 160)) ;;
    rest <- ascii_rows pixels W H block out_w bys ;;
    Ok (row :: rest)
  end.

(** The bytes of the PPM body, pixel by pixel in row-major order. *)
Fixpoint ppm_pixels (vram_words : list Z) (idxs : list Z) : res (list byte) :=
  match idxs with
  | [] => Ok []
  | idx :: idxs =>
    let wi := idx / 2 in
    let sub := Z.land idx 1 in
    w <- index vram_words wi ;;
    let px := Z.land (Z.shiftr w (sub * 16)) 0xFFFF in
    let r := Z.land (Z.shiftr px 0) 0x1F * 255 / 31 in
    let g := Z.land (Z.shiftr px 5) 0x1F * 255 / 31 in
    let b := Z.land (Z.shiftr px 10) 0x1F * 255 / 31 in
    rest <- ppm_pixels vram_words idxs ;;
    Ok (byte.of_Z r :: byte.of_Z g :: byte.of_Z b :: rest)
  end.

Fixpoint repeat_string (s : string) (n : nat) : string :=
  match n with
  | O => ""
  | S n => (s ++ repeat_string s n)%string
  end.

Definition layout_text : string :=
  ("DuckStation VRAM reference - Ridge Racer logo" ++ nl
   ++ repeat_string "=" 60 ++ nl
   ++ "Display: 1024x512 VRAM, typical view 640x480 or 320x240" ++ nl
   ++ "Pre-trace state: CLIP (0,2)-(639,479), OFFSET (0,2)" ++ nl
   ++ nl ++ "Logo position (from ASCII): ~center X, rows ~20-60" ++ nl
   ++ "Our emulator: mesh rendering (no VRAM). Compare:" ++ nl
   ++ "  - Same vertices (TRI_FLAT from logs) + offset fix" ++ nl
   ++ "  - bCenterDisplay + clip center when offset=(0,0)" ++ nl
   ++ "  - Origin at display center (320, 242) for 640x480" ++ nl
   ++ nl ++ "If logo is shifted/wrong: check R3000GpuComponent.cpp" ++ nl
   ++ "  vx += ClipCx when offset=0 (center-relative coords)" ++ nl)%string.

Section VramMode.

(** The two artifact names, which [main] derives from the capture's
    path with [pathlib] and [str.replace]:
    [str(p.parent / (p.stem.replace(".psxgpu", "") + "_vram.ppm"))] and
    [ppm_name.replace(".ppm", "_layout.txt")]. *)
Variable ppm_name : string.
Variable txt_name : string.

(** The VRAM mode from a found [vram_words] on: the preview, the image
    export and the summary. *)
Definition emit_vram (vram_words : list Z) : proc unit :=
  let W := 1024 in
  let H := 512 in
  let pixels := vram_pixels vram_words in
  let block := 4 in
  let out_w := W / block in
  let out_h := H / block in
  rows <~ lift (ascii_rows pixels W H block out_w (range (Z.min out_h 120))) ;;
  let lines :=
    ("VRAM DuckStation " ++ str W ++ "x" ++ str H ++ " (block=" ++ str block
       ++ ", display area often 0-640 x 0-480)")%string
    :: "" :: rows in
  print (join nl lines) ;;;
  body <~ lift (ppm_pixels vram_words (range (H * W))) ;;
  write_file ppm_name
    (list_byte_of_string ("P6" ++ nl ++ str W ++ " " ++ str H ++ nl ++ "255" ++ nl)
       ++ body) ;;;
  print (nl ++ "PPM saved: " ++ ppm_name)%string ;;;
  write_file txt_name (list_byte_of_string layout_text) ;;;
  print ("Layout summary: " ++ txt_name)%string.

(** [main] in the [--vram] mode. *)
Definition main_vram (data : list byte) : proc unit :=
  pos <~ lift (parse_header data) ;;
  pos <~ lift (parse_header data) ;;
  vram_words <~ packet_loop (List.length data) data vram_scan_body pos None ;;
  match vram_words with
  | None | Some [] => print "VRAM not found in dump" ;;; sys_exit 1
  | Some (w :: ws) => emit_vram (w :: ws)
  end.

End VramMode.

(** ** The packets a capture holds, and packet encoding *)

(** The packets [get_next_packet] yields when called again and again
    from [pos] until it returns the sentinel (or raises): each with the
    cursor before and after it. *)
Fixpoint read_packets (fuel : nat) (data : list byte) (pos : Z)
    : list (Z * packet * Z) :=
  if pos <? len data then
    match fuel with
    | O => []
    | S fuel =>
      match get_next_packet data pos with
      | Ok (Some pkt, pos') => (pos, pkt, pos') :: read_packets fuel data pos'
      | _ => []
      end
    end
  else [].

(** The packets of a capture, after its 14-byte header. *)
Definition packets (data : list byte) : list (Z * packet * Z) :=
  read_packets (List.length data) data 14.

(** [struct.pack("<I", w)]. *)
Definition pack_u32 (w : Z) : list byte := le_split 4 w.

(** The packet header layout in the format's words: one 32-bit
    little-endian word, the word count in its low 24 bits and the packet
    type in its high 8 bits. *)
Definition encode_header (ptype word_count : Z) : list byte :=
  pack_u32 (Z.lor (Z.shiftl ptype 24) word_count).

(** A packet record: the header, then the payload. *)
Definition encode_packet (pkt : packet) : list byte :=
  encode_header (fst pkt) (len (snd pkt) / 4) ++ snd pkt.

Definition pack_words (ws : list Z) : list byte := flat_map pack_u32 ws.

Definition capture_header : list byte :=
  magic ++ list_byte_of_string "v1" ++ [Byte.x00; Byte.x00].

(** ** Notions the properties are stated with *)

(** The opcode of a command word, as every branch computes it. *)
Definition opcode (val : Z) : Z := Z.land (Z.shiftr val 24) 0xFF.

(** The operand words of a polygon by its three bits: one word per
    vertex, one more per vertex when textured, one more per vertex after
    the first when Gouraud-shaded. *)
Definition polygon_operands (quad gouraud textured : bool) : Z :=
  let verts := if quad then 4 else 3 in
  verts + (if textured then verts else 0) + (if gouraud then verts - 1 else 0).

(** The operand count [nparams] a polygon, line or rectangle branch
    compares with the rest of the stream. *)
Definition operand_words (words : list Z) (i cmd : Z) : res Z :=
  if (0x40 <=? cmd) && (cmd <=? 0x5F) then line_nparams words i cmd
  else Ok (gp0_param_count cmd).

(** The text of an "incomplete" marker. *)
Definition incomplete_marker (cmd : Z) : string :=
  ("  GP0 " ++ (if (cmd <=? 0x3F)%Z then "POLY"
                else if (cmd <=? 0x5F)%Z then "LINE" else "RECT")
     ++ " 0x" ++ fmt_X 2 cmd ++ " (incomplete)")%string.

(** The operation at word [i] lacks words: the guards of the decoder that
    find the stream too short for it. *)
Definition truncated_at (words : list Z) (i : Z) : res bool :=
  val <- index words i ;;
  let cmd := opcode val in
  if in_GP0_ENV cmd then Ok false
  else if (0x20 <=? cmd) && (cmd <=? 0x7F) then
    nparams <- operand_words words i cmd ;;
    Ok (len words <? i + 1 + nparams)
  else if cmd =? 0xA0 then
    if i + 3 <=? len words then
      w1 <- index words (i + 1) ;;
      w2 <- index words (i + 2) ;;
      let n := Z.land w1 0xFFFF * Z.land w2 0xFFFF in
      Ok (len words - i <? 3 + (n + 1) / 2)
    else Ok true
  else Ok false.

(** A word stream is well formed when no operation the decoder reaches,
    walking from word 0, is truncated. *)
Fixpoint well_formed_from (fuel : nat) (words : list Z) (i : Z) : bool :=
  if i <? len words then
    match fuel with
    | O => false
    | S fuel =>
      match truncated_at words i, gp0_iter words i with
      | Ok false, Ok (i', _) => well_formed_from fuel words i'
      | _, _ => false
      end
    end
  else true.

Definition well_formed (words : list Z) : bool :=
  well_formed_from (List.length words) words 0.

(** [consumed_word_count] summed over decoded operations. *)
Definition consumed (lines : list op) : Z :=
  fold_right Z.add 0 (map fst lines).

(** A polyline terminator word. *)
Definition terminator (w : Z) : bool := Z.land w 0xF000F000 =? 0x50005000.

(** A GP0 packet whose payload begins with opcode 0xA0 and two zero
    origin words and holds at least 3 + 262144 words. *)
Definition full_frame_blit (pkt : packet) : bool :=
  (fst pkt =? PT_GPUPort0Data) &&
  match unpack_words (snd pkt) with
  | w0 :: w1 :: w2 :: _ =>
    (Z.shiftr w0 24 =? 0xA0) && (w1 =? 0) && (w2 =? 0)
    && (3 + 262144 <=? len (unpack_words (snd pkt)))
  | _ => false
  end.

(** The frame markers. *)
Definition is_marker (x : Z * packet * Z) : bool :=
  let ptype := fst (snd (fst x)) in
  (ptype =? PT_TraceBegin) || (ptype =? PT_VSyncEvent).

Definition ptype_of (x : Z * packet * Z) : Z := fst (snd (fst x)).
Definition packet_of (x : Z * packet * Z) : packet := snd (fst x).

(** The packets lying between two byte offsets of the capture. *)
Definition between (a b : Z) (pkts : list (Z * packet * Z)) : list (Z * packet * Z) :=
  filter (fun x => (a <=? fst (fst x)) && (snd x <=? b)) pkts.

(** Packets that follow one another from offset [a] on. *)
Inductive chained : Z -> list (Z * packet * Z) -> Prop :=
| chained_nil (a : Z) : chained a []
| chained_cons (a b : Z) (pkt : packet) (l : list (Z * packet * Z)) :
    a + 4 <= b -> chained b l -> chained a ((a, pkt, b) :: l).

(** The offset at which a chain of packets ends. *)
Fixpoint chain_end (a : Z) (l : list (Z * packet * Z)) : Z :=
  match l with
  | [] => a
  | (_, _, b) :: l => chain_end b l
  end.

(** The loop body run over a list of packets instead of the buffer. *)
Fixpoint over_packets {S : Type} (body : S -> Z -> packet -> proc (ctl S))
    (pkts : list (Z * packet * Z)) (st : S) : proc S :=
  match pkts with
  | [] => pret st
  | (_, pkt, pos) :: pkts =>
    c <~ body st pos pkt ;;
    match c with
    | Continue st => over_packets body pkts st
    | Break st => pret st
    end
  end.

(** Printing the packets of a frame, one after the other. *)
Fixpoint emit_packets (pkts : list packet) : proc unit :=
  match pkts with
  | [] => pret tt
  | pkt :: pkts => emit_packet pkt ;;; emit_packets pkts
  end.

(** The text of a decoded vertex [k] of a flat polygon: the coordinates
    of vertex word [v] and the colour of command word [c]. *)
Definition flat_vertex_text (k c v : Z) : string :=
  ("v" ++ str k
     ++ "=(" ++ str (sign_extend_11 (Z.land v 0x7FF))
     ++ "," ++ str (sign_extend_11 (Z.land (Z.shiftr v 16) 0x7FF))
     ++ ")#" ++ fmt_X 2 (expand5to8 (Z.land (Z.shiftr c 0) 0x1F))
     ++ fmt_X 2 (expand5to8 (Z.land (Z.shiftr c 5) 0x1F))
     ++ fmt_X 2 (expand5to8 (Z.land (Z.shiftr c 10) 0x1F)))%string.

(** The stride of the polyline terminator scan. *)
Definition scan_step (cmd : Z) : Z := if bit_set cmd 0x10 then 2 else 1.

(** ** Sample inputs *)

(** An environment command, a flat triangle, a polyline with its
    terminator, a textured rectangle and a small VRAM write. *)
Definition sample_stream : list Z :=
  [0xE5000801; 0x20007FFF; 0x00100020; 0x07FF0400; 0x00000001;
   0x48000000; 1; 2; 0x50005000; 3; 4; 5;
   0x64000000; 6; 7; 8; 0xA0000000; 0x00020003; 0x00010002; 9; 10; 11].

(** A capture without a full-frame VRAM upload. *)
Definition small_capture : list byte :=
  capture_header
    ++ encode_packet (PT_GPUPort0Data, pack_words [0xA0000000; 0; 0; 0x7FFF7FFF; 0x03E003E0])
    ++ encode_packet (PT_TraceBegin, [])
    ++ encode_packet (PT_GPUPort1Data, pack_words [0x08000001])
    ++ encode_packet (PT_VSyncEvent, []).

(** A capture with one TraceBegin and three VSync packets. *)
Definition frames_capture : list byte :=
  capture_header
    ++ encode_packet (PT_GPUPort1Data, pack_words [0x08000001])
    ++ encode_packet (PT_TraceBegin, [])
    ++ encode_packet (PT_GPUPort0Data, pack_words [0xE3000000])
    ++ encode_packet (PT_VSyncEvent, [])
    ++ encode_packet (PT_GPUPort0Data, pack_words [0xE4000000])
    ++ encode_packet (PT_VSyncEvent, [])
    ++ encode_packet (PT_GPUPort0Data, pack_words [0xE5000801])
    ++ encode_packet (PT_GPUPort1Data, pack_words [0x03000000])
    ++ encode_packet (PT_VSyncEvent, pack_words [7])
    ++ encode_packet (PT_GPUPort1Data, pack_words [0x03000001]).

(** The header, a TraceBegin, one flat triangle and a VSync. *)
Definition minimal_capture : list byte :=
  capture_header
    ++ encode_packet (PT_TraceBegin, [])
    ++ encode_packet (PT_GPUPort0Data,
                      pack_words [0x20007FFF; 0x00100020; 0x07FF0400; 0x00000001])
    ++ encode_packet (PT_VSyncEvent, []).

(** ** Notions of the further properties *)

(** The words the vertex loop of a polygon reads or skips for the corners
    [js]: the vertex word, the texture word of a textured polygon, and
    the colour word of every corner but the first of a Gouraud polygon. *)
Fixpoint vertex_words (js : list Z) (gouraud textured : bool) : Z :=
  match js with
  | [] => 0
  | j :: js =>
    (if (0 <? j) && gouraud then 1 else 0) + 1 + (if textured then 1 else 0)
    + vertex_words js gouraud textured
  end.

(** The colour [(r, g, b)] of a decoded vertex. *)
Definition vertex_colour (v : vertex) : Z * Z * Z :=
  let '(_, _, r, g, b) := v in (r, g, b).

(** The packets [ps] laid out one behind the other from offset [pos]:
    each with the offsets at which it begins and ends. *)
Fixpoint place (pos : Z) (ps : list packet) : list (Z * packet * Z) :=
  match ps with
  | [] => []
  | p :: ps => (pos, p, pos + 4 + len (snd p)) :: place (pos + 4 + len (snd p)) ps
  end.

(** A packet the header layout can express: a type of one byte, a payload
    of whole words, fewer than 2^24 of them. *)
Definition valid_packet (p : packet) : Prop :=
  0 <= fst p <= 255 /\ len (snd p) mod 4 = 0 /\ len (snd p) / 4 <= 0xFFFFFF.

(** The end of a capture that was cut off inside a packet: fewer than
    four bytes, or a whole header whose payload is not all there. *)
Definition cut_off (tail : list byte) : Prop :=
  len tail < 4 \/
  exists ptype word_count partial,
    tail = encode_header ptype word_count ++ partial /\
    0 <= ptype <= 255 /\ 0 <= word_count <= 0xFFFFFF /\ len partial < 4 * word_count.

(** The offsets the first pass records, read off the packets: the end of
    every TraceBegin, and of every VSync met once [in_trace] holds. *)
Fixpoint frame_starts (in_trace : bool) (pkts : list (Z * packet * Z)) : list Z :=
  match pkts with
  | [] => []
  | x :: pkts =>
    if ptype_of x =? PT_TraceBegin then snd x :: frame_starts true pkts
    else if (ptype_of x =? PT_VSyncEvent) && in_trace then snd x :: frame_starts in_trace pkts
    else frame_starts in_trace pkts
  end.

(** A full-frame upload of a black image, and a capture that holds it
    between two other packets. *)
Definition vram_upload : packet :=
  (PT_GPUPort0Data, pack_words (0xA0000000 :: 0 :: 0 :: repeat 0 (Z.to_nat 262144))).

Definition upload_capture : list byte :=
  capture_header
    ++ flat_map encode_packet
         [(PT_GPUPort1Data, pack_words [0x08000001]); vram_upload; (PT_TraceBegin, [])]
    ++ [].

(** One turn of the two inner loops of the preview, on [(acc, n)]. *)
Definition block_step (pixels : list Z) (W H block bx by_ : Z)
    (st : res (Z * Z)) (d : Z * Z) : res (Z * Z) :=
  '(acc, n) <- st ;;
  let '(dy, dx) := d in
  let x := bx * block + dx in
  let y := by_ * block + dy in
  if (y <? H) && (x <? W) then
    let idx := y * W + x in
    if idx <? len pixels then
      p <- index pixels idx ;;
      Ok (acc + p, n + 1)
    else Ok (acc, n)
  else Ok (acc, n).

(** The command words of the drawing environment, as the GPU takes them:
    the opcode in the top byte; a clip corner as [x] in bits 0-9 and [y]
    from bit 10; the draw offset as two 11-bit signed fields, [x] in bits
    0-10 and [y] in bits 11-21. *)
Definition clip_word (cmd x y : Z) : Z := cmd * 2 ^ 24 + y * 2 ^ 10 + x.

Definition draw_offset_word (ox oy : Z) : Z :=
  0xE5 * 2 ^ 24 + (oy mod 2 ^ 11) * 2 ^ 11 + ox mod 2 ^ 11.

(** ** The listing modes of [main]: [--list] and [--pre-trace] *)

Fixpoint spaces (n : nat) : string :=
  match n with
  | O => ""
  | S n => String " " (spaces n)
  end.

(** [f"{n:3d}"]: decimal, right-aligned in three characters, the sign
    counted in the width. *)
Definition fmt_3d (n : Z) : string :=
  (spaces (3 - String.length (str n)) ++ str n)%string.

(** The dict [names] of the listing loop: [names_get ptype] is
    [names.get(ptype, '?')]. *)
Definition names_get (ptype : Z) : string :=
  if ptype =? 0 then "GP0"
  else if ptype =? 1 then "GP1"
  else if ptype =? 2 then "VSync"
  else if ptype =? 3 then "Discard"
  else if ptype =? 4 then "Readback"
  else if ptype =? 5 then "TraceBegin"
  else if ptype =? 6 then "GPUVer"
  else if ptype =? 0x10 then "GameID"
  else if ptype =? 0x11 then "VideoFmt"
  else if ptype =? 0x12 then "Comment"
  else "?".

(** [c.isspace()] on the characters up to U+00FF. *)
Definition is_space (c : ascii) : bool :=
  let n := Z.of_nat (nat_of_ascii c) in
  ((9 <=? n) && (n <=? 13)) || ((28 <=? n) && (n <=? 32)) || (n =? 133) || (n =? 160).

Fixpoint lstrip (s : string) : string :=
  match s with
  | EmptyString => EmptyString
  | String c s' => if is_space c then lstrip s' else s
  end.

Fixpoint rstrip (s : string) : string :=
  match s with
  | EmptyString => EmptyString
  | String c s' =>
    match rstrip s' with
    | EmptyString => if is_space c then EmptyString else String c EmptyString
    | r => String c r
    end
  end.

(** [s.strip()]. *)
Definition strip (s : string) : string := rstrip (lstrip s).

(** The body of the listing loop on the counter [n]; [dump_content] is
    [frame_idx == "pretrace"]. *)
Definition list_body (dump_content : bool) (n : Z) (pkt : packet) : proc (ctl Z) :=
  let '(ptype, payload) := pkt in
  print ("  " ++ fmt_3d n ++ " type=0x" ++ fmt_X 2 ptype ++ " " ++ names_get ptype
           ++ " len=" ++ str (len payload / 4))%string ;;;
  (if dump_content && (ptype =? 0) && (4 <=? len payload) then
     let words := unpack_words payload in
     if len words <=? 20 then
       lines <~ lift (parse_gp0_stream words) ;;
       print_all (map (fun l : op => ("       " ++ strip (snd l))%string) lines)
     else
       vram_init <~ lift (if 3 <=? len words then blit_signature words
                          else Ok false) ;;
       if (vram_init : bool) then
         print ("       [VRAM init " ++ str (len words - 3) ++ " words]")%string
       else pret tt
   else pret tt) ;;;
  (if dump_content && (ptype =? 1) && (4 <=? len payload) then
     w <~ lift (unpack_u32 payload 0) ;;
     print ("       GP1 0x" ++ fmt_X 2 (Z.land (Z.shiftr w 24) 0x3F)
              ++ " = 0x" ++ fmt_X 8 w)%string
   else pret tt) ;;;
  if ptype =? 5 then
    print "  ^ TraceBegin" ;;; pret (Break n)
  else pret (Continue (n + 1)).

(** [while pos < len(data) and n < 200: ...] of the listing modes. *)
Fixpoint list_loop (fuel : nat) (data : list byte) (dump_content : bool)
    (pos n : Z) : proc unit :=
  if (pos <? len data) && (n <? 200) then
    match fuel with
    | O => lift (Raise OutOfFuel)
    | Datatypes.S fuel =>
      r <~ lift (get_next_packet data pos) ;;
      match r with
      | (None, _) => pret tt
      | (Some pkt, pos) =>
        c <~ list_body dump_content n pkt ;;
        match c with
        | Continue n => list_loop fuel data dump_content pos n
        | Break _ => pret tt
        end
      end
    end
  else pret tt.

(** [main] in the [--list] mode ([dump_content = false]) and in the
    [--pre-trace] mode ([dump_content = true]). *)
Definition main_list (data : list byte) (dump_content : bool) : proc unit :=
  pos <~ lift (parse_header data) ;;
  pos <~ lift (parse_header data) ;;
  list_loop (List.length data) data dump_content pos 0.

(** ** Notions of the listing, of frame numbers and of closed streams *)

(** The line of the listing for packet number [n]. *)
Definition list_line (n : Z) (pkt : packet) : string :=
  ("  " ++ fmt_3d n ++ " type=0x" ++ fmt_X 2 (fst pkt) ++ " " ++ names_get (fst pkt)
     ++ " len=" ++ str (len (snd pkt) / 4))%string.

(** The listing of packets numbered from [n]: one line each, up to and
    with the first TraceBegin, which gets a mark of its own. *)
Fixpoint listing (n : Z) (pkts : list (Z * packet * Z)) : list string :=
  match pkts with
  | [] => []
  | x :: pkts =>
    list_line n (packet_of x)
    :: (if ptype_of x =? PT_TraceBegin then ["  ^ TraceBegin"]
        else listing (n + 1) pkts)
  end.

(** A capture in which a VSync comes before the TraceBegin. *)
Definition early_vsync_capture : list byte :=
  capture_header
    ++ encode_packet (PT_VSyncEvent, [])
    ++ encode_packet (PT_GPUPort1Data, pack_words [0x08000001])
    ++ encode_packet (PT_TraceBegin, [])
    ++ encode_packet (PT_GPUPort0Data, pack_words [0xE3000000])
    ++ encode_packet (PT_VSyncEvent, [])
    ++ encode_packet (PT_GPUPort0Data, pack_words [0xE4000000]).

(** A polyline opcode: a line command with the polyline bit. *)
Definition polyline_cmd (cmd : Z) : bool :=
  (0x40 <=? cmd) && (cmd <=? 0x5F) && bit_set cmd 0x08.

(** A word stream is closed when no operation the decoder reaches,
    walking from word [i], is truncated, and every polyline among them
    finds its terminator. *)
Fixpoint closed_from (fuel : nat) (words : list Z) (i : Z) : bool :=
  if i <? len words then
    match fuel with
    | O => false
    | S fuel =>
      match index words i, truncated_at words i, gp0_iter words i with
      | Ok val, Ok false, Ok (i', _) =>
        (negb (polyline_cmd (opcode val)) || (i' <? len words))
        && closed_from fuel words i'
      | _, _, _ => false
      end
    end
  else true.

Definition closed (words : list Z) : bool :=
  closed_from (List.length words) words 0.

(** The VSync packets that come before the first TraceBegin of a
    capture: the markers the second pass counts and the first pass leaves
    out of the frame index. *)
Fixpoint vsyncs_before_trace (pkts : list (Z * packet * Z)) : Z :=
  match pkts with
  | [] => 0
  | x :: pkts =>
    if ptype_of x =? PT_TraceBegin then 0
    else (if ptype_of x =? PT_VSyncEvent then 1 else 0) + vsyncs_before_trace pkts
  end.

(** * Properties *)

(** ** Lists, lengths and slices *)

Lemma len_nonneg {A : Type} (l : list A) : 0 <= len l.
Proof. unfold len. lia. Qed.

Lemma len_app {A : Type} (l1 l2 : list A) : len (l1 ++ l2) = len l1 + len l2.
Proof. unfold len. rewrite length_app. lia. Qed.

Lemma len_cons {A : Type} (a : A) (l : list A) : len (a :: l) = 1 + len l.
Proof. unfold len. simpl List.length. lia. Qed.

Lemma len_nil {A : Type} : len (@nil A) = 0.
Proof. reflexivity. Qed.

Lemma slice_len {A : Type} (l : list A) (a b : Z) :
  0 <= a -> a <= b -> b <= len l -> len (slice l a b) = b - a.
Proof.
  intros Ha Hab Hb. unfold slice, len in *.
  rewrite length_firstn, length_skipn. lia.
Qed.

Lemma slice_app_mid {A : Type} (pre mid post : list A) :
  slice (pre ++ mid ++ post) (len pre) (len pre + len mid) = mid.
Proof.
  unfold slice, len.
  replace (Z.to_nat (Z.of_nat (List.length pre) + Z.of_nat (List.length mid)
                     - Z.of_nat (List.length pre))) with (List.length mid) by lia.
  rewrite Nat2Z.id, skipn_app, skipn_all, Nat.sub_diag. simpl.
  rewrite firstn_app, firstn_all, Nat.sub_diag. simpl. apply app_nil_r.
Qed.

Lemma index_ok {A : Type} (l : list A) (i : Z) :
  0 <= i < len l -> exists a, index l i = Ok a.
Proof.
  intros [H0 H1]. unfold index.
  destruct (Z.ltb_spec i 0); [lia|].
  destruct (nth_error l (Z.to_nat i)) eqn:E; [eauto|].
  apply nth_error_None in E. unfold len in H1. lia.
Qed.

Lemma index_inv {A : Type} (l : list A) (i : Z) (a : A) :
  index l i = Ok a -> 0 <= i < len l /\ nth_error l (Z.to_nat i) = Some a.
Proof.
  unfold index. destruct (Z.ltb_spec i 0); [discriminate|].
  destruct (nth_error l (Z.to_nat i)) eqn:E; [|discriminate].
  intros [= ->]. split; [|reflexivity].
  assert (Z.to_nat i < List.length l)%nat by (apply nth_error_Some; congruence).
  unfold len. lia.
Qed.

Lemma Ok_inj {A : Type} (a b : A) : Ok a = Ok b -> a = b.
Proof. congruence. Qed.

Lemma pair_inj {A B : Type} (a c : A) (b d : B) : (a, b) = (c, d) -> a = c /\ b = d.
Proof. split; congruence. Qed.

Lemma Some_inj {A : Type} (a b : A) : Some a = Some b -> a = b.
Proof. congruence. Qed.

(** Taking [Ok (a, b) = Ok (c, d)] apart without normalising the sides. *)
Ltac ok_pair H Ha Hb :=
  apply Ok_inj in H; apply pair_inj in H; destruct H as [Ha Hb].

(** Checking a decidable property on every integer of [0 .. n-1]. *)
Lemma range_forallb (P : Z -> bool) (n : Z) :
  forallb P (range n) = true -> forall x, 0 <= x < n -> P x = true.
Proof.
  intros H x Hx. rewrite forallb_forall in H. apply H.
  unfold range. apply in_map_iff. exists (Z.to_nat x). split; [lia|].
  apply in_seq. lia.
Qed.

(** ** Field helpers *)

Lemma sign_extend_11_field (x : Z) :
  0 <= x <= 0x7FF ->
  sign_extend_11 x = if x <? 0x400 then x else x - 0x800.
Proof.
  intros Hx.
  assert (Hr : 0 <= x < 0x800) by lia.
  apply Z.eqb_eq.
  clear Hx. revert x Hr.
  apply (range_forallb
           (fun x => sign_extend_11 x =? (if x <? 0x400 then x else x - 0x800))).
  vm_compute. reflexivity.
Qed.

(** C8. The draw-offset sign extension maps the 11-bit field 0x7FF to -1,
    0x000 to 0 and 0x400 to -1024; every field value from 0x400 up
    becomes negative by subtracting 0x800, every smaller one is kept. *)
Theorem sign_extend_11_spec :
  sign_extend_11 0x7FF = -1 /\
  sign_extend_11 0x000 = 0 /\
  sign_extend_11 0x400 = -1024 /\
  (forall x, 0x400 <= x <= 0x7FF ->
     sign_extend_11 x = x - 0x800 /\ sign_extend_11 x < 0) /\
  (forall x, 0 <= x < 0x400 -> sign_extend_11 x = x).
Proof.
  repeat split; try reflexivity.
  - rewrite sign_extend_11_field by lia.
    destruct (Z.ltb_spec x 0x400); lia.
  - rewrite sign_extend_11_field by lia.
    destruct (Z.ltb_spec x 0x400); lia.
  - intros x Hx. rewrite sign_extend_11_field by lia.
    destruct (Z.ltb_spec x 0x400); lia.
Qed.

Lemma sign_extend_11_spec_witness :
  (sign_extend_11 0x5A3 = 0x5A3 - 0x800 /\ sign_extend_11 0x5A3 < 0) /\
  sign_extend_11 0x123 = 0x123.
Proof.
  destruct sign_extend_11_spec as (_ & _ & _ & Hneg & Hpos).
  split; [apply Hneg; lia | apply Hpos; lia].
Defined.

(** ** Operand counts *)

Lemma gp0_param_count_polygon (cmd : Z) :
  0x20 <= cmd <= 0x3F ->
  gp0_param_count cmd
  = polygon_operands (bit_set cmd 0x08) (bit_set cmd 0x10) (bit_set cmd 0x04).
Proof.
  intros H. unfold gp0_param_count.
  destruct (Z.leb_spec cmd 0x1F); [lia|].
  destruct (Z.leb_spec 0x20 cmd); [|lia].
  destruct (Z.leb_spec cmd 0x3F); [|lia].
  cbn [andb].
  destruct (bit_set cmd 0x10), (bit_set cmd 0x08), (bit_set cmd 0x04); reflexivity.
Qed.

(** C2. For every polygon opcode 0x20..0x3F the operand count is the one
    of the policy table, for each of the eight combinations of the quad,
    Gouraud and textured bits: 3, 6, 5, 8 words for triangles and 4, 8, 7,
    11 for quads; the textured flat count is verts*2 and the textured
    Gouraud count 3*verts-1. *)
Theorem gp0_param_count_polygon_table :
  forall cmd, 0x20 <= cmd <= 0x3F ->
    let quad := bit_set cmd 0x08 in
    let gouraud := bit_set cmd 0x10 in
    let textured := bit_set cmd 0x04 in
    let verts := if quad then 4 else 3 in
    gp0_param_count cmd = polygon_operands quad gouraud textured /\
    gp0_param_count cmd =
      match quad, gouraud, textured with
      | false, false, false => 3
      | false, false, true => 6
      | false, true, false => 5
      | false, true, true => 8
      | true, false, false => 4
      | true, false, true => 8
      | true, true, false => 7
      | true, true, true => 11
      end /\
    (gouraud = false -> textured = true -> gp0_param_count cmd = verts * 2) /\
    (gouraud = true -> textured = true -> gp0_param_count cmd = 3 * verts - 1).
Proof.
  intros cmd H. cbv zeta. rewrite gp0_param_count_polygon by assumption.
  destruct (bit_set cmd 0x08), (bit_set cmd 0x10), (bit_set cmd 0x04);
    repeat split; intros; try reflexivity; discriminate.
Qed.

Lemma gp0_param_count_polygon_table_witness :
  gp0_param_count 0x20 = 3 /\ gp0_param_count 0x3C = 11.
Proof.
  split.
  - exact (proj1 (proj2 (gp0_param_count_polygon_table 0x20 ltac:(lia)))).
  - exact (proj1 (proj2 (gp0_param_count_polygon_table 0x3C ltac:(lia)))).
Defined.

(** ** Packet reader *)

Lemma header_word_add (t wc : Z) :
  0 <= wc < 2 ^ 24 -> Z.lor (Z.shiftl t 24) wc = t * 2 ^ 24 + wc.
Proof.
  intros H. rewrite <- Z.shiftl_mul_pow2 by lia.
  assert (E : Z.land (Z.shiftl t 24) wc = 0);
    [|rewrite Z.add_nocarry_lxor, Z.lxor_lor by exact E; reflexivity].
  apply Z.bits_inj'. intros n Hn.
  rewrite Z.land_spec, Z.bits_0.
  destruct (Z.ltb_spec n 24).
  - rewrite Z.shiftl_spec_low by lia. reflexivity.
  - replace (Z.testbit wc n) with false; [apply andb_false_r|].
    symmetry. destruct (Z.eq_dec wc 0) as [->|]; [apply Z.bits_0|].
    apply Z.bits_above_log2; [lia|].
    apply Z.log2_lt_pow2; [lia|].
    assert (2 ^ 24 <= 2 ^ n) by (apply Z.pow_le_mono_r; lia). lia.
Qed.

Lemma header_word_count (t wc : Z) :
  0 <= wc < 2 ^ 24 -> Z.land (Z.lor (Z.shiftl t 24) wc) 0xFFFFFF = wc.
Proof.
  intros. rewrite header_word_add by assumption. change 0xFFFFFF with (Z.ones 24).
  rewrite Z.land_ones by lia.
  rewrite Z.add_comm, Z.mod_add by lia. apply Z.mod_small; lia.
Qed.

Lemma header_word_type (t wc : Z) :
  0 <= t < 256 -> 0 <= wc < 2 ^ 24 ->
  Z.land (Z.shiftr (Z.lor (Z.shiftl t 24) wc) 24) 0xFF = t.
Proof.
  intros. rewrite header_word_add by lia. rewrite Z.shiftr_div_pow2 by lia.
  rewrite Z.add_comm, Z.div_add by lia. rewrite Z.div_small by lia. simpl.
  change 0xFF with (Z.ones 8). rewrite Z.land_ones by lia. apply Z.mod_small. lia.
Qed.

Lemma header_word_range (t wc : Z) :
  0 <= t < 256 -> 0 <= wc < 2 ^ 24 -> 0 <= Z.lor (Z.shiftl t 24) wc < 2 ^ 32.
Proof. intros. rewrite header_word_add by lia. lia. Qed.

Lemma len_encode_header (t wc : Z) : len (encode_header t wc) = 4.
Proof. unfold len, encode_header, pack_u32. now rewrite length_le_split. Qed.

Lemma unpack_u32_range (data : list byte) (pos hdr : Z) :
  0 <= pos -> unpack_u32 data pos = Ok hdr -> 0 <= hdr < 2 ^ 32.
Proof.
  unfold unpack_u32. intros Hpos.
  destruct (Z.ltb_spec (len data) (pos + 4)); [discriminate|].
  intros [= <-].
  pose proof (le_combine_bound (slice data pos (pos + 4))) as Hb.
  assert (E : len (slice data pos (pos + 4)) = 4).
  { rewrite slice_len; lia. }
  unfold len in E. rewrite E in Hb. exact Hb.
Qed.

Lemma unpack_u32_encode_header (pre post : list byte) (t wc : Z) :
  0 <= t < 256 -> 0 <= wc < 2 ^ 24 ->
  unpack_u32 (pre ++ encode_header t wc ++ post) (len pre)
  = Ok (Z.lor (Z.shiftl t 24) wc).
Proof.
  intros Ht Hwc. unfold unpack_u32.
  rewrite !len_app, len_encode_header.
  pose proof (len_nonneg post).
  destruct (Z.ltb_spec (len pre + (4 + len post)) (len pre + 4)); [lia|].
  f_equal.
  rewrite <- (len_encode_header t wc), slice_app_mid.
  unfold encode_header, pack_u32. rewrite le_combine_split.
  apply Z.mod_small. apply header_word_range; assumption.
Qed.

(** The reader never raises: it returns a packet or the sentinel. *)
Lemma get_next_packet_total (data : list byte) (pos : Z) :
  exists r pos', get_next_packet data pos = Ok (r, pos').
Proof.
  unfold get_next_packet, unpack_u32.
  destruct (len data <? pos + 4); [eauto|].
  cbn [bind].
  match goal with |- context [if ?c then _ else _] => destruct c end; eauto.
Qed.

(** What the reader returns when it returns a packet. *)
Lemma get_next_packet_some (data : list byte) (pos pos' : Z) (pkt : packet) :
  0 <= pos ->
  get_next_packet data pos = Ok (Some pkt, pos') ->
  exists hdr,
    unpack_u32 data pos = Ok hdr /\
    fst pkt = Z.land (Z.shiftr hdr 24) 0xFF /\
    snd pkt = slice data (pos + 4) (pos + 4 + Z.land hdr 0xFFFFFF * 4) /\
    len (snd pkt) = 4 * Z.land hdr 0xFFFFFF /\
    pos' = pos + 4 + len (snd pkt) /\
    pos' <= len data.
Proof.
  intros Hpos. unfold get_next_packet.
  destruct (Z.ltb_spec (len data) (pos + 4)); [discriminate|].
  destruct (unpack_u32 data pos) as [hdr|] eqn:Eh; [|discriminate].
  cbn [bind].
  assert (0 <= Z.land hdr 0xFFFFFF) by (apply Z.land_nonneg; lia).
  destruct (Z.ltb_spec (len data) (pos + 4 + Z.land hdr 0xFFFFFF * 4));
    [discriminate|].
  intros E. ok_pair E E1 E2. apply Some_inj in E1. subst pkt pos'.
  exists hdr. cbn [fst snd].
  rewrite slice_len by lia.
  repeat split; try reflexivity; lia.
Qed.

(** The cursor moves on by at least the four header bytes. *)
Lemma get_next_packet_progress (data : list byte) (pos pos' : Z) (pkt : packet) :
  get_next_packet data pos = Ok (Some pkt, pos') -> pos + 4 <= pos' <= len data.
Proof.
  unfold get_next_packet.
  destruct (Z.ltb_spec (len data) (pos + 4)); [discriminate|].
  destruct (unpack_u32 data pos) as [hdr|] eqn:Eh; [|discriminate].
  cbn [bind].
  assert (0 <= Z.land hdr 0xFFFFFF) by (apply Z.land_nonneg; lia).
  destruct (Z.ltb_spec (len data) (pos + 4 + Z.land hdr 0xFFFFFF * 4));
    [discriminate|].
  intros E. ok_pair E E1 E2. lia.
Qed.

(** Reading back an encoded packet that sits at the cursor. *)
Lemma get_next_packet_encoded (pre post payload : list byte) (ptype word_count : Z) :
  0 <= ptype <= 255 -> 0 <= word_count <= 0xFFFFFF ->
  len payload = 4 * word_count ->
  get_next_packet (pre ++ encode_header ptype word_count ++ payload ++ post) (len pre)
  = Ok (Some (ptype, payload), len pre + 4 + len payload).
Proof.
  intros Ht Hwc Hlen. unfold get_next_packet.
  rewrite unpack_u32_encode_header by lia. cbn [bind].
  rewrite header_word_count, header_word_type by lia.
  rewrite !len_app, len_encode_header.
  pose proof (len_nonneg post). pose proof (len_nonneg pre).
  destruct (Z.ltb_spec (len pre + (4 + (len payload + len post))) (len pre + 4)); [lia|].
  destruct (Z.ltb_spec (len pre + (4 + (len payload + len post)))
              (len pre + 4 + word_count * 4)); [lia|].
  replace (len pre + 4) with (len (pre ++ encode_header ptype word_count))
    by (rewrite len_app, len_encode_header; reflexivity).
  replace (word_count * 4) with (len payload) by lia.
  rewrite (app_assoc pre), slice_app_mid. reflexivity.
Qed.

(** C7. The reader takes the word count from the low 24 bits of the
    header word and the type from its high 8 bits; a header encoded with
    any type 0..255 and any word count 0..2^24-1 is read back with both
    fields intact. *)
Theorem packet_header_roundtrip :
  (forall data pos ptype payload pos',
     0 <= pos ->
     get_next_packet data pos = Ok (Some (ptype, payload), pos') ->
     exists hdr,
       unpack_u32 data pos = Ok hdr /\ 0 <= hdr < 2 ^ 32 /\
       ptype = Z.land (Z.shiftr hdr 24) 0xFF /\
       len payload / 4 = Z.land hdr 0xFFFFFF /\
       len payload = 4 * Z.land hdr 0xFFFFFF) /\
  (forall ptype word_count payload pre post,
     0 <= ptype <= 255 -> 0 <= word_count <= 0xFFFFFF ->
     len payload = 4 * word_count ->
     let data := pre ++ encode_header ptype word_count ++ payload ++ post in
     exists hdr,
       unpack_u32 data (len pre) = Ok hdr /\
       Z.land hdr 0xFFFFFF = word_count /\
       Z.land (Z.shiftr hdr 24) 0xFF = ptype /\
       get_next_packet data (len pre)
       = Ok (Some (ptype, payload), len pre + 4 + 4 * word_count) /\
       len payload / 4 = word_count).
Proof.
  split.
  - intros data pos ptype payload pos' Hpos H.
    destruct (get_next_packet_some _ _ _ _ Hpos H) as (hdr & Hh & Ht & _ & Hl & _).
    cbn [fst snd] in *. exists hdr.
    repeat split; try assumption; try (eapply unpack_u32_range; eassumption).
    rewrite Hl, Z.mul_comm. apply Z.div_mul. lia.
  - intros ptype word_count payload pre post Ht Hwc Hlen data.
    exists (Z.lor (Z.shiftl ptype 24) word_count). subst data.
    repeat split.
    + apply unpack_u32_encode_header; lia.
    + apply header_word_count; lia.
    + apply header_word_type; lia.
    + rewrite get_next_packet_encoded by assumption. now rewrite Hlen.
    + rewrite Hlen, Z.mul_comm. apply Z.div_mul. lia.
Qed.

Lemma packet_header_roundtrip_witness :
  get_next_packet
    (capture_header ++ encode_header 0x12 2
       ++ pack_words [0x11223344; 0xA0B0C0D0] ++ [Byte.x07])
    (len capture_header)
  = Ok (Some (0x12, pack_words [0x11223344; 0xA0B0C0D0]), len capture_header + 4 + 4 * 2).
Proof.
  destruct (proj2 packet_header_roundtrip 0x12 2 (pack_words [0x11223344; 0xA0B0C0D0])
              capture_header [Byte.x07])
    as (hdr & _ & _ & _ & H & _); [lia | lia | reflexivity | exact H].
Defined.

(** C6. The reader returns the sentinel, and never a packet or an error,
    exactly when fewer than four bytes remain at the cursor or the
    declared payload would overrun the buffer; the packet loops of [main]
    end normally on the sentinel. *)
Theorem get_next_packet_sentinel :
  forall data pos, 0 <= pos ->
    exists r pos',
      get_next_packet data pos = Ok (r, pos') /\
      (r = None <->
         len data - pos < 4 \/
         exists hdr, unpack_u32 data pos = Ok hdr /\
                     len data < pos + 4 + 4 * Z.land hdr 0xFFFFFF) /\
      (r = None ->
         forall (S : Type) (body : S -> Z -> packet -> proc (ctl S)) (st : S) fuel w,
           packet_loop (Datatypes.S fuel) data body pos st w = (Ok st, w)).
Proof.
  intros data pos Hpos.
  destruct (get_next_packet_total data pos) as (r & pos' & E).
  exists r, pos'. split; [exact E|]. split.
  - unfold get_next_packet in E. unfold unpack_u32 in *.
    destruct (Z.ltb_spec (len data) (pos + 4)).
    + ok_pair E E1 E2. subst r. split; [intros _; left; lia | reflexivity].
    + cbn [bind] in E.
      destruct (Z.ltb_spec (len data)
                  (pos + 4 + Z.land (le_combine (slice data pos (pos + 4))) 0xFFFFFF * 4)).
      * ok_pair E E1 E2. subst r. split; [|reflexivity].
        intros _. right. eexists. split; [reflexivity | lia].
      * ok_pair E E1 E2. subst r. split; [discriminate|].
        intros [Hs | (hdr & Hh & Hlt)]; [lia|].
        apply Ok_inj in Hh. subst hdr. lia.
  - intros -> S body st fuel w. cbn [packet_loop].
    destruct (pos <? len data); [|reflexivity].
    unfold pbind, lift. rewrite E. reflexivity.
Qed.

Lemma get_next_packet_sentinel_witness :
  exists r pos',
    get_next_packet (capture_header ++ encode_header 0 3 ++ pack_words [1; 2]) 14
    = Ok (r, pos') /\ r = None.
Proof.
  destruct (get_next_packet_sentinel
              (capture_header ++ encode_header 0 3 ++ pack_words [1; 2]) 14 ltac:(lia))
    as (r & pos' & E & Hiff & _).
  exists r, pos'. split; [exact E|].
  apply Hiff. right. exists 3. split; [reflexivity | vm_compute; reflexivity].
Defined.

(** ** GP0 primitive decoder: single operations *)

Lemma consumed_app (a b : list op) : consumed (a ++ b) = consumed a + consumed b.
Proof.
  unfold consumed. induction a as [|x a IH]; simpl; lia.
Qed.

Lemma consumed_one (n : Z) (s : string) : consumed [(n, s)] = n.
Proof. unfold consumed. simpl. lia. Qed.

Lemma at_least_one (n : Z) (s : string) :
  1 <= n -> Forall (fun o : op => 1 <= fst o) [(n, s)].
Proof. intros H. repeat constructor. exact H. Qed.

(** A list of known length, written out element by element. *)
Ltac explode_list l H :=
  unfold len in H;
  repeat (destruct l as [|? l]; cbn [List.length] in H; try (exfalso; lia)).

(** A complete polygon always decodes, and consumes its whole chunk. *)
Lemma decode_polygon_ok (cmd : Z) (chunk : list Z) :
  0x20 <= cmd <= 0x3F ->
  len chunk = 1 + gp0_param_count cmd ->
  exists s, decode_polygon cmd chunk = Ok (len chunk, s).
Proof.
  intros Hc Hl. rewrite gp0_param_count_polygon in Hl by assumption.
  unfold decode_polygon.
  destruct (bit_set cmd 0x08), (bit_set cmd 0x10), (bit_set cmd 0x04);
    cbv [polygon_operands] in Hl;
    explode_list chunk Hl; eexists; reflexivity.
Qed.

(** The terminator scan ends, at or after its starting point. *)
Lemma polyline_scan_ok (fuel : nat) (words : list Z) (cmd j : Z) :
  0 <= j -> len words - j <= Z.of_nat fuel ->
  exists j', polyline_scan fuel words cmd j = Ok j' /\ j <= j'.
Proof.
  revert j. induction fuel as [|fuel IH]; intros j Hj Hf; cbn [polyline_scan].
  - destruct (Z.ltb_spec j (len words)); [lia|]. exists j. split; [reflexivity|lia].
  - destruct (Z.ltb_spec j (len words)); [|exists j; split; [reflexivity|lia]].
    destruct (index_ok words j ltac:(lia)) as [w ->]. cbn [bind].
    destruct (Z.land w 0xF000F000 =? 0x50005000);
      [exists j; split; [reflexivity|lia]|].
    destruct (IH (j + (if bit_set cmd 0x10 then 2 else 1))) as (j' & E & Hle);
      [destruct (bit_set cmd 0x10); lia ..|].
    exists j'. split; [exact E|]. destruct (bit_set cmd 0x10); lia.
Qed.

(** The scan stops on the first terminator among the positions it
    visits: [j], [j + step], [j + 2*step], ... *)
Lemma polyline_scan_found (k : nat) :
  forall (fuel : nat) (words : list Z) (cmd j w : Z),
    0 <= j -> len words - j <= Z.of_nat fuel ->
    index words (j + scan_step cmd * Z.of_nat k) = Ok w ->
    terminator w = true ->
    (forall k' w', (k' < k)%nat ->
       index words (j + scan_step cmd * Z.of_nat k') = Ok w' -> terminator w' = false) ->
    polyline_scan fuel words cmd j = Ok (j + scan_step cmd * Z.of_nat k).
Proof.
  induction k as [|k IH]; intros fuel words cmd j w Hj Hf Hw Ht Hbefore.
  - replace (j + scan_step cmd * Z.of_nat 0) with j in * by lia.
    apply index_inv in Hw as Hr. destruct Hr as [Hr _].
    destruct fuel as [|fuel]; [lia|]. cbn [polyline_scan].
    destruct (Z.ltb_spec j (len words)); [|lia].
    rewrite Hw. cbn [bind]. unfold terminator in Ht. rewrite Ht. reflexivity.
  - assert (Hs : 1 <= scan_step cmd <= 2) by (unfold scan_step; destruct (bit_set cmd 0x10); lia).
    apply index_inv in Hw as Hr. destruct Hr as [Hr _].
    destruct fuel as [|fuel]; [nia|]. cbn [polyline_scan].
    destruct (Z.ltb_spec j (len words)); [|nia].
    destruct (index_ok words j ltac:(lia)) as [w0 Hw0]. rewrite Hw0. cbn [bind].
    assert (Hn : terminator w0 = false).
    { apply (Hbefore 0%nat w0); [lia|].
      replace (j + scan_step cmd * Z.of_nat 0) with j by lia. exact Hw0. }
    unfold terminator in Hn. rewrite Hn.
    fold (scan_step cmd).
    replace (j + scan_step cmd * Z.of_nat (S k))
      with ((j + scan_step cmd) + scan_step cmd * Z.of_nat k) in * by lia.
    apply (IH fuel words cmd (j + scan_step cmd) w); try assumption; try lia.
    intros k' w' Hk' Hw'. apply (Hbefore (S k') w'); [lia|].
    replace (j + scan_step cmd * Z.of_nat (S k'))
      with ((j + scan_step cmd) + scan_step cmd * Z.of_nat k') by lia.
    exact Hw'.
Qed.

Lemma line_nparams_ok (words : list Z) (i cmd : Z) :
  0 <= i -> 0x40 <= cmd <= 0x5F ->
  exists nparams, line_nparams words i cmd = Ok nparams /\ 0 <= nparams.
Proof.
  intros Hi Hc. unfold line_nparams, gp0_param_count.
  destruct (Z.leb_spec cmd 0x1F); [lia|].
  destruct (Z.leb_spec 0x20 cmd); [|lia].
  destruct (Z.leb_spec cmd 0x3F); [lia|].
  destruct (Z.leb_spec 0x40 cmd); [|lia].
  destruct (Z.leb_spec cmd 0x5F); [|lia].
  cbn [andb].
  destruct (bit_set cmd 0x08).
  - cbn [Z.ltb Z.compare].
    destruct (polyline_scan_ok (List.length words) words cmd (i + 1)) as (j & -> & Hj);
      [lia | unfold len; lia |].
    cbn [bind]. eexists. split; [reflexivity | lia].
  - destruct (bit_set cmd 0x10); cbn [Z.ltb Z.compare];
      eexists; (split; [reflexivity | lia]).
Qed.

Lemma gp0_param_count_rect (cmd : Z) :
  0x60 <= cmd <= 0x7F -> 1 <= gp0_param_count cmd <= 3.
Proof.
  intros Hc. unfold gp0_param_count.
  destruct (Z.leb_spec cmd 0x1F); [lia|].
  destruct (Z.leb_spec 0x20 cmd); [|lia].
  destruct (Z.leb_spec cmd 0x3F); [lia|].
  destruct (Z.leb_spec 0x40 cmd); [|lia].
  destruct (Z.leb_spec cmd 0x5F); [lia|].
  destruct (Z.leb_spec 0x60 cmd); [|lia].
  destruct (Z.leb_spec cmd 0x7F); [|lia].
  cbn [andb].
  destruct (Z.land (Z.shiftr cmd 3) 3 =? 0), (bit_set cmd 0x04); lia.
Qed.

Lemma in_GP0_ENV_range (cmd : Z) : in_GP0_ENV cmd = true -> 0xE1 <= cmd <= 0xE6.
Proof.
  unfold in_GP0_ENV, GP0_ENV_get.
  repeat match goal with
         | |- context [?a =? ?b] => destruct (Z.eqb_spec a b); [lia|]
         end.
  discriminate.
Qed.

Lemma not_in_GP0_ENV (cmd : Z) : cmd < 0xE1 \/ 0xE6 < cmd -> in_GP0_ENV cmd = false.
Proof.
  intros H. destruct (in_GP0_ENV cmd) eqn:E; [|reflexivity].
  apply in_GP0_ENV_range in E. lia.
Qed.

(** The truth values of the opcode range tests of the decoder, by [lia]. *)
Ltac cmd_tests cmd :=
  repeat match goal with
         | |- context [Z.leb ?a cmd] =>
           destruct (Z.leb_spec a cmd); try (exfalso; lia)
         | |- context [Z.leb cmd ?b] =>
           destruct (Z.leb_spec cmd b); try (exfalso; lia)
         end;
  cbn [andb orb negb].

(** One iteration always succeeds, moves [i] forward within the stream,
    and appends operations of at least one word each, whose counts add up
    to the advance of [i]; the one exception to the last is opcode 0xA0
    with fewer than three words left, where nothing is appended. *)
Lemma gp0_iter_spec (words : list Z) (i : Z) :
  0 <= i < len words ->
  exists i' new,
    gp0_iter words i = Ok (i', new) /\
    i < i' <= len words /\
    Forall (fun o : op => 1 <= fst o) new /\
    (consumed new = i' - i \/ (new = [] /\ truncated_at words i = Ok true)).
Proof.
  intros Hi. destruct (index_ok words i Hi) as [val Hval].
  unfold gp0_iter, truncated_at, operand_words, opcode. rewrite Hval. cbn [bind].
  set (cmd := Z.land (Z.shiftr val 24) 0xFF).
  destruct (in_GP0_ENV cmd) eqn:Eenv.
  { do 2 eexists. split; [reflexivity|]. split; [lia|].
    split; [apply at_least_one; lia|]. left. rewrite consumed_one. lia. }
  destruct (Z_le_dec 0x20 cmd) as [H20|H20]; [|].
  2: { (* below the polygons *)
    cmd_tests cmd. destruct (Z.eqb_spec cmd 0xA0); [lia|]. do 2 eexists. split; [reflexivity|]. split; [lia|].
    split; [apply at_least_one; lia|]. left. rewrite consumed_one. lia. }
  destruct (Z_le_dec cmd 0x3F) as [H3F|H3F].
  { (* polygon *)
    pose proof (gp0_param_count_polygon cmd ltac:(lia)) as Hn.
    assert (3 <= gp0_param_count cmd).
    { rewrite Hn. unfold polygon_operands.
      destruct (bit_set cmd 8), (bit_set cmd 16), (bit_set cmd 4); lia. }
    cmd_tests cmd.
    destruct (Z.ltb_spec (len words) (i + 1 + gp0_param_count cmd)).
    - do 2 eexists. split; [reflexivity|]. split; [lia|].
      split; [apply at_least_one; lia|]. left. rewrite consumed_one. lia.
    - destruct (decode_polygon_ok cmd (slice words i (i + 1 + gp0_param_count cmd)))
        as [s Hs]; [lia | rewrite slice_len; lia |].
      rewrite Hs. cbn [bind]. rewrite slice_len by lia.
      do 2 eexists. split; [reflexivity|]. split; [lia|].
      split; [apply at_least_one; lia|]. left. rewrite consumed_one. lia. }
  destruct (Z_le_dec cmd 0x5F) as [H5F|H5F].
  { (* line *)
    destruct (line_nparams_ok words i cmd) as (nparams & Hl & Hn); [lia | lia |].
    cmd_tests cmd. rewrite Hl. cbn [bind].
    destruct (Z.leb_spec (i + 1 + nparams) (len words)).
    - do 2 eexists. split; [reflexivity|]. split; [lia|].
      split; [apply at_least_one; lia|]. left. rewrite consumed_one. lia.
    - do 2 eexists. split; [reflexivity|]. split; [lia|].
      split; [apply at_least_one; lia|]. left. rewrite consumed_one. lia. }
  destruct (Z_le_dec cmd 0x7F) as [H7F|H7F].
  { (* rectangle *)
    pose proof (gp0_param_count_rect cmd ltac:(lia)) as Hn.
    cmd_tests cmd.
    destruct (Z.leb_spec (i + 1 + gp0_param_count cmd) (len words)).
    - do 2 eexists. split; [reflexivity|]. split; [lia|].
      split; [apply at_least_one; lia|]. left. rewrite consumed_one. lia.
    - do 2 eexists. split; [reflexivity|]. split; [lia|].
      split; [apply at_least_one; lia|]. left. rewrite consumed_one. lia. }
  cmd_tests cmd.
  destruct (Z.eqb_spec cmd 0xA0).
  - (* VRAM write *)
    destruct (Z.leb_spec (i + 3) (len words)).
    + destruct (index_ok words (i + 1) ltac:(lia)) as [w1 ->].
      destruct (index_ok words (i + 2) ltac:(lia)) as [w2 ->]. cbn [bind].
      assert (0 <= Z.land w1 0xFFFF) by (apply Z.land_nonneg; lia).
      assert (0 <= Z.land w2 0xFFFF) by (apply Z.land_nonneg; lia).
      assert (0 <= (Z.land w1 0xFFFF * Z.land w2 0xFFFF + 1) / 2)
        by (apply Z.div_pos; nia).
      do 2 eexists. split; [reflexivity|]. split; [lia|].
      split; [apply at_least_one; lia|]. left. rewrite consumed_one. lia.
    + do 2 eexists. split; [reflexivity|]. split; [lia|].
      split; [constructor|]. right. split; reflexivity.
  - do 2 eexists. split; [reflexivity|]. split; [lia|].
    split; [apply at_least_one; lia|]. left. rewrite consumed_one. lia.
Qed.

Lemma gp0_iter_progress (words : list Z) (i i' : Z) (new : list op) :
  0 <= i < len words -> gp0_iter words i = Ok (i', new) -> i < i' <= len words.
Proof.
  intros Hi E. destruct (gp0_iter_spec words i Hi) as (j & n & E' & Hj & _).
  rewrite E in E'. ok_pair E' E1 E2. subst. exact Hj.
Qed.

(** ** GP0 primitive decoder: the loop *)

Lemma parse_gp0_loop_end (fuel : nat) (words : list Z) (i : Z) (lines : list op) :
  len words <= i -> parse_gp0_loop fuel words i lines = Ok lines.
Proof.
  intros H. destruct fuel; cbn [parse_gp0_loop];
    destruct (Z.ltb_spec i (len words)); try lia; reflexivity.
Qed.

(** Fuel beyond the words left does not change the loop. *)
Lemma parse_gp0_loop_fuel (f1 : nat) :
  forall (f2 : nat) (words : list Z) (i : Z) (lines : list op),
    0 <= i ->
    len words - i <= Z.of_nat f1 -> len words - i <= Z.of_nat f2 ->
    parse_gp0_loop f1 words i lines = parse_gp0_loop f2 words i lines.
Proof.
  induction f1 as [|f1 IH]; intros f2 words i lines Hi H1 H2.
  - rewrite !parse_gp0_loop_end by lia. reflexivity.
  - destruct (Z.ltb_spec i (len words)) as [Hlt|Hge].
    2: { rewrite !parse_gp0_loop_end by lia. reflexivity. }
    destruct f2 as [|f2]; [lia|]. cbn [parse_gp0_loop].
    destruct (Z.ltb_spec i (len words)); [|lia].
    destruct (gp0_iter words i) as [[i' new]|e] eqn:E; [|reflexivity].
    cbn [bind]. apply gp0_iter_progress in E; [|lia].
    apply IH; lia.
Qed.

(** The loop at word [i] is one iteration, then the loop at the new [i]. *)
Lemma parse_gp0_from_step (words : list Z) (i i' : Z) (new lines : list op) :
  0 <= i < len words ->
  gp0_iter words i = Ok (i', new) ->
  parse_gp0_from words i lines = parse_gp0_from words i' (lines ++ new).
Proof.
  intros Hi E. unfold parse_gp0_from.
  transitivity (parse_gp0_loop (S (List.length words)) words i lines).
  { apply parse_gp0_loop_fuel; unfold len in *; lia. }
  cbn [parse_gp0_loop]. destruct (Z.ltb_spec i (len words)); [|lia].
  rewrite E. reflexivity.
Qed.

Lemma parse_gp0_from_end (words : list Z) (i : Z) (lines : list op) :
  len words <= i -> parse_gp0_from words i lines = Ok lines.
Proof. apply parse_gp0_loop_end. Qed.

(** The decoder never fails: from any word on it returns the lines it
    was given followed by the operations of the rest of the stream, each
    of at least one word. *)
Lemma parse_gp0_from_total (words : list Z) :
  forall (n : nat) (i : Z) (lines : list op),
    0 <= i -> len words - i <= Z.of_nat n ->
    exists rest,
      parse_gp0_from words i lines = Ok (lines ++ rest) /\
      parse_gp0_from words i [] = Ok rest /\
      Forall (fun o : op => 1 <= fst o) rest.
Proof.
  induction n as [|n IH]; intros i lines Hi Hn.
  - exists []. rewrite !parse_gp0_from_end by lia.
    rewrite app_nil_r. repeat split. constructor.
  - destruct (Z.ltb_spec i (len words)) as [Hlt|Hge].
    2: { exists []. rewrite !parse_gp0_from_end by lia.
         rewrite app_nil_r. repeat split. constructor. }
    destruct (gp0_iter_spec words i ltac:(lia)) as (i' & new & E & Hp & Hf & _).
    destruct (IH i' (lines ++ new) ltac:(lia) ltac:(lia)) as (rest & E1 & E2 & Hr).
    destruct (IH i' ([] ++ new) ltac:(lia) ltac:(lia)) as (rest' & E1' & E2' & _).
    assert (rest' = rest) by congruence. subst rest'.
    exists (new ++ rest).
    rewrite (parse_gp0_from_step words i i' new lines) by (assumption || lia).
    rewrite (parse_gp0_from_step words i i' new []) by (assumption || lia).
    rewrite E1, E1', app_assoc. repeat split.
    apply Forall_app. split; assumption.
Qed.

Lemma parse_gp0_stream_total (words : list Z) :
  exists lines,
    parse_gp0_stream words = Ok lines /\ Forall (fun o : op => 1 <= fst o) lines.
Proof.
  destruct (parse_gp0_from_total words (List.length words) 0 [])
    as (rest & _ & E & Hf); [lia | unfold len; lia |].
  exists rest. split; assumption.
Qed.

(** On a well-formed stream the counts of the operations decoded from
    word [i] on add up to the words from [i] on. *)
Lemma well_formed_from_consumed (words : list Z) :
  forall (fuel : nat) (i : Z) (lines : list op),
    0 <= i <= len words ->
    well_formed_from fuel words i = true ->
    exists rest,
      parse_gp0_loop fuel words i lines = Ok (lines ++ rest) /\
      consumed rest = len words - i /\
      Forall (fun o : op => 1 <= fst o) rest.
Proof.
  induction fuel as [|fuel IH]; intros i lines Hi Hwf; cbn [well_formed_from] in Hwf.
  - destruct (Z.ltb_spec i (len words)); [discriminate|].
    exists []. rewrite parse_gp0_loop_end, app_nil_r by lia.
    repeat split; [cbn; lia | constructor].
  - destruct (Z.ltb_spec i (len words)) as [Hlt|Hge].
    2: { exists []. rewrite parse_gp0_loop_end, app_nil_r by lia.
         repeat split; [cbn; lia | constructor]. }
    destruct (gp0_iter_spec words i ltac:(lia)) as (i' & new & E & Hp & Hf & Hsum).
    rewrite E in Hwf.
    destruct (truncated_at words i) as [[|]|] eqn:Et; try discriminate.
    destruct Hsum as [Hsum | [_ Habs]]; [|discriminate].
    destruct (IH i' (lines ++ new) ltac:(lia) Hwf) as (rest & E1 & Hc & Hr).
    exists (new ++ rest). cbn [parse_gp0_loop].
    destruct (Z.ltb_spec i (len words)); [|lia].
    rewrite E. cbn [bind]. rewrite E1, app_assoc.
    repeat split.
    + rewrite consumed_app. lia.
    + apply Forall_app. split; assumption.
Qed.

(** C1. For every well-formed (non-truncated) GP0 word stream the decoder
    returns operations whose consumed word counts add up to the length of
    the stream, each count being at least 1. *)
Theorem consumed_word_count_sum :
  forall words, well_formed words = true ->
    exists lines,
      parse_gp0_stream words = Ok lines /\
      consumed lines = len words /\
      Forall (fun o : op => 1 <= fst o) lines.
Proof.
  intros words Hwf.
  destruct (well_formed_from_consumed words (List.length words) 0 [])
    as (rest & E & Hc & Hf); [pose proof (len_nonneg words); lia | exact Hwf |].
  exists rest. repeat split; [exact E | lia | exact Hf].
Qed.

Lemma consumed_word_count_sum_witness :
  exists lines,
    parse_gp0_stream sample_stream = Ok lines /\
    consumed lines = 22 /\
    Forall (fun o : op => 1 <= fst o) lines.
Proof.
  apply (consumed_word_count_sum sample_stream). vm_compute. reflexivity.
Defined.

(** ** Polylines *)

(** A terminator word carries a line opcode, 0x50..0x5F. *)
Lemma terminator_opcode (w : Z) : terminator w = true -> 0x50 <= opcode w <= 0x5F.
Proof.
  unfold terminator, opcode. intros H. apply Z.eqb_eq in H.
  assert (E : Z.land (Z.shiftr w 28) 0xF = 5).
  { change 0xF with (Z.shiftr 0xF000F000 28). rewrite <- Z.shiftr_land, H. reflexivity. }
  change 0xF with (Z.ones 4) in E. change 0xFF with (Z.ones 8).
  rewrite Z.land_ones in * by lia. rewrite Z.shiftr_div_pow2 in * by lia.
  change (2 ^ 28) with (2 ^ 24 * 16) in E. rewrite <- Z.div_div in E by lia.
  change (2 ^ 8) with 256. change (2 ^ 4) with 16 in E.
  Z.div_mod_to_equations. lia.
Qed.

Lemma gp0_param_count_polyline (cmd : Z) :
  0x40 <= cmd <= 0x5F -> bit_set cmd 0x08 = true -> gp0_param_count cmd = -1.
Proof.
  intros Hc Hb. unfold gp0_param_count. cmd_tests cmd. now rewrite Hb.
Qed.

(** The iteration on a polyline whose scan finds a terminator at [j]. *)
Lemma gp0_iter_polyline (words : list Z) (i val w : Z) (k : nat) :
  index words i = Ok val ->
  0x40 <= opcode val <= 0x5F -> bit_set (opcode val) 0x08 = true ->
  let j := i + 1 + scan_step (opcode val) * Z.of_nat k in
  index words j = Ok w -> terminator w = true ->
  (forall k' w', (k' < k)%nat ->
     index words (i + 1 + scan_step (opcode val) * Z.of_nat k') = Ok w' ->
     terminator w' = false) ->
  gp0_iter words i
  = Ok (j, [(j - i, ("  GP0 LINE (skip " ++ str (j - i) ++ " words)")%string)]).
Proof.
  intros Hval Hc Hb j Hw Ht Hbefore.
  apply index_inv in Hval as Hi. destruct Hi as [Hi _].
  apply index_inv in Hw as Hj. destruct Hj as [Hj _].
  assert (Hscan : polyline_scan (List.length words) words (opcode val) (i + 1) = Ok j).
  { apply (polyline_scan_found k _ _ _ _ w); try assumption; [lia | unfold len; lia]. }
  unfold gp0_iter. rewrite Hval. cbn [bind]. fold (opcode val).
  rewrite not_in_GP0_ENV by lia.
  set (cmd := opcode val) in *. cmd_tests cmd.
  unfold line_nparams. rewrite gp0_param_count_polyline by assumption.
  cbn [Z.ltb Z.compare]. rewrite Hscan. cbn [bind].
  destruct (Z.leb_spec (i + 1 + (j - i - 1)) (len words)); [|lia].
  replace (1 + (j - i - 1)) with (j - i) by lia.
  replace (j - i - 1 + 1) with (j - i) by lia.
  replace (i + (j - i)) with j by lia.
  reflexivity.
Qed.

(** C10. A polyline operation consumes its opcode word and the words
    before the first terminator found at a scanned position, and not the
    terminator: decoding goes on at the terminator word, which is the
    first word of the next operation (a line operation, a terminator
    carrying opcode 0x50..0x5F). *)
Theorem polyline_stops_before_terminator :
  forall (words : list Z) (i val w : Z) (k : nat) (lines : list op),
    index words i = Ok val ->
    0x40 <= opcode val <= 0x5F -> bit_set (opcode val) 0x08 = true ->
    let j := i + 1 + scan_step (opcode val) * Z.of_nat k in
    index words j = Ok w -> terminator w = true ->
    (forall k' w', (k' < k)%nat ->
       index words (i + 1 + scan_step (opcode val) * Z.of_nat k') = Ok w' ->
       terminator w' = false) ->
    let line := (j - i, ("  GP0 LINE (skip " ++ str (j - i) ++ " words)")%string) in
    gp0_iter words i = Ok (j, [line]) /\
    parse_gp0_from words i lines = parse_gp0_from words j (lines ++ [line]) /\
    exists j' next rest,
      gp0_iter words j = Ok (j', [next]) /\ j < j' /\
      0x50 <= opcode w <= 0x5F /\
      parse_gp0_from words i lines = Ok (lines ++ line :: next :: rest).
Proof.
  intros words i val w k lines Hval Hc Hb j Hw Ht Hbefore line.
  pose proof (gp0_iter_polyline words i val w k Hval Hc Hb Hw Ht Hbefore) as E.
  fold j in E. fold line in E.
  apply index_inv in Hval as Hi. destruct Hi as [Hi _].
  apply index_inv in Hw as Hj. destruct Hj as [Hj _].
  pose proof (parse_gp0_from_step words i j [line] lines Hi E) as Hstep.
  split; [exact E|]. split; [exact Hstep|].
  pose proof (terminator_opcode w Ht) as Hop.
  destruct (gp0_iter_spec words j Hj) as (j' & new & E' & Hp & _ & _).
  assert (Hnew : exists next, new = [next]).
  { revert E'. unfold gp0_iter. rewrite Hw. cbn [bind]. fold (opcode w).
    rewrite not_in_GP0_ENV by lia.
    set (cmd := opcode w) in *. cmd_tests cmd.
    destruct (line_nparams words j cmd) as [np|]; [|discriminate]. cbn [bind].
    destruct (j + 1 + np <=? len words); intros E'; ok_pair E' E1 E2;
      subst new; eauto. }
  destruct Hnew as [next ->].
  destruct (parse_gp0_from_total words (List.length words) j' ((lines ++ [line]) ++ [next]))
    as (rest & E1 & _ & _); [lia | unfold len in *; lia |].
  exists j', next, rest. repeat split; try lia; try assumption.
  rewrite Hstep, (parse_gp0_from_step words j j' [next]) by assumption.
  rewrite E1, <- !app_assoc. reflexivity.
Qed.

Lemma polyline_stops_before_terminator_witness :
  parse_gp0_from sample_stream 5 []
  = parse_gp0_from sample_stream 8 ([] ++ [(3, "  GP0 LINE (skip 3 words)")]).
Proof.
  exact (proj1 (proj2 (polyline_stops_before_terminator sample_stream 5 0x48000000
                         0x50005000 2 []
                         eq_refl ltac:(vm_compute; split; discriminate) eq_refl
                         eq_refl eq_refl
                         ltac:(intros [|[|k']] w' Hk H;
                               [vm_compute in H; apply Ok_inj in H; subst w'; reflexivity
                               |vm_compute in H; apply Ok_inj in H; subst w'; reflexivity
                               |lia])))).
Defined.

(** ** Truncated operations *)







(** ** The packet loop and the packets of a capture *)

Lemma pbind_lift_ok {A B : Type} (a : A) (k : A -> proc B) (w : world) :
  pbind (lift (Ok a)) k w = k a w.
Proof. reflexivity. Qed.

Lemma pbind_pret {A B : Type} (a : A) (k : A -> proc B) (w : world) :
  pbind (pret a) k w = k a w.
Proof. reflexivity. Qed.

Lemma pbind_assoc {A B C : Type} (m : proc A) (k : A -> proc B) (h : B -> proc C)
    (w : world) :
  pbind (pbind m k) h w = pbind m (fun a => pbind (k a) h) w.
Proof. unfold pbind. destruct (m w) as [[a|e] w']; reflexivity. Qed.

(** With fuel for every byte left, the packet loop is its body run over
    the packets the reader yields. *)
Lemma packet_loop_over_packets {S : Type} (body : S -> Z -> packet -> proc (ctl S))
    (data : list byte) :
  forall (fuel : nat) (pos : Z) (st : S) (w : world),
    len data - pos <= Z.of_nat fuel ->
    packet_loop fuel data body pos st w
    = over_packets body (read_packets fuel data pos) st w.
Proof.
  induction fuel as [|fuel IH]; intros pos st w Hf;
    cbn [packet_loop read_packets].
  - destruct (Z.ltb_spec pos (len data)); [lia | reflexivity].
  - destruct (Z.ltb_spec pos (len data)); [|reflexivity].
    destruct (get_next_packet_total data pos) as (r & pos' & E).
    rewrite E, pbind_lift_ok. destruct r as [pkt|]; [|reflexivity].
    cbn [over_packets]. unfold pbind.
    destruct (body st pos' pkt w) as [[[st'|st']|e] w']; try reflexivity.
    apply IH. apply get_next_packet_progress in E. lia.
Qed.

Lemma read_packets_chained (data : list byte) :
  forall (fuel : nat) (pos : Z), chained pos (read_packets fuel data pos).
Proof.
  induction fuel as [|fuel IH]; intros pos; cbn [read_packets].
  - destruct (pos <? len data); constructor.
  - destruct (pos <? len data); [|constructor].
    destruct (get_next_packet data pos) as [[[pkt|] pos']|] eqn:E; try constructor.
    + apply get_next_packet_progress in E. lia.
    + apply IH.
Qed.

Lemma chained_app (l1 l2 : list (Z * packet * Z)) :
  forall a, chained a (l1 ++ l2) ->
    chained a l1 /\ chained (chain_end a l1) l2 /\ a <= chain_end a l1.
Proof.
  induction l1 as [|[[s p] e] l1 IH]; intros a H; cbn [app chain_end] in *.
  - repeat split; [constructor | exact H | lia].
  - inversion H as [|a' b' p' l' Hab Hl]; subst.
    destruct (IH _ Hl) as (H1 & H2 & H3).
    repeat split; [constructor; assumption | exact H2 | lia].
Qed.

Lemma chained_bounds (l : list (Z * packet * Z)) :
  forall a, chained a l ->
    Forall (fun x => a <= fst (fst x) /\ fst (fst x) + 4 <= snd x
                     /\ snd x <= chain_end a l) l.
Proof.
  induction l as [|[[s p] e] l IH]; intros a H; [constructor|].
  inversion H as [|a' b' p' l' Hab Hl]; subst. cbn [chain_end].
  destruct (chained_app l [] e) as (_ & _ & Hle); [now rewrite app_nil_r|].
  constructor; [cbn [fst snd]; lia|].
  specialize (IH _ Hl). eapply Forall_impl; [|exact IH].
  cbn beta. intros x (Hx1 & Hx2 & Hx3). lia.
Qed.


Lemma filter_none {A : Type} (f : A -> bool) (l : list A) :
  Forall (fun x => f x = false) l -> filter f l = [].
Proof.
  induction 1 as [|x l Hx _ IH]; cbn [filter]; [reflexivity|]. now rewrite Hx.
Qed.

Lemma filter_all {A : Type} (f : A -> bool) (l : list A) :
  Forall (fun x => f x = true) l -> filter f l = l.
Proof.
  induction 1 as [|x l Hx _ IH]; cbn [filter]; [reflexivity|]. now rewrite Hx, IH.
Qed.

(** Between the offsets at which a stretch of a chain begins and ends lie
    the packets of that stretch, and no others. *)
Lemma between_chain (l1 mid l3 : list (Z * packet * Z)) (a : Z) :
  chained a (l1 ++ mid ++ l3) ->
  between (chain_end a l1) (chain_end (chain_end a l1) mid) (l1 ++ mid ++ l3) = mid.
Proof.
  intros H. apply chained_app in H. destruct H as (H1 & H23 & _).
  apply chained_app in H23. destruct H23 as (H2 & H3 & Hle).
  set (o2 := chain_end a l1) in *. set (o3 := chain_end o2 mid) in *.
  apply chained_bounds in H1, H2, H3. fold o2 in H1. fold o3 in H2.
  unfold between. rewrite !filter_app.
  rewrite (filter_none _ l1), (filter_all _ mid), (filter_none _ l3).
  - now rewrite app_nil_r.
  - eapply Forall_impl; [|exact H3]. cbn beta. intros x (Hx1 & Hx2 & Hx3).
    apply andb_false_iff. right. apply Z.leb_gt. lia.
  - eapply Forall_impl; [|exact H2]. cbn beta. intros x (Hx1 & Hx2 & Hx3).
    apply andb_true_iff. split; apply Z.leb_le; lia.
  - eapply Forall_impl; [|exact H1]. cbn beta. intros x (Hx1 & Hx2 & Hx3).
    apply andb_false_iff. left. apply Z.leb_gt. lia.
Qed.

Lemma chain_end_last (l : list (Z * packet * Z)) (x : Z * packet * Z) :
  forall a, chain_end a (l ++ [x]) = snd x.
Proof.
  induction l as [|[[s p] e] l IH]; intros a; cbn [app chain_end].
  - destruct x as [[s p] e]. reflexivity.
  - apply IH.
Qed.

Lemma filter_cons_split {A : Type} (f : A -> bool) (l : list A) :
  forall x xs, filter f l = x :: xs ->
    exists l1 l2,
      l = l1 ++ x :: l2 /\ Forall (fun y => f y = false) l1 /\
      f x = true /\ filter f l2 = xs.
Proof.
  induction l as [|y l IH]; intros x xs H; cbn [filter] in H; [discriminate|].
  destruct (f y) eqn:Ey.
  - injection H as -> <-. exists [], l. repeat split; [constructor | exact Ey].
  - destruct (IH _ _ H) as (l1 & l2 & -> & H1 & H2 & H3).
    exists (y :: l1), l2. repeat split; try assumption. constructor; assumption.
Qed.

Lemma filter_nil_none {A : Type} (f : A -> bool) (l : list A) :
  filter f l = [] -> Forall (fun y => f y = false) l.
Proof.
  induction l as [|y l IH]; cbn [filter]; intros H; [constructor|].
  destruct (f y) eqn:Ey; [discriminate|]. constructor; auto.
Qed.

(** ** VRAM extractor *)

Lemma vram_scan_body_skip (pkt : packet) (pos : Z) (w : world) :
  full_frame_blit pkt = false ->
  vram_scan_body None pos pkt w = (Ok (Continue None), w).
Proof.
  destruct pkt as [ptype payload]. unfold full_frame_blit, vram_scan_body.
  cbn [fst snd]. unfold PT_GPUPort0Data.
  destruct (ptype =? 0); [|reflexivity]. cbn [andb].
  destruct (4 <=? len payload); [|reflexivity].
  destruct (Z.leb_spec 262147 (len (unpack_words payload))) as [Hl|Hl]; [|reflexivity].
  destruct (unpack_words payload) as [|w0 [|w1 [|w2 rest]]] eqn:Ew;
    try (exfalso; unfold len in Hl; cbn [List.length] in Hl; lia).
  change (3 + 262144) with 262147.
  destruct (Z.leb_spec 262147 (len (w0 :: w1 :: w2 :: rest))); [|lia].
  rewrite andb_true_r. intros Hb.
  unfold blit_signature, index. cbn [Z.ltb Z.compare Z.to_nat nth_error bind].
  change (Pos.to_nat 1) with 1%nat. change (Pos.to_nat 2) with 2%nat.
  cbn [nth_error bind].
  destruct (Z.shiftr w0 24 =? 160); [|reflexivity].
  destruct (w1 =? 0); [|reflexivity].
  destruct (w2 =? 0); [discriminate | reflexivity].
Qed.

Lemma vram_scan_none (l : list (Z * packet * Z)) (w : world) :
  Forall (fun x => full_frame_blit (packet_of x) = false) l ->
  over_packets vram_scan_body l None w = (Ok None, w).
Proof.
  induction 1 as [|[[s pkt] e] l Hx _ IH]; cbn [over_packets]; [reflexivity|].
  unfold pbind. rewrite vram_scan_body_skip by exact Hx. exact IH.
Qed.

(** C9. When no packet of the capture is a GP0 packet beginning with
    opcode 0xA0 and two zero origin words and holding at least 3 + 262144
    words, the VRAM mode prints "VRAM not found in dump", exits with
    status 1, and writes no file. *)
Theorem vram_not_found :
  forall (ppm_name txt_name : string) (data : list byte),
    parse_header data = Ok 14 ->
    Forall (fun x => full_frame_blit (packet_of x) = false) (packets data) ->
    let run := main_vram ppm_name txt_name data world0 in
    run = (Raise (SystemExit 1), mk_world ["VRAM not found in dump"] []) /\
    exit_status (fst run) <> 0 /\
    files (snd run) = [].
Proof.
  intros ppm_name txt_name data Hh Hn run.
  assert (E : run = (Raise (SystemExit 1), mk_world ["VRAM not found in dump"] [])).
  { subst run. unfold main_vram. rewrite Hh, !pbind_lift_ok.
    unfold pbind at 1.
    rewrite packet_loop_over_packets by (unfold len; lia).
    fold (packets data). rewrite vram_scan_none by exact Hn. reflexivity. }
  rewrite E. repeat split. cbn. lia.
Qed.

Lemma vram_not_found_witness :
  main_vram "dump_vram.ppm" "dump_vram_layout.txt" small_capture world0
  = (Raise (SystemExit 1), mk_world ["VRAM not found in dump"] []).
Proof.
  apply (vram_not_found "dump_vram.ppm" "dump_vram_layout.txt" small_capture).
  - reflexivity.
  - vm_compute. repeat constructor.
Defined.

(** ** Frame segmenter *)

Lemma not_marker (x : Z * packet * Z) :
  is_marker x = false ->
  (ptype_of x =? PT_TraceBegin) = false /\ (ptype_of x =? PT_VSyncEvent) = false.
Proof. unfold is_marker, ptype_of. apply orb_false_iff. Qed.

(** The first pass walks over packets that are no markers. *)
Lemma first_pass_plain (l rest : list (Z * packet * Z)) (st : bool * list Z) (w : world) :
  Forall (fun x => is_marker x = false) l ->
  over_packets first_pass_body (l ++ rest) st w
  = over_packets first_pass_body rest st w.
Proof.
  induction 1 as [|[[s [pt pl]] e] l Hx _ IH]; cbn [app over_packets]; [reflexivity|].
  apply not_marker in Hx. unfold ptype_of in Hx. cbn [fst snd] in Hx.
  destruct Hx as [H5 H2]. destruct st as [in_trace offs].
  unfold first_pass_body. rewrite H5, H2. cbn [andb]. rewrite pbind_pret. exact IH.
Qed.

Lemma first_pass_trace_begin (s e : Z) (pl : list byte) (rest : list (Z * packet * Z))
    (in_trace : bool) (offs : list Z) (w : world) :
  over_packets first_pass_body ((s, (PT_TraceBegin, pl), e) :: rest) (in_trace, offs) w
  = over_packets first_pass_body rest (true, offs ++ [e]) w.
Proof. reflexivity. Qed.

Lemma first_pass_vsync (s e : Z) (pl : list byte) (rest : list (Z * packet * Z))
    (offs : list Z) (w : world) :
  over_packets first_pass_body ((s, (PT_VSyncEvent, pl), e) :: rest) (true, offs) w
  = over_packets first_pass_body rest (true, offs ++ [e]) w.
Proof. reflexivity. Qed.

(** The second pass walks silently over packets that are no markers
    while it is not dumping the selected frame. *)
Lemma second_pass_skip (frame_idx : option Z) (target : Z)
    (l rest : list (Z * packet * Z)) (st : pass2) (w : world) :
  Forall (fun x => is_marker x = false) l ->
  dumping st = false \/ current_frame st <> target ->
  over_packets (second_pass_body frame_idx target) (l ++ rest) st w
  = over_packets (second_pass_body frame_idx target) rest st w.
Proof.
  intros Hl Hst.
  induction Hl as [|[[s [pt pl]] e] l Hx _ IH]; cbn [app over_packets]; [reflexivity|].
  apply not_marker in Hx. unfold ptype_of in Hx. cbn [fst snd] in Hx.
  destruct Hx as [H5 H2].
  unfold second_pass_body at 1. rewrite H5, H2.
  replace (negb (dumping st) || negb (current_frame st =? target)) with true.
  - rewrite pbind_pret. exact IH.
  - symmetry. apply orb_true_iff. destruct Hst as [-> | Hne]; [left; reflexivity|].
    right. apply negb_true_iff, Z.eqb_neq. exact Hne.
Qed.

(** While it dumps the selected frame, the second pass prints every
    packet that is no marker and counts it. *)
Lemma second_pass_dump (frame_idx : option Z) (target : Z)
    (l rest : list (Z * packet * Z)) :
  Forall (fun x => is_marker x = false) l ->
  forall (n : Z) (w : world),
    over_packets (second_pass_body frame_idx target) (l ++ rest)
      (mk_pass2 target true n) w
    = pbind (emit_packets (map packet_of l))
        (fun _ => over_packets (second_pass_body frame_idx target) rest
                    (mk_pass2 target true (n + len l))) w.
Proof.
  induction 1 as [|[[s [pt pl]] e] l Hx _ IH]; intros n w;
    cbn [app over_packets map emit_packets].
  - rewrite pbind_pret, len_nil, Z.add_0_r. reflexivity.
  - apply not_marker in Hx. unfold ptype_of in Hx. cbn [fst snd] in Hx.
    destruct Hx as [H5 H2].
    unfold second_pass_body at 1. rewrite H5, H2.
    cbn [dumping current_frame pkt_count negb orb]. rewrite Z.eqb_refl. cbn [negb].
    unfold packet_of at 1. cbn [fst snd].
    rewrite !pbind_assoc. unfold pbind at 1 3.
    destruct (emit_packet (pt, pl) w) as [[u|ex] w']; [|reflexivity].
    rewrite pbind_pret, IH, len_cons.
    replace (n + 1 + len l) with (n + (1 + len l)) by lia. reflexivity.
Qed.

(** C5. In a capture whose markers are one TraceBegin followed by three
    VSync packets, the first pass records four offsets, and frame 2 is
    what lies between the offsets at indices 2 and 3 of that index: the
    packets after the second VSync up to and including the third.  The
    second pass prints those packets and the closing VSync, and nothing
    of any other packet. *)
Theorem frame_index_and_frame_2 :
  forall data : list byte,
    parse_header data = Ok 14 ->
    map ptype_of (filter is_marker (packets data))
    = [PT_TraceBegin; PT_VSyncEvent; PT_VSyncEvent; PT_VSyncEvent] ->
    exists (o0 o1 o2 o3 : Z) (frame : list (Z * packet * Z)) (vsync : Z * packet * Z),
      first_pass data 14 world0 = (Ok [o0; o1; o2; o3], world0) /\
      len [o0; o1; o2; o3] = 4 /\
      between o2 o3 (packets data) = frame ++ [vsync] /\
      Forall (fun x => is_marker x = false) frame /\
      ptype_of vsync = PT_VSyncEvent /\
      main_frame data (Some 2) world0
      = (emit_packets (map packet_of frame) ;;; print "  VSync" ;;;
         print (total_line 4 (len frame))) world0.
Proof.
  intros data Hh Hm.
  pose proof (read_packets_chained data (List.length data) 14) as Hch.
  fold (packets data) in Hch.
  assert (Hloop : forall (S : Type) (body : S -> Z -> packet -> proc (ctl S)) st w,
             packet_loop (List.length data) data body 14 st w
             = over_packets body (packets data) st w).
  { intros. apply packet_loop_over_packets. unfold len. lia. }
  destruct (filter is_marker (packets data)) as [|tb [|v1 [|v2 [|v3 [|? ?]]]]] eqn:Ef;
    try discriminate.
  cbn [map] in Hm.
  apply filter_cons_split in Ef. destruct Ef as (pre & r0 & EL & Hpre & _ & Ef).
  apply filter_cons_split in Ef. destruct Ef as (f0 & r1 & -> & Hf0 & _ & Ef).
  apply filter_cons_split in Ef. destruct Ef as (f1 & r2 & -> & Hf1 & _ & Ef).
  apply filter_cons_split in Ef. destruct Ef as (f2 & post & -> & Hf2 & _ & Ef).
  apply filter_nil_none in Ef.
  destruct tb as [[s0 [t0 p0]] o0], v1 as [[s1 [t1 p1]] o1],
           v2 as [[s2 [t2 p2]] o2], v3 as [[s3 [t3 p3]] o3].
  unfold ptype_of in Hm. cbn [fst snd] in Hm.
  injection Hm as -> -> -> ->.
  exists o0, o1, o2, o3, f2, (s3, (PT_VSyncEvent, p3), o3).
  split; [|split; [reflexivity|split; [|split; [exact Hf2|split; [reflexivity|]]]]].
  - (* the frame index *)
    unfold first_pass, pbind. rewrite Hloop, EL.
    rewrite first_pass_plain, first_pass_trace_begin by assumption.
    rewrite first_pass_plain, first_pass_vsync by assumption.
    rewrite first_pass_plain, first_pass_vsync by assumption.
    rewrite first_pass_plain, first_pass_vsync by assumption.
    rewrite <- (app_nil_r post), first_pass_plain by assumption.
    reflexivity.
  - (* what lies between offsets 2 and 3 *)
    assert (EL2 : packets data
                  = ((pre ++ (s0, (PT_TraceBegin, p0), o0) :: f0
                        ++ (s1, (PT_VSyncEvent, p1), o1) :: f1)
                     ++ [(s2, (PT_VSyncEvent, p2), o2)])
                    ++ (f2 ++ [(s3, (PT_VSyncEvent, p3), o3)]) ++ post).
    { rewrite EL. repeat (rewrite <- ?app_assoc; cbn [app]). reflexivity. }
    rewrite EL2 in Hch |- *.
    pose proof (between_chain _ _ _ _ Hch) as Hb.
    rewrite !chain_end_last in Hb. exact Hb.
  - (* the second pass *)
    assert (Hfirst : first_pass data 14 world0 = (Ok [o0; o1; o2; o3], world0)).
    { unfold first_pass, pbind. rewrite Hloop, EL.
      rewrite first_pass_plain, first_pass_trace_begin by assumption.
      rewrite first_pass_plain, first_pass_vsync by assumption.
      rewrite first_pass_plain, first_pass_vsync by assumption.
      rewrite first_pass_plain, first_pass_vsync by assumption.
      rewrite <- (app_nil_r post), first_pass_plain by assumption.
      reflexivity. }
    unfold main_frame. rewrite Hh, pbind_lift_ok.
    unfold pbind at 1. rewrite Hfirst. rewrite pbind_lift_ok.
    unfold pbind at 1. rewrite Hloop, EL.
    rewrite second_pass_skip by (assumption || (left; reflexivity)).
    cbn [over_packets]. unfold second_pass_body at 1.
    cbn -[over_packets second_pass_body emit_packets len].
    rewrite second_pass_skip by (assumption || (left; reflexivity)).
    cbn [over_packets]. unfold second_pass_body at 1.
    cbn -[over_packets second_pass_body emit_packets len].
    rewrite second_pass_skip by (assumption || (left; reflexivity)).
    cbn [over_packets]. unfold second_pass_body at 1.
    cbn -[over_packets second_pass_body emit_packets len].
    rewrite second_pass_dump by assumption.
    unfold pbind at 1 2.
    destruct (emit_packets (map packet_of f2) world0) as [[u|ex] w']; [|reflexivity].
    cbn [over_packets]. unfold second_pass_body at 1.
    cbn -[over_packets second_pass_body emit_packets len total_line].
    reflexivity.
Qed.

Lemma frame_index_and_frame_2_witness :
  exists (o0 o1 o2 o3 : Z) (frame : list (Z * packet * Z)) (vsync : Z * packet * Z),
    first_pass frames_capture 14 world0 = (Ok [o0; o1; o2; o3], world0) /\
    len [o0; o1; o2; o3] = 4 /\
    between o2 o3 (packets frames_capture) = frame ++ [vsync] /\
    Forall (fun x => is_marker x = false) frame /\
    ptype_of vsync = PT_VSyncEvent /\
    main_frame frames_capture (Some 2) world0
    = (emit_packets (map packet_of frame) ;;; print "  VSync" ;;;
       print (total_line 4 (len frame))) world0.
Proof.
  apply (frame_index_and_frame_2 frames_capture); vm_compute; reflexivity.
Defined.

(** ** A flat triangle, end to end *)

Lemma opcode_range (val : Z) : 0 <= opcode val < 256.
Proof.
  unfold opcode. change 0xFF with (Z.ones 8). rewrite Z.land_ones by lia.
  apply Z.mod_pos_bound. lia.
Qed.

(** The opcodes of flat untextured triangles are 0x20..0x23. *)
Lemma flat_triangle_opcode (cmd : Z) :
  0 <= cmd < 256 -> Z.land cmd 0xFC = 0x20 ->
  0x20 <= cmd <= 0x23 /\
  bit_set cmd 0x08 = false /\ bit_set cmd 0x10 = false /\ bit_set cmd 0x04 = false.
Proof.
  intros Hr H.
  assert (E : (if Z.land cmd 0xFC =? 0x20
               then (0x20 <=? cmd) && (cmd <=? 0x23) && negb (bit_set cmd 0x08)
                    && negb (bit_set cmd 0x10) && negb (bit_set cmd 0x04)
               else true) = true).
  { revert cmd Hr H. intros cmd Hr _. revert cmd Hr.
    apply (range_forallb
             (fun cmd => if Z.land cmd 0xFC =? 0x20
                         then (0x20 <=? cmd) && (cmd <=? 0x23) && negb (bit_set cmd 0x08)
                              && negb (bit_set cmd 0x10) && negb (bit_set cmd 0x04)
                         else true)).
    vm_compute. reflexivity. }
  rewrite H, Z.eqb_refl in E.
  repeat (apply andb_true_iff in E; destruct E as [E ?]).
  repeat match goal with
         | H : negb _ = true |- _ => apply negb_true_iff in H
         end.
  repeat split; try assumption; [apply Z.leb_le | apply Z.leb_le]; assumption.
Qed.

(** A stream holding one flat triangle decodes to one TRI_FLAT operation
    of four words, its three vertices taken from the three vertex words
    and coloured from the command word. *)
Lemma flat_triangle_decode (c v0 v1 v2 : Z) :
  Z.land (opcode c) 0xFC = 0x20 ->
  parse_gp0_stream [c; v0; v1; v2]
  = Ok [(4, ("  GP0 TRI_FLAT " ++ flat_vertex_text 0 c v0 ++ " "
               ++ flat_vertex_text 1 c v1 ++ " " ++ flat_vertex_text 2 c v2)%string)].
Proof.
  intros Hc.
  destruct (flat_triangle_opcode (opcode c) (opcode_range c) Hc) as (Hr & Hq & Hg & Ht).
  unfold parse_gp0_stream.
  rewrite (parse_gp0_from_step [c; v0; v1; v2] 0 4
             [(4, ("  GP0 TRI_FLAT " ++ flat_vertex_text 0 c v0 ++ " "
                     ++ flat_vertex_text 1 c v1 ++ " " ++ flat_vertex_text 2 c v2)%string)]).
  - apply parse_gp0_from_end. reflexivity.
  - split; [lia | reflexivity].
  - unfold gp0_iter. change (index [c; v0; v1; v2] 0) with (Ok c). cbn [bind].
    fold (opcode c). rewrite not_in_GP0_ENV by lia.
    set (cmd := opcode c) in *. cmd_tests cmd.
    rewrite gp0_param_count_polygon by lia. rewrite Hq, Hg, Ht.
    change (polygon_operands false false false) with 3.
    change (len [c; v0; v1; v2] <? 0 + 1 + 3) with false. cbv iota.
    change (slice [c; v0; v1; v2] 0 (0 + 1 + 3)) with [c; v0; v1; v2].
    unfold decode_polygon. rewrite Hq, Hg, Ht. reflexivity.
Qed.

Lemma emit_flat_triangle (payload : list byte) (c v0 v1 v2 : Z) (w : world) :
  unpack_words payload = [c; v0; v1; v2] ->
  Z.land (opcode c) 0xFC = 0x20 ->
  emit_packet (PT_GPUPort0Data, payload) w
  = print ("  GP0 TRI_FLAT " ++ flat_vertex_text 0 c v0 ++ " "
             ++ flat_vertex_text 1 c v1 ++ " " ++ flat_vertex_text 2 c v2)%string w.
Proof.
  intros Hw Hc. unfold emit_packet. rewrite Z.eqb_refl, Hw.
  change (3 <=? len [c; v0; v1; v2]) with true. cbv iota.
  assert (Hs : (Z.shiftr c 24 =? 0xA0) = false).
  { apply Z.eqb_neq. intros E.
    destruct (flat_triangle_opcode (opcode c) (opcode_range c) Hc) as (Hr & _).
    unfold opcode in Hr. rewrite E in Hr. vm_compute in Hr. destruct Hr as [_ Hr].
    apply Hr. reflexivity. }
  unfold blit_signature. change (index [c; v0; v1; v2] 0) with (Ok c). cbn [bind].
  rewrite Hs, pbind_lift_ok, flat_triangle_decode by exact Hc.
  rewrite pbind_lift_ok. reflexivity.
Qed.

(** C3, with the frame count the decoder reports.  A capture made of the
    header, a TraceBegin packet, a GP0 packet holding one flat triangle
    and a VSync packet, decoded for frame 0 (named, or by default),
    prints the frame banner, one TRI_FLAT operation whose three vertices
    carry the coordinates of the three vertex words and the colour of the
    command word, the VSync marker, and a total of 2 frames: the frame
    index counts the TraceBegin and the VSync. *)
Theorem minimal_capture_frame_0 :
  forall (data : list byte) (s0 e0 s1 e1 s2 e2 : Z)
         (tb_payload gp0_payload vs_payload : list byte)
         (c v0 v1 v2 : Z) (frame_idx : option Z),
    parse_header data = Ok 14 ->
    packets data = [(s0, (PT_TraceBegin, tb_payload), e0);
                    (s1, (PT_GPUPort0Data, gp0_payload), e1);
                    (s2, (PT_VSyncEvent, vs_payload), e2)] ->
    unpack_words gp0_payload = [c; v0; v1; v2] ->
    Z.land (opcode c) 0xFC = 0x20 ->
    frame_idx = Some 0 \/ frame_idx = None ->
    main_frame data frame_idx world0
    = (Ok tt,
       mk_world
         [(nl ++ "--- Frame 0 ---")%string;
          ("  GP0 TRI_FLAT " ++ flat_vertex_text 0 c v0 ++ " "
             ++ flat_vertex_text 1 c v1 ++ " " ++ flat_vertex_text 2 c v2)%string;
          "  VSync";
          total_line 2 1]
         []).
Proof.
  intros data s0 e0 s1 e1 s2 e2 tb_payload gp0_payload vs_payload c v0 v1 v2
         frame_idx Hh EL Hw Hc Hf.
  assert (Hloop : forall (S : Type) (body : S -> Z -> packet -> proc (ctl S)) st w,
             packet_loop (List.length data) data body 14 st w
             = over_packets body (packets data) st w).
  { intros. apply packet_loop_over_packets. unfold len. lia. }
  assert (Hfirst : first_pass data 14 world0 = (Ok [e0; e2], world0)).
  { unfold first_pass, pbind. rewrite Hloop, EL. reflexivity. }
  unfold main_frame. rewrite Hh, pbind_lift_ok.
  unfold pbind at 1. rewrite Hfirst, pbind_lift_ok.
  unfold pbind at 1. rewrite Hloop, EL.
  destruct Hf as [-> | ->].
  - cbn [over_packets]. unfold second_pass_body at 1.
    cbn -[over_packets second_pass_body emit_packet len total_line nl].
    unfold second_pass_body at 1.
    cbn -[over_packets second_pass_body emit_packet len total_line nl].
    unfold pbind at 1 2. rewrite (emit_flat_triangle _ c v0 v1 v2) by assumption.
    cbn -[total_line nl flat_vertex_text]. reflexivity.
  - cbn [over_packets]. unfold second_pass_body at 1.
    cbn -[over_packets second_pass_body emit_packet len total_line nl].
    unfold second_pass_body at 1.
    cbn -[over_packets second_pass_body emit_packet len total_line nl].
    unfold pbind at 1 2. rewrite (emit_flat_triangle _ c v0 v1 v2) by assumption.
    cbn -[total_line nl flat_vertex_text]. reflexivity.
Qed.

Lemma minimal_capture_frame_0_witness :
  main_frame minimal_capture (Some 0) world0
  = (Ok tt,
     mk_world
       [(nl ++ "--- Frame 0 ---")%string;
        "  GP0 TRI_FLAT v0=(32,16)#FFFFFF v1=(-1024,-1)#FFFFFF v2=(1,0)#FFFFFF";
        "  VSync";
        total_line 2 1]
       []).
Proof.
  exact (minimal_capture_frame_0 minimal_capture 14 18 18 38 38 42 []
           (pack_words [0x20007FFF; 0x00100020; 0x07FF0400; 0x00000001]) []
           0x20007FFF 0x00100020 0x07FF0400 0x00000001 (Some 0)
           eq_refl eq_refl eq_refl eq_refl (or_introl eq_refl)).
Defined.

(** C3 as stated fails on the reported total: on the minimal capture the
    decoder reports 2 frames, and no line of its output reports 1. *)
Lemma minimal_capture_reports_two_frames :
  parse_header minimal_capture = Ok 14 /\
  map ptype_of (packets minimal_capture)
  = [PT_TraceBegin; PT_GPUPort0Data; PT_VSyncEvent] /\
  first_pass minimal_capture 14 world0 = (Ok [18; 42], world0) /\
  last (stdout (snd (main_frame minimal_capture (Some 0) world0))) "" = total_line 2 1 /\
  ~ (exists k, In (total_line 1 k)
                  (stdout (snd (main_frame minimal_capture (Some 0) world0)))).
Proof.
  repeat split; try (vm_compute; reflexivity).
  intros [k Hin].
  set (out := stdout (snd (main_frame minimal_capture (Some 0) world0))) in Hin.
  vm_compute in out. subst out.
  cbn [In] in Hin. unfold total_line in Hin.
  destruct Hin as [H|[H|[H|[H|[]]]]]; cbn in H; discriminate H.
Qed.

(** * Further properties of the decoder *)

(** ** Field helpers on arbitrary integers *)

(** X1. On every integer [sign_extend_11] returns the value in
    -1024..1023 that agrees with it modulo 2048; masking the argument
    to 11 bits first, as the callers do, changes nothing. *)
Theorem sign_extend_11_any :
  forall x,
    -1024 <= sign_extend_11 x <= 1023 /\
    sign_extend_11 x mod 2048 = x mod 2048 /\
    sign_extend_11 (Z.land x 0x7FF) = sign_extend_11 x.
Proof.
  intros x.
  assert (Hm : Z.land x 0x7FF = x mod 2048).
  { change 0x7FF with (Z.ones 11). now rewrite Z.land_ones by lia. }
  assert (Hr : 0 <= x mod 2048 < 2048) by (apply Z.mod_pos_bound; lia).
  assert (Hs : sign_extend_11 x = sign_extend_11 (x mod 2048)).
  { unfold sign_extend_11. cbv zeta. rewrite Hm.
    replace (Z.land (x mod 2048) 0x7FF) with (x mod 2048); [reflexivity|].
    change 0x7FF with (Z.ones 11). rewrite Z.land_ones by lia.
    symmetry. apply Z.mod_small. exact Hr. }
  rewrite Hm, <- Hs. rewrite Hs, sign_extend_11_field by lia.
  destruct (Z.ltb_spec (x mod 2048) 0x400).
  - repeat split; try lia. now rewrite Z.mod_mod by lia.
  - repeat split; try lia.
    replace (x mod 2048 - 2048) with (x mod 2048 + (-1) * 2048) by lia.
    rewrite Z.mod_add by lia. now rewrite Z.mod_mod by lia.
Qed.

Lemma expand5to8_formula (x : Z) :
  0 <= x <= 31 -> expand5to8 x = 8 * x + x / 4.
Proof.
  intros Hx. assert (Hr : 0 <= x < 32) by lia. clear Hx.
  apply Z.eqb_eq. revert x Hr.
  apply (range_forallb (fun x => expand5to8 x =? 8 * x + x / 4)).
  vm_compute. reflexivity.
Qed.

(** X2. On a 5-bit channel [expand5to8] fills the 8-bit range from 0 to
    255, keeps the order of the values, and keeps the channel in its top
    five bits. *)
Theorem expand5to8_channel :
  forall x y, 0 <= x <= 31 -> 0 <= y <= 31 ->
    0 <= expand5to8 x <= 255 /\
    Z.shiftr (expand5to8 x) 3 = x /\
    (x < y -> expand5to8 x < expand5to8 y) /\
    (x = 0 -> expand5to8 x = 0) /\ (x = 31 -> expand5to8 x = 255).
Proof.
  intros x y Hx Hy. rewrite !expand5to8_formula by assumption.
  rewrite Z.shiftr_div_pow2 by lia. change (2 ^ 3) with 8.
  repeat split; try (intros; subst; reflexivity);
    Z.div_mod_to_equations; lia.
Qed.

Lemma expand5to8_channel_witness :
  0 <= expand5to8 16 <= 255 /\
  Z.shiftr (expand5to8 16) 3 = 16 /\
  (16 < 17 -> expand5to8 16 < expand5to8 17) /\
  (16 = 0 -> expand5to8 16 = 0) /\ (16 = 31 -> expand5to8 16 = 255).
Proof.
  apply (expand5to8_channel 16 17); lia.
Defined.

(** ** Container header *)

Lemma bytes_eqb_eq (a b : list byte) : bytes_eqb a b = true <-> a = b.
Proof.
  revert b. induction a as [|x a IH]; intros [|y b]; cbn [bytes_eqb];
    try (split; (discriminate || reflexivity)).
  rewrite andb_true_iff, IH. split.
  - intros [Hx ->]. apply Byte.byte_dec_bl in Hx. now subst.
  - intros [= -> ->]. split; [now apply Byte.byte_dec_lb | reflexivity].
Qed.

(** X3. [parse_header] returns 14, and nothing else, exactly on a buffer
    of at least 14 bytes that begins with the ten bytes of the magic tag;
    on every other buffer it raises ValueError.  Bytes 10 to 13 are not
    looked at. *)
Theorem parse_header_spec :
  forall data : list byte,
    (parse_header data = Ok 14 <-> 14 <= len data /\ firstn 10 data = magic) /\
    (parse_header data = Raise ValueError <-> ~ (14 <= len data /\ firstn 10 data = magic)) /\
    (forall version rest : list byte,
       len version = 4 -> parse_header (magic ++ version ++ rest) = Ok 14).
Proof.
  intros data.
  assert (Hs : slice data 0 10 = firstn 10 data) by reflexivity.
  assert (H1 : parse_header data = Ok 14 <-> 14 <= len data /\ firstn 10 data = magic).
  { unfold parse_header. rewrite Hs.
    destruct (Z.ltb_spec (len data) 14); cbn [orb].
    - split; [discriminate | lia].
    - destruct (bytes_eqb (firstn 10 data) magic) eqn:E; cbn [negb].
      + apply bytes_eqb_eq in E. split; [now split | reflexivity].
      + split; [discriminate|]. intros [_ E']. apply bytes_eqb_eq in E'. congruence. }
  split; [exact H1|]. split.
  - rewrite <- H1. unfold parse_header.
    destruct ((len data <? 14) || negb (bytes_eqb (slice data 0 10) magic));
      split; congruence.
  - intros version rest Hv. unfold parse_header.
    rewrite !len_app, Hv. pose proof (len_nonneg rest).
    destruct (Z.ltb_spec (len magic + (4 + len rest)) 14);
      [change (len magic) with 10 in *; lia|].
    cbn [orb]. change (slice (magic ++ version ++ rest) 0 10) with
      (firstn 10 (magic ++ version ++ rest)).
    replace (firstn 10 (magic ++ version ++ rest)) with magic.
    + now rewrite (proj2 (bytes_eqb_eq magic magic) eq_refl).
    + change 10%nat with (List.length magic) at 1.
      rewrite firstn_app, firstn_all, Nat.sub_diag. cbn [firstn].
      now rewrite app_nil_r.
Qed.

Lemma parse_header_spec_witness :
  parse_header (magic ++ list_byte_of_string "v2!!" ++ [Byte.xff]) = Ok 14.
Proof.
  apply (proj2 (proj2 (parse_header_spec [])) (list_byte_of_string "v2!!") [Byte.xff]).
  reflexivity.
Defined.

(** ** Packet reader: what a returned packet looks like *)

(** X4. From a cursor in the buffer the reader returns either a packet
    whose type is a byte, whose payload is the slice of the buffer after
    the four header bytes, a whole number of words (fewer than 2^24), and
    a new cursor just behind the payload, inside the buffer; or the
    sentinel, with the cursor unmoved when the header is cut short and
    moved behind the header when the payload is. *)
Theorem get_next_packet_shape :
  forall (data : list byte) (pos : Z), 0 <= pos ->
    match get_next_packet data pos with
    | Ok (Some (ptype, payload), pos') =>
      0 <= ptype <= 255 /\
      payload = slice data (pos + 4) pos' /\
      len payload mod 4 = 0 /\ len payload / 4 < 2 ^ 24 /\
      pos' = pos + 4 + len payload /\ pos' <= len data
    | Ok (None, pos') =>
      (len data < pos + 4 /\ pos' = pos) \/ (pos + 4 <= len data /\ pos' = pos + 4)
    | Raise _ => False
    end.
Proof.
  intros data pos Hpos.
  destruct (get_next_packet data pos) as [[[[ptype payload]|] pos']|e] eqn:E.
  - destruct (get_next_packet_some _ _ _ _ Hpos E) as (hdr & Hh & Ht & Hs & Hl & Hp & Hle).
    cbn [fst snd] in *.
    assert (Hw : 0 <= Z.land hdr 0xFFFFFF < 2 ^ 24).
    { change 0xFFFFFF with (Z.ones 24). rewrite Z.land_ones by lia.
      apply Z.mod_pos_bound. lia. }
    assert (Hb : 0 <= ptype <= 255).
    { rewrite Ht.
      change (Z.land (Z.shiftr hdr 24) 0xFF) with (Z.land (Z.shiftr hdr 24) (Z.ones 8)).
      rewrite Z.land_ones by lia. change (2 ^ 8) with 256.
      pose proof (Z.mod_pos_bound (Z.shiftr hdr 24) 256 ltac:(lia)). lia. }
    repeat split; try lia.
    + rewrite Hs. f_equal. lia.
    + rewrite Hl, Z.mul_comm. apply Z.mod_mul. lia.
    + rewrite Hl, Z.mul_comm, Z.div_mul by lia. lia.
  - unfold get_next_packet in E.
    destruct (Z.ltb_spec (len data) (pos + 4)).
    + ok_pair E E1 E2. left. lia.
    + destruct (unpack_u32 data pos) as [hdr|]; [|discriminate]. cbn [bind] in E.
      destruct (len data <? pos + 4 + Z.land hdr 0xFFFFFF * 4).
      * ok_pair E E1 E2. right. lia.
      * ok_pair E E1 E2. discriminate.
  - destruct (get_next_packet_total data pos) as (r & p & E'). congruence.
Qed.

Lemma get_next_packet_shape_witness :
  match get_next_packet minimal_capture 18 with
  | Ok (Some (ptype, payload), pos') =>
    0 <= ptype <= 255 /\
    payload = slice minimal_capture (18 + 4) pos' /\
    len payload mod 4 = 0 /\ len payload / 4 < 2 ^ 24 /\
    pos' = 18 + 4 + len payload /\ pos' <= len minimal_capture
  | Ok (None, pos') =>
    (len minimal_capture < 18 + 4 /\ pos' = 18)
    \/ (18 + 4 <= len minimal_capture /\ pos' = 18 + 4)
  | Raise _ => False
  end.
Proof.
  apply (get_next_packet_shape minimal_capture 18). lia.
Defined.

(** ** Payload words *)

Lemma unpack_words_length_range :
  forall (n : nat) (payload : list byte),
    (List.length payload <= n)%nat ->
    len (unpack_words payload) = len payload / 4 /\
    Forall (fun w => 0 <= w < 2 ^ 32) (unpack_words payload).
Proof.
  induction n as [|n IH]; intros payload Hn.
  - destruct payload; [|cbn in Hn; lia]. split; [reflexivity | constructor].
  - destruct payload as [|b0 [|b1 [|b2 [|b3 rest]]]];
      try (split; [reflexivity | constructor]).
    cbn [unpack_words]. destruct (IH rest) as [Hl Hf]; [cbn in Hn; lia|].
    split.
    + rewrite len_cons, Hl. unfold len. cbn [List.length].
      replace (Z.of_nat (S (S (S (S (List.length rest))))))
        with (Z.of_nat (List.length rest) + 1 * 4) by lia.
      rewrite Z.div_add by lia. lia.
    + constructor; [|exact Hf].
      exact (le_combine_bound [b0; b1; b2; b3]).
Qed.

(** X5. The words unpacked from a payload are as many as its bytes
    divided by four, rounding down, and each is an unsigned 32-bit
    value. *)
Theorem unpack_words_shape :
  forall payload : list byte,
    len (unpack_words payload) = len payload / 4 /\
    Forall (fun w => 0 <= w < 2 ^ 32) (unpack_words payload).
Proof.
  intros payload. apply (unpack_words_length_range (List.length payload)). lia.
Qed.

Lemma pack_words_cons (w : Z) (ws : list Z) :
  pack_words (w :: ws) = le_split 4 w ++ pack_words ws.
Proof. reflexivity. Qed.

Lemma unpack_words_word (hd rest : list byte) :
  List.length hd = 4%nat ->
  unpack_words (hd ++ rest) = le_combine hd :: unpack_words rest.
Proof.
  intros H. destruct hd as [|b0 [|b1 [|b2 [|b3 [|b4 hd]]]]]; try discriminate.
  reflexivity.
Qed.

Lemma unpack_pack_word (w : Z) (rest : list byte) :
  0 <= w < 2 ^ 32 ->
  unpack_words (le_split 4 w ++ rest) = w :: unpack_words rest.
Proof.
  intros Hw. rewrite unpack_words_word by apply length_le_split.
  rewrite le_combine_split. f_equal. apply Z.mod_small. exact Hw.
Qed.

Lemma len_pack_words (ws : list Z) : len (pack_words ws) = 4 * len ws.
Proof.
  induction ws as [|w ws IH]; [reflexivity|].
  unfold pack_words. cbn [flat_map]. fold (pack_words ws).
  rewrite len_app, len_cons, IH. unfold pack_u32, len. rewrite length_le_split. lia.
Qed.

(** X6. Words written little-endian, four bytes each, are read back
    unchanged, also when up to three stray bytes follow them. *)
Theorem unpack_pack_words_tail :
  forall (ws : list Z) (tail : list byte),
    Forall (fun w => 0 <= w < 2 ^ 32) ws -> len tail < 4 ->
    unpack_words (pack_words ws ++ tail) = ws.
Proof.
  intros ws tail Hws Ht.
  induction Hws as [|w ws Hw _ IH].
  - cbn [pack_words flat_map app].
    destruct tail as [|b0 [|b1 [|b2 [|b3 rest]]]]; try reflexivity.
    exfalso. unfold len in Ht. cbn [List.length] in Ht. lia.
  - rewrite pack_words_cons, <- app_assoc, unpack_pack_word, IH by exact Hw.
    reflexivity.
Qed.

Lemma unpack_pack_words_tail_witness :
  unpack_words (pack_words [0xA0000000; 0; 0xFFFFFFFF] ++ [Byte.x01; Byte.x02]) 
  = [0xA0000000; 0; 0xFFFFFFFF].
Proof.
  apply (unpack_pack_words_tail [0xA0000000; 0; 0xFFFFFFFF] [Byte.x01; Byte.x02]).
  - repeat constructor; lia.
  - reflexivity.
Defined.

(** ** Operand counts of every opcode *)

(** X7. [gp0_param_count] is -1 exactly for the polyline opcodes
    (0x40..0x5F with bit 0x08) and otherwise between 0 and 11; a single
    line has 2 operand words, 3 when shaded; a rectangle has one, plus
    one when its size is variable, plus one when textured; every opcode
    outside 0x20..0x7F has none. *)
Theorem gp0_param_count_policy :
  forall cmd,
    -1 <= gp0_param_count cmd <= 11 /\
    (gp0_param_count cmd = -1 <-> 0x40 <= cmd <= 0x5F /\ bit_set cmd 0x08 = true) /\
    (0x40 <= cmd <= 0x5F -> bit_set cmd 0x08 = false ->
     gp0_param_count cmd = if bit_set cmd 0x10 then 3 else 2) /\
    (0x60 <= cmd <= 0x7F ->
     gp0_param_count cmd
     = 1 + (if Z.land (Z.shiftr cmd 3) 3 =? 0 then 1 else 0)
         + (if bit_set cmd 0x04 then 1 else 0)) /\
    (cmd < 0x20 \/ 0x7F < cmd -> gp0_param_count cmd = 0).
Proof.
  intros cmd.
  destruct (Z_lt_dec cmd 0x20) as [H1|H1];
    [|destruct (Z_le_dec cmd 0x3F) as [H2|H2];
      [|destruct (Z_le_dec cmd 0x5F) as [H3|H3];
        [|destruct (Z_le_dec cmd 0x7F) as [H4|H4]]]].
  - assert (E : gp0_param_count cmd = 0)
      by (unfold gp0_param_count; cmd_tests cmd; reflexivity).
    rewrite E. repeat split; intros; try lia; try discriminate.
  - pose proof (gp0_param_count_polygon cmd ltac:(lia)) as E.
    assert (3 <= gp0_param_count cmd <= 11).
    { rewrite E. unfold polygon_operands.
      destruct (bit_set cmd 8), (bit_set cmd 16), (bit_set cmd 4); lia. }
    repeat split; intros; try lia.
  - unfold gp0_param_count. cmd_tests cmd.
    destruct (bit_set cmd 0x08), (bit_set cmd 0x10);
      repeat split; intros; try lia; try reflexivity; try discriminate;
      try (exfalso; lia); intuition (try discriminate; try lia).
  - pose proof (gp0_param_count_rect cmd ltac:(lia)) as Hr.
    repeat split; intros; try lia.
    unfold gp0_param_count. cmd_tests cmd.
    destruct (Z.land (Z.shiftr cmd 3) 3 =? 0), (bit_set cmd 0x04); reflexivity.
  - assert (E : gp0_param_count cmd = 0)
      by (unfold gp0_param_count; cmd_tests cmd; reflexivity).
    rewrite E. repeat split; intros; try lia; try discriminate.
Qed.

Lemma gp0_param_count_policy_witness :
  gp0_param_count 0x48 = -1 /\ gp0_param_count 0x50 = 3 /\
  gp0_param_count 0x64 = 3 /\ gp0_param_count 0xE1 = 0.
Proof.
  split; [|split; [|split]].
  - apply (proj1 (proj2 (gp0_param_count_policy 0x48))). split; [lia | reflexivity].
  - exact (proj1 (proj2 (proj2 (gp0_param_count_policy 0x50))) ltac:(lia) eq_refl).
  - exact (proj1 (proj2 (proj2 (proj2 (gp0_param_count_policy 0x64)))) ltac:(lia)).
  - apply (proj2 (proj2 (proj2 (proj2 (gp0_param_count_policy 0xE1))))). right. lia.
Defined.

(** ** The decoder on any stream *)

(** One iteration appends one operation, whose count is the advance of
    [i], or, on opcode 0xA0 with fewer than three words left, nothing. *)
Lemma gp0_iter_cases (words : list Z) (i val : Z) :
  index words i = Ok val ->
  exists i' new,
    gp0_iter words i = Ok (i', new) /\
    ((exists o, new = [o] /\ fst o = i' - i /\ 1 <= fst o /\ i' <= len words) \/
     (new = [] /\ i' = i + 1 /\ len words < i + 3 /\ opcode val = 0xA0)).
Proof.
  intros Hval. apply index_inv in Hval as Hi. destruct Hi as [Hi _].
  unfold gp0_iter, opcode. rewrite Hval. cbn [bind].
  set (cmd := Z.land (Z.shiftr val 24) 0xFF).
  destruct (in_GP0_ENV cmd) eqn:Eenv.
  { do 2 eexists. split; [reflexivity|]. left. eexists.
    split; [reflexivity|]. cbn [fst]. lia. }
  destruct (Z_le_dec 0x20 cmd) as [H20|H20]; [|].
  2: { cmd_tests cmd. destruct (Z.eqb_spec cmd 0xA0); [lia|].
       do 2 eexists. split; [reflexivity|]. left. eexists.
       split; [reflexivity|]. cbn [fst]. lia. }
  destruct (Z_le_dec cmd 0x3F) as [H3F|H3F].
  { pose proof (gp0_param_count_polygon cmd ltac:(lia)) as Hn.
    assert (3 <= gp0_param_count cmd).
    { rewrite Hn. unfold polygon_operands.
      destruct (bit_set cmd 8), (bit_set cmd 16), (bit_set cmd 4); lia. }
    cmd_tests cmd.
    destruct (Z.ltb_spec (len words) (i + 1 + gp0_param_count cmd)).
    - do 2 eexists. split; [reflexivity|]. left. eexists.
      split; [reflexivity|]. cbn [fst]. lia.
    - destruct (decode_polygon_ok cmd (slice words i (i + 1 + gp0_param_count cmd)))
        as [s Hs]; [lia | rewrite slice_len; lia |].
      rewrite Hs. cbn [bind]. rewrite slice_len by lia.
      do 2 eexists. split; [reflexivity|]. left. eexists.
      split; [reflexivity|]. cbn [fst]. lia. }
  destruct (Z_le_dec cmd 0x5F) as [H5F|H5F].
  { destruct (line_nparams_ok words i cmd) as (nparams & Hl & Hn); [lia | lia |].
    cmd_tests cmd. rewrite Hl. cbn [bind].
    destruct (Z.leb_spec (i + 1 + nparams) (len words)).
    - do 2 eexists. split; [reflexivity|]. left. eexists.
      split; [reflexivity|]. cbn [fst]. lia.
    - do 2 eexists. split; [reflexivity|]. left. eexists.
      split; [reflexivity|]. cbn [fst]. lia. }
  destruct (Z_le_dec cmd 0x7F) as [H7F|H7F].
  { pose proof (gp0_param_count_rect cmd ltac:(lia)) as Hn.
    cmd_tests cmd.
    destruct (Z.leb_spec (i + 1 + gp0_param_count cmd) (len words)).
    - do 2 eexists. split; [reflexivity|]. left. eexists.
      split; [reflexivity|]. cbn [fst]. lia.
    - do 2 eexists. split; [reflexivity|]. left. eexists.
      split; [reflexivity|]. cbn [fst]. lia. }
  cmd_tests cmd.
  destruct (Z.eqb_spec cmd 0xA0).
  - destruct (Z.leb_spec (i + 3) (len words)).
    + destruct (index_ok words (i + 1) ltac:(lia)) as [w1 ->].
      destruct (index_ok words (i + 2) ltac:(lia)) as [w2 ->]. cbn [bind].
      assert (0 <= Z.land w1 0xFFFF) by (apply Z.land_nonneg; lia).
      assert (0 <= Z.land w2 0xFFFF) by (apply Z.land_nonneg; lia).
      assert (0 <= (Z.land w1 0xFFFF * Z.land w2 0xFFFF + 1) / 2)
        by (apply Z.div_pos; nia).
      do 2 eexists. split; [reflexivity|]. left. eexists.
      split; [reflexivity|]. cbn [fst]. lia.
    + do 2 eexists. split; [reflexivity|]. right. repeat split; lia.
  - do 2 eexists. split; [reflexivity|]. left. eexists.
    split; [reflexivity|]. cbn [fst]. lia.
Qed.

Lemma consumed_at_least_len (l : list op) :
  Forall (fun o : op => 1 <= fst o) l -> len l <= consumed l.
Proof.
  induction 1 as [|o l Ho _ IH]; [reflexivity|].
  rewrite len_cons. unfold consumed in *. cbn [map fold_right]. lia.
Qed.

Lemma parse_gp0_from_accounting (words : list Z) :
  forall (n : nat) (i : Z),
    0 <= i <= len words -> len words - i <= Z.of_nat n ->
    exists rest,
      parse_gp0_from words i [] = Ok rest /\
      Forall (fun o : op => 1 <= fst o) rest /\
      len rest <= len words - i /\
      len words - i - Z.min 2 (len words - i) <= consumed rest <= len words - i /\
      ((forall k w, len words - 2 <= k -> index words k = Ok w -> opcode w <> 0xA0) ->
       consumed rest = len words - i).
Proof.
  induction n as [|n IH]; intros i Hi Hn.
  - exists []. rewrite parse_gp0_from_end by lia.
    repeat split; try constructor; try (cbn; lia).
  - destruct (Z.ltb_spec i (len words)) as [Hlt|Hge].
    2: { exists []. rewrite parse_gp0_from_end by lia.
         repeat split; try constructor; try (cbn; lia). }
    destruct (index_ok words i ltac:(lia)) as [val Hval].
    destruct (gp0_iter_cases words i val Hval) as (i' & new & E & Hcase).
    pose proof (gp0_iter_progress words i i' new ltac:(lia) E) as Hp.
    destruct (IH i' ltac:(lia) ltac:(lia)) as (rest & E' & Hf & Hl & Hc & Hex).
    destruct (parse_gp0_from_total words (List.length words) i' ([] ++ new))
      as (rest' & E1 & E2 & _); [lia | unfold len in *; lia |].
    assert (rest' = rest) by congruence. subst rest'.
    exists (new ++ rest).
    rewrite (parse_gp0_from_step words i i' new []) by (assumption || lia).
    rewrite E1. cbn [app]. split; [reflexivity|].
    destruct Hcase as [(o & -> & Ho1 & Ho2 & Ho3) | (-> & -> & Hshort & Hop)].
    + cbn [app]. rewrite len_cons. unfold consumed in *. cbn [map fold_right].
      repeat split; try lia; [constructor; assumption|].
      intros Hno. rewrite (Hex Hno). lia.
    + cbn [app]. pose proof (consumed_at_least_len rest Hf). pose proof (len_nonneg rest).
      repeat split; try lia; try assumption.
      intros Hno. exfalso. apply (Hno i val); [lia | exact Hval | exact Hop].
Qed.

(** X8. On every list of integers the decoder returns, without an
    exception: operations of at least one word each, no more of them
    than words, whose counts add up to the length of the stream or to
    one or two less; they add up to the length whenever neither of the
    last two words carries opcode 0xA0. *)
Theorem parse_gp0_stream_accounting :
  forall words : list Z,
    exists lines,
      parse_gp0_stream words = Ok lines /\
      Forall (fun o : op => 1 <= fst o) lines /\
      len lines <= len words /\
      len words - 2 <= consumed lines <= len words /\
      ((forall k w, len words - 2 <= k -> index words k = Ok w -> opcode w <> 0xA0) ->
       consumed lines = len words).
Proof.
  intros words. pose proof (len_nonneg words).
  destruct (parse_gp0_from_accounting words (List.length words) 0)
    as (rest & E & Hf & Hl & Hc & Hex); [lia | unfold len; lia |].
  exists rest. repeat split; try assumption; try lia.
  intros Hno. rewrite (Hex Hno). lia.
Qed.

Lemma parse_gp0_stream_accounting_witness :
  exists lines,
    parse_gp0_stream sample_stream = Ok lines /\ consumed lines = len sample_stream.
Proof.
  destruct (parse_gp0_stream_accounting sample_stream) as (lines & E & _ & _ & _ & Hex).
  exists lines. split; [exact E|]. apply Hex.
  intros k w Hk Hw. apply index_inv in Hw as Hr. destruct Hr as [Hr _].
  change (len sample_stream) with 22 in *.
  assert (Hk' : k = 20 \/ k = 21) by lia.
  destruct Hk' as [-> | ->]; vm_compute in Hw; apply Ok_inj in Hw; subst w;
    vm_compute; discriminate.
Defined.

(** ** Polygons: the vertex loop *)

Lemma vertex_words_nonneg (js : list Z) (gouraud textured : bool) :
  0 <= vertex_words js gouraud textured.
Proof.
  induction js as [|j js IH]; cbn [vertex_words]; [lia|].
  destruct ((0 <? j) && gouraud), textured; lia.
Qed.

(** The vertex loop with enough words ahead of its read index. *)
Lemma poly_verts_run (chunk : list Z) (gouraud textured : bool) :
  forall (js : list Z) (st : poly_state),
    0 <= ps_idx st ->
    ps_idx st + vertex_words js gouraud textured <= len chunk ->
    exists st',
      poly_verts js chunk gouraud textured st = Ok st' /\
      ps_idx st' = ps_idx st + vertex_words js gouraud textured /\
      len (ps_verts st') = len (ps_verts st) + len js /\
      (gouraud = false ->
       forall c, (ps_r st, ps_g st, ps_b st) = c ->
         Forall (fun v => vertex_colour v = c) (ps_verts st) ->
         Forall (fun v => vertex_colour v = c) (ps_verts st')).
Proof.
  induction js as [|j js IH]; intros st Hidx Hfit; cbn [poly_verts vertex_words] in *.
  - exists st. change (len (@nil Z)) with 0. repeat split; try lia. auto.
  - pose proof (vertex_words_nonneg js gouraud textured) as Hnn.
    destruct ((0 <? j) && gouraud) eqn:Ecol.
    + destruct (index_ok chunk (ps_idx st)) as [c Hc];
        [destruct textured; lia|].
      rewrite Hc. cbn [bind ps_idx ps_r ps_g ps_b ps_verts].
      destruct (Z.leb_spec (len chunk) (ps_idx st + 1)); [destruct textured; lia|].
      destruct (index_ok chunk (ps_idx st + 1)) as [v Hv]; [lia|].
      rewrite Hv. cbn [bind].
      match goal with
      | |- context [poly_verts js chunk gouraud textured ?s] =>
        destruct (IH s) as (st' & E & Hi & Hl & _)
      end.
      * cbn [ps_idx]. destruct textured; lia.
      * cbn [ps_idx]. destruct textured; lia.
      * exists st'. split; [exact E|]. cbn [ps_idx ps_verts] in Hi, Hl.
        rewrite len_app, len_cons, len_nil in Hl. rewrite len_cons.
        split; [destruct textured; lia|]. split; [lia|].
        intros ->. apply andb_true_iff in Ecol. destruct Ecol; discriminate.
    + cbn [bind].
      destruct (Z.leb_spec (len chunk) (ps_idx st)); [destruct textured; lia|].
      destruct (index_ok chunk (ps_idx st)) as [v Hv]; [lia|].
      rewrite Hv. cbn [bind].
      match goal with
      | |- context [poly_verts js chunk gouraud textured ?s] =>
        destruct (IH s) as (st' & E & Hi & Hl & Hcol)
      end.
      * cbn [ps_idx]. destruct textured; lia.
      * cbn [ps_idx]. destruct textured; lia.
      * exists st'. split; [exact E|]. cbn [ps_idx ps_verts ps_r ps_g ps_b] in Hi, Hl, Hcol.
        rewrite len_app, len_cons, len_nil in Hl. rewrite len_cons.
        split; [destruct textured; lia|]. split; [lia|].
        intros Hg c Hc Hall. apply (Hcol Hg c Hc).
        apply Forall_app. split; [exact Hall|].
        constructor; [exact Hc | constructor].
Qed.

(** X9. On a complete polygon the vertex loop never breaks and never
    reads outside the chunk: it yields one vertex per corner, 3 or 4, and
    ends with its read index at the end of the chunk, so that every
    operand word is accounted for; on a flat polygon every vertex carries
    the colour taken from the command word. *)
Theorem poly_verts_complete :
  forall (cmd : Z) (chunk : list Z) (r g b : Z),
    0x20 <= cmd <= 0x3F ->
    len chunk = 1 + gp0_param_count cmd ->
    let quad := bit_set cmd 0x08 in
    let gouraud := bit_set cmd 0x10 in
    let textured := bit_set cmd 0x04 in
    let nverts := if quad then 4 else 3 in
    exists st,
      poly_verts (range nverts) chunk gouraud textured (mk_poly_state 1 r g b []) = Ok st /\
      len (ps_verts st) = nverts /\
      ps_idx st = len chunk /\
      (gouraud = false -> Forall (fun v => vertex_colour v = (r, g, b)) (ps_verts st)).
Proof.
  intros cmd chunk r g b Hc Hl. cbv zeta.
  rewrite gp0_param_count_polygon in Hl by assumption.
  assert (Hw : vertex_words (range (if bit_set cmd 0x08 then 4 else 3))
                 (bit_set cmd 0x10) (bit_set cmd 0x04)
               = polygon_operands (bit_set cmd 0x08) (bit_set cmd 0x10) (bit_set cmd 0x04)).
  { destruct (bit_set cmd 0x08), (bit_set cmd 0x10), (bit_set cmd 0x04); reflexivity. }
  destruct (poly_verts_run chunk (bit_set cmd 0x10) (bit_set cmd 0x04)
              (range (if bit_set cmd 0x08 then 4 else 3)) (mk_poly_state 1 r g b []))
    as (st & E & Hi & Hn & Hcol).
  - cbn [ps_idx]. lia.
  - cbn [ps_idx]. rewrite Hw. lia.
  - exists st. split; [exact E|]. cbn [ps_idx ps_verts ps_r ps_g ps_b] in *.
    rewrite len_nil in Hn. split; [|split].
    + rewrite Hn. destruct (bit_set cmd 0x08); reflexivity.
    + rewrite Hi, Hw. lia.
    + intros Hg. apply (Hcol Hg (r, g, b) eq_refl). constructor.
Qed.

Lemma poly_verts_complete_witness :
  exists st,
    poly_verts (range 4) [0x38000000; 1; 0x1F; 2; 0x3E0; 3; 0x7C00; 4] true false
      (mk_poly_state 1 0 0 0 []) = Ok st /\
    len (ps_verts st) = 4 /\ ps_idx st = 8.
Proof.
  destruct (poly_verts_complete 0x38 [0x38000000; 1; 0x1F; 2; 0x3E0; 3; 0x7C00; 4] 0 0 0
              ltac:(lia) eq_refl) as (st & E & Hn & Hi & _).
  exists st. split; [exact E|]. split; [exact Hn | exact Hi].
Defined.

(** ** Opcodes of a single word *)

(** X10. A word whose opcode is below 0x20, or above 0x7F and not 0xA0,
    is an operation of one word, whatever follows it.  Only the opcodes
    0xE1..0xE6 are printed as environment commands; the others, 0xE0 and
    0xE7..0xFF among them, are printed as raw words. *)
Theorem gp0_iter_single_word :
  forall (words : list Z) (i val : Z),
    index words i = Ok val ->
    opcode val < 0x20 \/ (0x7F < opcode val /\ opcode val <> 0xA0) ->
    gp0_iter words i
    = Ok (i + 1,
          [(1, if (0xE1 <=? opcode val) && (opcode val <=? 0xE6)
               then parse_gp0_env val
               else ("  GP0 0x" ++ fmt_X 8 val ++ " (cmd=0x"
                       ++ fmt_X 2 (opcode val) ++ ")")%string)]).
Proof.
  intros words i val Hval Hc. unfold gp0_iter. rewrite Hval. cbn [bind].
  fold (opcode val). set (cmd := opcode val) in *.
  destruct (in_GP0_ENV cmd) eqn:Eenv.
  - apply in_GP0_ENV_range in Eenv as Hr.
    destruct (Z.leb_spec 0xE1 cmd); [|lia].
    destruct (Z.leb_spec cmd 0xE6); [|lia]. reflexivity.
  - assert (Hn : (0xE1 <=? cmd) && (cmd <=? 0xE6) = false).
    { destruct (Z.leb_spec 0xE1 cmd); [|reflexivity].
      destruct (Z.leb_spec cmd 0xE6); [|reflexivity].
      exfalso. revert Eenv. unfold in_GP0_ENV, GP0_ENV_get.
      assert (Hcases : cmd = 0xE1 \/ cmd = 0xE2 \/ cmd = 0xE3 \/ cmd = 0xE4
                       \/ cmd = 0xE5 \/ cmd = 0xE6) by lia.
      destruct Hcases as [-> | [-> | [-> | [-> | [-> | ->]]]]]; discriminate. }
    rewrite Hn. cmd_tests cmd; destruct (Z.eqb_spec cmd 0xA0); try lia; reflexivity.
Qed.

Lemma gp0_iter_single_word_witness :
  gp0_iter [0xE7000001; 0xE3000C05] 0
  = Ok (1, [(1, "  GP0 0xE7000001 (cmd=0xE7)")]) /\
  gp0_iter [0xE7000001; 0xE3000C05] 1
  = Ok (2, [(1, "  GP0 CLIP_TL (5,3)")]).
Proof.
  assert (H0 : opcode 0xE7000001 < 0x20
               \/ (0x7F < opcode 0xE7000001 /\ opcode 0xE7000001 <> 0xA0))
    by (right; split; [reflexivity | discriminate]).
  assert (H1 : opcode 0xE3000C05 < 0x20
               \/ (0x7F < opcode 0xE3000C05 /\ opcode 0xE3000C05 <> 0xA0))
    by (right; split; [reflexivity | discriminate]).
  split.
  - exact (gp0_iter_single_word [0xE7000001; 0xE3000C05] 0 0xE7000001 eq_refl H0).
  - exact (gp0_iter_single_word [0xE7000001; 0xE3000C05] 1 0xE3000C05 eq_refl H1).
Defined.

(** ** Polylines without a terminator *)

(** Without a terminator at the positions it visits, the scan runs to the
    first such position at or past the end of the stream. *)
Lemma polyline_scan_none (words : list Z) (cmd : Z) :
  forall (fuel : nat) (j : Z),
    0 <= j < len words + scan_step cmd ->
    len words - j <= Z.of_nat fuel ->
    (forall (m : nat) (w : Z),
       index words (j + scan_step cmd * Z.of_nat m) = Ok w -> terminator w = false) ->
    exists j',
      polyline_scan fuel words cmd j = Ok j' /\
      j <= j' /\ len words <= j' < len words + scan_step cmd /\
      (j' - j) mod scan_step cmd = 0.
Proof.
  assert (Hs : scan_step cmd = 1 \/ scan_step cmd = 2)
    by (unfold scan_step; destruct (bit_set cmd 0x10); auto).
  induction fuel as [|fuel IH]; intros j Hj Hf Hno; cbn [polyline_scan].
  - destruct (Z.ltb_spec j (len words)); [lia|]. exists j.
    rewrite Z.sub_diag, Z.mod_0_l by lia. repeat split; lia.
  - destruct (Z.ltb_spec j (len words)).
    2: { exists j. rewrite Z.sub_diag, Z.mod_0_l by lia. repeat split; lia. }
    destruct (index_ok words j ltac:(lia)) as [w Hw]. rewrite Hw. cbn [bind].
    assert (Hn : terminator w = false).
    { apply (Hno 0%nat). replace (j + scan_step cmd * Z.of_nat 0) with j by lia. exact Hw. }
    unfold terminator in Hn. rewrite Hn. fold (scan_step cmd).
    destruct (IH (j + scan_step cmd)) as (j' & E & Hle & Hb & Hm); [lia | lia | |].
    + intros m w' Hw'. apply (Hno (S m)).
      replace (j + scan_step cmd * Z.of_nat (S m))
        with (j + scan_step cmd + scan_step cmd * Z.of_nat m) by lia.
      exact Hw'.
    + exists j'. split; [exact E|]. split; [lia|]. split; [lia|].
      replace (j' - j) with (j' - (j + scan_step cmd) + 1 * scan_step cmd) by lia.
      rewrite Z.mod_add by lia. exact Hm.
Qed.

(** X11. A polyline with no terminator at any position its scan visits
    takes the whole rest of the stream as one LINE operation; only a
    shaded polyline whose scan, two words at a time, steps over the end
    of the stream becomes an "incomplete" marker of one word. *)
Theorem polyline_unterminated :
  forall (words : list Z) (i val : Z),
    index words i = Ok val ->
    0x40 <= opcode val <= 0x5F -> bit_set (opcode val) 0x08 = true ->
    (forall (m : nat) (w : Z),
       index words (i + 1 + scan_step (opcode val) * Z.of_nat m) = Ok w ->
       terminator w = false) ->
    gp0_iter words i
    = if bit_set (opcode val) 0x10 && negb ((len words - i - 1) mod 2 =? 0)
      then Ok (i + 1, [(1, incomplete_marker (opcode val))])
      else Ok (len words,
               [(len words - i,
                 ("  GP0 LINE (skip " ++ str (len words - i) ++ " words)")%string)]).
Proof.
  intros words i val Hval Hc Hb Hno.
  apply index_inv in Hval as Hi. destruct Hi as [Hi _].
  assert (Hs : scan_step (opcode val) = if bit_set (opcode val) 0x10 then 2 else 1)
    by reflexivity.
  destruct (polyline_scan_none words (opcode val) (List.length words) (i + 1))
    as (j & Hscan & Hle & Hb' & Hm);
    [destruct (bit_set (opcode val) 0x10); lia | unfold len; lia | exact Hno |].
  unfold gp0_iter, incomplete_marker. rewrite Hval. cbn [bind]. fold (opcode val).
  rewrite not_in_GP0_ENV by lia.
  set (cmd := opcode val) in *. cmd_tests cmd.
  unfold line_nparams. rewrite gp0_param_count_polyline by assumption.
  cbn [Z.ltb Z.compare]. rewrite Hscan. cbn [bind].
  destruct (bit_set cmd 0x10); rewrite Hs in *; cbn [andb].
  - destruct (Z.eqb_spec ((len words - i - 1) mod 2) 0) as [He|He]; cbn [negb].
    + assert (j = len words) by (Z.div_mod_to_equations; lia). subst j.
      destruct (Z.leb_spec (i + 1 + (len words - i - 1)) (len words)); [|lia].
      replace (1 + (len words - i - 1)) with (len words - i) by lia.
      replace (len words - i - 1 + 1) with (len words - i) by lia.
      replace (i + (len words - i)) with (len words) by lia. reflexivity.
    + assert (j = len words + 1) by (Z.div_mod_to_equations; lia). subst j.
      destruct (Z.leb_spec (i + 1 + (len words + 1 - i - 1)) (len words)); [lia|].
      reflexivity.
  - assert (j = len words) by lia. subst j.
    destruct (Z.leb_spec (i + 1 + (len words - i - 1)) (len words)); [|lia].
    replace (1 + (len words - i - 1)) with (len words - i) by lia.
    replace (len words - i - 1 + 1) with (len words - i) by lia.
    replace (i + (len words - i)) with (len words) by lia. reflexivity.
Qed.

Lemma polyline_unterminated_witness :
  gp0_iter [0x58000000; 1; 2; 3] 0 = Ok (1, [(1, "  GP0 LINE 0x58 (incomplete)")]) /\
  gp0_iter [0x48000000; 1; 2; 3] 0 = Ok (4, [(4, "  GP0 LINE (skip 4 words)")]).
Proof.
  assert (Hno : forall ws cmd, (forall k w, index ws k = Ok w -> terminator w = false) ->
                forall (m : nat) (w : Z),
                  index ws (0 + 1 + scan_step cmd * Z.of_nat m) = Ok w ->
                  terminator w = false) by (intros ws cmd H m w; apply H).
  assert (H58 : forall k w, index [0x58000000; 1; 2; 3] k = Ok w -> terminator w = false).
  { intros k w Hw. apply index_inv in Hw as Hr. destruct Hr as [Hr _].
    change (len [0x58000000; 1; 2; 3]) with 4 in Hr.
    assert (Hk : k = 0 \/ k = 1 \/ k = 2 \/ k = 3) by lia.
    destruct Hk as [-> | [-> | [-> | ->]]]; vm_compute in Hw; apply Ok_inj in Hw;
      subst w; reflexivity. }
  assert (H48 : forall k w, index [0x48000000; 1; 2; 3] k = Ok w -> terminator w = false).
  { intros k w Hw. apply index_inv in Hw as Hr. destruct Hr as [Hr _].
    change (len [0x48000000; 1; 2; 3]) with 4 in Hr.
    assert (Hk : k = 0 \/ k = 1 \/ k = 2 \/ k = 3) by lia.
    destruct Hk as [-> | [-> | [-> | ->]]]; vm_compute in Hw; apply Ok_inj in Hw;
      subst w; reflexivity. }
  assert (R58 : 0x40 <= opcode 0x58000000 <= 0x5F) by (vm_compute; split; discriminate).
  assert (R48 : 0x40 <= opcode 0x48000000 <= 0x5F) by (vm_compute; split; discriminate).
  split.
  - exact (polyline_unterminated [0x58000000; 1; 2; 3] 0 0x58000000 eq_refl R58 eq_refl
             (Hno _ _ H58)).
  - exact (polyline_unterminated [0x48000000; 1; 2; 3] 0 0x48000000 eq_refl R48 eq_refl
             (Hno _ _ H48)).
Defined.

(** ** Whole captures: encoding and reading back *)

Lemma encode_packet_app (p : packet) (rest : list byte) :
  encode_packet p ++ rest = encode_header (fst p) (len (snd p) / 4) ++ snd p ++ rest.
Proof. unfold encode_packet. now rewrite <- app_assoc. Qed.

Lemma len_encode_packet (p : packet) : len (encode_packet p) = 4 + len (snd p).
Proof. unfold encode_packet. now rewrite len_app, len_encode_header. Qed.

Lemma get_next_packet_cut_off (pre tail : list byte) :
  cut_off tail ->
  exists pos', get_next_packet (pre ++ tail) (len pre) = Ok (None, pos').
Proof.
  intros [Hs | (t & wc & partial & -> & Ht & Hwc & Hp)]; unfold get_next_packet.
  - rewrite len_app. destruct (Z.ltb_spec (len pre + len tail) (len pre + 4)); [|lia].
    eauto.
  - rewrite !len_app, len_encode_header. pose proof (len_nonneg partial).
    destruct (Z.ltb_spec (len pre + (4 + len partial)) (len pre + 4)); [lia|].
    rewrite unpack_u32_encode_header by lia. cbn [bind].
    rewrite header_word_count by lia.
    destruct (Z.ltb_spec (len pre + (4 + len partial)) (len pre + 4 + wc * 4)); [|lia].
    eauto.
Qed.

Lemma read_packets_encoded (tail : list byte) :
  cut_off tail ->
  forall (ps : list packet) (pre : list byte) (fuel : nat),
    Forall valid_packet ps ->
    len (flat_map encode_packet ps ++ tail) <= Z.of_nat fuel ->
    read_packets fuel (pre ++ flat_map encode_packet ps ++ tail) (len pre)
    = place (len pre) ps.
Proof.
  intros Hcut. induction ps as [|p ps IH]; intros pre fuel Hv Hf.
  - cbn [flat_map app place] in *.
    destruct fuel as [|fuel]; cbn [read_packets].
    + destruct (len pre <? len (pre ++ tail)); reflexivity.
    + destruct (len pre <? len (pre ++ tail)); [|reflexivity].
      destruct (get_next_packet_cut_off pre tail Hcut) as [pos' ->]. reflexivity.
  - inversion Hv as [|p' ps' Hp Hps]; subst. destruct Hp as (Ht & Hm & Hw).
    cbn [flat_map place] in *. rewrite <- app_assoc in *.
    rewrite len_app, len_encode_packet in Hf.
    pose proof (len_nonneg (snd p)). pose proof (len_nonneg (flat_map encode_packet ps ++ tail)).
    destruct fuel as [|fuel]; [lia|]. cbn [read_packets].
    rewrite (len_app pre), len_app, len_encode_packet.
    destruct (Z.ltb_spec (len pre) (len pre + (4 + len (snd p)
                + len (flat_map encode_packet ps ++ tail)))); [|lia].
    rewrite encode_packet_app.
    assert (Hq : 0 <= len (snd p) / 4) by (apply Z.div_pos; lia).
    rewrite get_next_packet_encoded;
      [|lia | lia | rewrite (Z.div_mod (len (snd p)) 4) at 1 by lia; lia].
    rewrite <- surjective_pairing. f_equal.
    specialize (IH (pre ++ encode_packet p) fuel Hps ltac:(lia)).
    rewrite len_app, len_encode_packet in IH.
    replace (len pre + (4 + len (snd p))) with (len pre + 4 + len (snd p)) in IH by lia.
    rewrite <- IH. f_equal. rewrite <- app_assoc, encode_packet_app. reflexivity.
Qed.

(** The packets read back from an encoded capture, with their places. *)
Lemma packets_encoded (header : list byte) (ps : list packet) (tail : list byte) :
  len header = 14 -> Forall valid_packet ps -> cut_off tail ->
  packets (header ++ flat_map encode_packet ps ++ tail) = place 14 ps.
Proof.
  intros Hh Hv Hcut.
  unfold packets. rewrite <- Hh. apply read_packets_encoded; try assumption.
  pose proof (len_nonneg header).
  unfold len in *. rewrite !length_app. lia.
Qed.

Lemma packet_of_place (ps : list packet) :
  forall pos, map packet_of (place pos ps) = ps.
Proof.
  induction ps as [|p ps IH]; intros pos; cbn [place map]; [reflexivity|].
  now rewrite IH.
Qed.

(** X12. A capture written as a 14-byte header followed by encoded
    packets, and possibly cut off inside a last packet, is read back as
    exactly those packets, each at the offset where it was written; the
    cut-off end is dropped silently. *)
Theorem packets_roundtrip :
  forall (header : list byte) (ps : list packet) (tail : list byte),
    len header = 14 -> Forall valid_packet ps -> cut_off tail ->
    packets (header ++ flat_map encode_packet ps ++ tail) = place 14 ps /\
    map packet_of (packets (header ++ flat_map encode_packet ps ++ tail)) = ps.
Proof.
  intros header ps tail Hh Hv Hcut.
  rewrite (packets_encoded header ps tail Hh Hv Hcut).
  split; [reflexivity | apply packet_of_place].
Qed.

Lemma packets_roundtrip_witness :
  map packet_of
    (packets (capture_header
                ++ flat_map encode_packet
                     [(PT_TraceBegin, []); (PT_GPUPort1Data, pack_words [0x03000000])]
                ++ encode_header PT_GPUPort0Data 5 ++ pack_words [0xE1000000]))
  = [(PT_TraceBegin, []); (PT_GPUPort1Data, pack_words [0x03000000])].
Proof.
  apply (packets_roundtrip capture_header
           [(PT_TraceBegin, []); (PT_GPUPort1Data, pack_words [0x03000000])]
           (encode_header PT_GPUPort0Data 5 ++ pack_words [0xE1000000])).
  - reflexivity.
  - repeat constructor; vm_compute; congruence.
  - right. exists PT_GPUPort0Data, 5, (pack_words [0xE1000000]).
    repeat split; vm_compute; congruence.
Defined.

(** ** The frame index of any capture *)

Lemma packets_loop (data : list byte) {S : Type}
    (body : S -> Z -> packet -> proc (ctl S)) (st : S) (w : world) :
  packet_loop (List.length data) data body 14 st w
  = over_packets body (packets data) st w.
Proof. apply packet_loop_over_packets. unfold len. lia. Qed.

Lemma first_pass_frame_starts (pkts : list (Z * packet * Z)) :
  forall (in_trace : bool) (offs : list Z) (w : world),
    exists in_trace',
      over_packets first_pass_body pkts (in_trace, offs) w
      = (Ok (in_trace', offs ++ frame_starts in_trace pkts), w).
Proof.
  induction pkts as [|[[s [pt pl]] e] pkts IH]; intros in_trace offs w;
    cbn [over_packets frame_starts].
  - exists in_trace. now rewrite app_nil_r.
  - unfold first_pass_body at 1, ptype_of. cbn [fst snd].
    destruct (pt =? PT_TraceBegin) eqn:E5.
    + rewrite pbind_pret. destruct (IH true (offs ++ [e]) w) as [it ->].
      exists it. now rewrite <- app_assoc.
    + destruct ((pt =? PT_VSyncEvent) && in_trace) eqn:E2.
      * rewrite pbind_pret. destruct (IH in_trace (offs ++ [e]) w) as [it ->].
        exists it. now rewrite <- app_assoc.
      * rewrite pbind_pret. apply IH.
Qed.

Lemma read_packets_ends (data : list byte) :
  forall (fuel : nat) (pos : Z),
    Forall (fun x => pos + 4 <= snd x <= len data) (read_packets fuel data pos) /\
    chained pos (read_packets fuel data pos).
Proof.
  intros fuel pos. split; [|apply read_packets_chained].
  revert pos. induction fuel as [|fuel IH]; intros pos; cbn [read_packets].
  - destruct (pos <? len data); constructor.
  - destruct (pos <? len data); [|constructor].
    destruct (get_next_packet data pos) as [[[pkt|] pos']|] eqn:E; try constructor.
    + apply get_next_packet_progress in E. cbn [snd]. lia.
    + apply get_next_packet_progress in E. specialize (IH pos').
      eapply Forall_impl; [|exact IH]. cbn beta. intros x Hx. lia.
Qed.

(** The frame starts of a chain of packets grow strictly, and lie behind
    the start of the chain. *)
Lemma frame_starts_sorted (pkts : list (Z * packet * Z)) :
  forall (a : Z) (in_trace : bool),
    chained a pkts ->
    StronglySorted Z.lt (frame_starts in_trace pkts) /\
    Forall (fun o => a + 4 <= o) (frame_starts in_trace pkts) /\
    Forall (fun o => exists x, In x pkts /\ snd x = o) (frame_starts in_trace pkts).
Proof.
  induction pkts as [|[[s [pt pl]] e] pkts IH]; intros a in_trace Hch;
    cbn [frame_starts].
  - repeat split; constructor.
  - assert (Ha : s = a /\ a + 4 <= e /\ chained e pkts)
      by (inversion Hch; subst; auto).
    destruct Ha as (-> & Hab & Hl).
    assert (Hstep : forall it,
               StronglySorted Z.lt (e :: frame_starts it pkts) /\
               Forall (fun o => a + 4 <= o) (e :: frame_starts it pkts) /\
               Forall (fun o => exists x, In x ((a, (pt, pl), e) :: pkts) /\ snd x = o)
                      (e :: frame_starts it pkts)).
    { intros it. destruct (IH e it Hl) as (Hs & Hb & Hin). repeat split.
      - constructor; [exact Hs|]. eapply Forall_impl; [|exact Hb]. cbn beta. lia.
      - constructor; [lia|]. eapply Forall_impl; [|exact Hb]. cbn beta. lia.
      - constructor; [eexists; split; [left; reflexivity | reflexivity]|].
        eapply Forall_impl; [|exact Hin]. cbn beta. intros o (x & Hx & Ho).
        exists x. split; [right; exact Hx | exact Ho]. }
    unfold ptype_of. cbn [fst snd].
    destruct (pt =? PT_TraceBegin); [apply Hstep|].
    destruct ((pt =? PT_VSyncEvent) && in_trace); [apply Hstep|].
    destruct (IH e in_trace Hl) as (Hs & Hb & Hin). repeat split.
    + exact Hs.
    + eapply Forall_impl; [|exact Hb]. cbn beta. lia.
    + eapply Forall_impl; [|exact Hin]. cbn beta. intros o (x & Hx & Ho).
      exists x. split; [right; exact Hx | exact Ho].
Qed.

Lemma frame_starts_nil (pkts : list (Z * packet * Z)) :
  frame_starts false pkts = []
  <-> Forall (fun x => ptype_of x <> PT_TraceBegin) pkts.
Proof.
  induction pkts as [|x pkts IH]; cbn [frame_starts]; [split; constructor|].
  destruct (Z.eqb_spec (ptype_of x) PT_TraceBegin) as [E|E].
  - split; [discriminate|]. intros H. inversion H; subst. contradiction.
  - rewrite andb_false_r, IH. split.
    + intros H. constructor; assumption.
    + intros H. inversion H; subst. assumption.
Qed.

(** X13. On every buffer the first pass returns, without printing or
    raising: the ends of the TraceBegin packets and of the VSync packets
    that follow a TraceBegin, in strictly increasing order, each at least
    18 and at most the length of the buffer.  The index is empty exactly
    when the capture holds no TraceBegin packet, whatever VSync packets
    it holds. *)
Theorem first_pass_index :
  forall (data : list byte) (w : world),
    exists offs,
      first_pass data 14 w = (Ok offs, w) /\
      offs = frame_starts false (packets data) /\
      StronglySorted Z.lt offs /\
      Forall (fun o => 18 <= o <= len data) offs /\
      (offs = [] <-> Forall (fun x => ptype_of x <> PT_TraceBegin) (packets data)).
Proof.
  intros data w. exists (frame_starts false (packets data)).
  destruct (read_packets_ends data (List.length data) 14) as [Hends Hch].
  fold (packets data) in Hends, Hch.
  destruct (frame_starts_sorted (packets data) 14 false Hch) as (Hs & Hb & Hin).
  repeat split.
  - unfold first_pass, pbind. rewrite packets_loop.
    destruct (first_pass_frame_starts (packets data) false [] w) as [it ->]. reflexivity.
  - exact Hs.
  - rewrite Forall_forall in *. intros o Ho. specialize (Hb o Ho).
    destruct (Hin o Ho) as (x & Hx & <-). specialize (Hends x Hx). lia.
  - apply frame_starts_nil.
  - apply frame_starts_nil.
Qed.

(** ** Frame mode: requests that select nothing *)

(** X14. A capture with a valid header and no TraceBegin packet makes the
    frame mode print "No frames found" and exit with status 1, for every
    requested frame and whatever VSync packets the capture holds. *)
Theorem main_frame_no_frames :
  forall (data : list byte) (frame_idx : option Z),
    parse_header data = Ok 14 ->
    Forall (fun x => ptype_of x <> PT_TraceBegin) (packets data) ->
    main_frame data frame_idx world0
    = (Raise (SystemExit 1), mk_world ["No frames found"] []).
Proof.
  intros data frame_idx Hh Hno. unfold main_frame.
  rewrite Hh, pbind_lift_ok. unfold pbind at 1.
  unfold first_pass, pbind at 1. rewrite packets_loop.
  destruct (first_pass_frame_starts (packets data) false [] world0) as [it ->].
  cbn [app snd pret]. rewrite (proj2 (frame_starts_nil (packets data)) Hno).
  reflexivity.
Qed.

Lemma main_frame_no_frames_witness :
  main_frame (capture_header ++ encode_packet (PT_VSyncEvent, [])
                ++ encode_packet (PT_GPUPort1Data, pack_words [0x03000000]))
    (Some 0) world0
  = (Raise (SystemExit 1), mk_world ["No frames found"] []).
Proof.
  apply main_frame_no_frames; [reflexivity|].
  vm_compute. repeat constructor; discriminate.
Defined.

Lemma frame_starts_markers (pkts : list (Z * packet * Z)) :
  forall in_trace : bool,
    frame_starts in_trace pkts <> [] -> 1 <= len (filter is_marker pkts).
Proof.
  induction pkts as [|[[s [pt pl]] e] pkts IH]; intros in_trace;
    cbn [frame_starts filter]; [congruence|].
  unfold is_marker at 1, ptype_of. cbn [fst snd].
  pose proof (len_nonneg (filter is_marker pkts)).
  destruct (pt =? PT_TraceBegin); cbn [orb].
  - intros _. rewrite len_cons. lia.
  - destruct (pt =? PT_VSyncEvent); cbn [andb orb].
    + intros _. rewrite len_cons. lia.
    + apply IH.
Qed.

(** While the frame counter cannot meet the requested frame any more, or
    cannot reach it with the markers left, the second pass prints and
    counts nothing. *)
Lemma second_pass_quiet (frame_idx : option Z) (target : Z)
    (pkts : list (Z * packet * Z)) :
  forall (st : pass2) (w : world),
    dumping st = false ->
    target <= current_frame st \/ current_frame st + len (filter is_marker pkts) < target ->
    exists st',
      over_packets (second_pass_body frame_idx target) pkts st w = (Ok st', w) /\
      pkt_count st' = pkt_count st.
Proof.
  induction pkts as [|[[s [pt pl]] e] pkts IH]; intros st w Hd Hc;
    cbn [over_packets filter].
  - exists st. split; reflexivity.
  - cbn [filter] in Hc. unfold is_marker at 1, ptype_of in Hc. cbn [fst snd] in Hc.
    pose proof (len_nonneg (filter is_marker pkts)) as Hnn.
    unfold second_pass_body at 1.
    destruct (pt =? PT_TraceBegin) eqn:E5; cbn [orb] in Hc.
    + rewrite len_cons in Hc.
      destruct (Z.eqb_spec (current_frame st + 1) target) as [Heq|Hne]; [lia|].
      rewrite pbind_pret.
      destruct (IH (mk_pass2 (current_frame st + 1) (dumping st) (pkt_count st)) w)
        as (st' & E & Hk); [exact Hd | cbn [current_frame]; lia |].
      exists st'. split; [exact E | exact Hk].
    + destruct (pt =? PT_VSyncEvent) eqn:E2; cbn [orb] in Hc.
      * rewrite len_cons in Hc.
        rewrite Hd. cbn [andb]. rewrite pbind_assoc, pbind_pret.
        destruct (Z.eqb_spec (current_frame st + 1) target) as [Heq|Hne]; [lia|].
        destruct ((target <? current_frame st + 1) && is_int frame_idx).
        -- rewrite pbind_pret. eexists. split; reflexivity.
        -- rewrite pbind_pret.
           destruct (IH (mk_pass2 (current_frame st + 1) false (pkt_count st)) w)
             as (st' & E & Hk); [reflexivity | cbn [current_frame]; lia |].
           exists st'. split; [exact E | exact Hk].
      * rewrite Hd. cbn [negb orb]. rewrite pbind_pret.
        apply IH; [exact Hd | lia].
Qed.

(** X15. A requested frame that is negative, or not below the number of
    marker packets (TraceBegin and VSync) of the capture, selects nothing:
    the frame mode prints only the closing total, with 0 packets in the
    frame, and ends normally. *)
Theorem main_frame_out_of_range :
  forall (data : list byte) (n : Z),
    parse_header data = Ok 14 ->
    frame_starts false (packets data) <> [] ->
    n < 0 \/ len (filter is_marker (packets data)) <= n ->
    main_frame data (Some n) world0
    = (Ok tt, mk_world [total_line (len (frame_starts false (packets data))) 0] []).
Proof.
  intros data n Hh Hne Hn. unfold main_frame.
  rewrite Hh, pbind_lift_ok. unfold pbind at 1.
  unfold first_pass, pbind at 1. rewrite packets_loop.
  destruct (first_pass_frame_starts (packets data) false [] world0) as [it ->].
  cbn [app snd pret].
  pose proof (frame_starts_markers _ _ Hne) as Hm.
  destruct (frame_starts false (packets data)) as [|o offs] eqn:Eo; [congruence|].
  rewrite pbind_lift_ok. unfold pbind at 1. rewrite packets_loop.
  assert (Hz : (n =? 0) = false) by (apply Z.eqb_neq; lia).
  rewrite Hz.
  destruct (second_pass_quiet (Some n) n (packets data) (mk_pass2 (-1) false 0) world0)
    as (st' & E & Hk); [reflexivity | cbn [current_frame]; lia |].
  rewrite E. cbn [pkt_count] in Hk. rewrite Hk. reflexivity.
Qed.

Lemma main_frame_out_of_range_witness :
  main_frame frames_capture (Some 4) world0
  = (Ok tt, mk_world [total_line (len (frame_starts false (packets frames_capture))) 0] []).
Proof.
  apply main_frame_out_of_range.
  - reflexivity.
  - vm_compute. discriminate.
  - right. vm_compute. discriminate.
Defined.

(** ** Frame mode: what it can end in *)

Lemma world_eta (w : world) : mk_world (stdout w ++ []) (files w) = w.
Proof. destruct w as [out fs]. cbn [stdout files]. now rewrite app_nil_r. Qed.

Lemma print_all_spec (ss : list string) :
  forall w, print_all ss w = (Ok tt, mk_world (stdout w ++ ss) (files w)).
Proof.
  induction ss as [|s ss IH]; intros w; cbn [print_all].
  - unfold pret. now rewrite world_eta.
  - unfold pbind, print at 1. rewrite IH. cbn [stdout files].
    now rewrite <- app_assoc.
Qed.

(** Printing a packet never fails and writes no file. *)
Lemma emit_packet_ok (pkt : packet) (w : world) :
  exists lines, emit_packet pkt w = (Ok tt, mk_world (stdout w ++ lines) (files w)).
Proof.
  destruct pkt as [ptype payload]. unfold emit_packet.
  destruct (ptype =? PT_GPUPort0Data).
  - set (words := unpack_words payload).
    assert (Hsig : exists b, (if 3 <=? len words then blit_signature words else Ok false)
                             = Ok b).
    { destruct (Z.leb_spec 3 (len words)); [|eauto].
      unfold blit_signature.
      destruct (index_ok words 0 ltac:(lia)) as [w0 ->]. cbn [bind].
      destruct (Z.shiftr w0 24 =? 0xA0); [|eauto].
      destruct (index_ok words 1 ltac:(lia)) as [w1 ->]. cbn [bind].
      destruct (w1 =? 0); [|eauto].
      destruct (index_ok words 2 ltac:(lia)) as [w2 ->]. cbn [bind]. eauto. }
    destruct Hsig as [b ->]. rewrite pbind_lift_ok. destruct b.
    + eexists. reflexivity.
    + destruct (parse_gp0_stream_total words) as (lines & -> & _).
      rewrite pbind_lift_ok, print_all_spec. eauto.
  - destruct ((ptype =? PT_GPUPort1Data) && (4 <=? len payload)) eqn:E.
    + apply andb_true_iff in E. destruct E as [_ E]. apply Z.leb_le in E.
      unfold unpack_u32. destruct (Z.ltb_spec (len payload) (0 + 4)); [lia|].
      rewrite pbind_lift_ok. eexists. reflexivity.
    + exists []. unfold pret. now rewrite world_eta.
Qed.

Lemma second_pass_ok (frame_idx : option Z) (target : Z) (pkts : list (Z * packet * Z)) :
  forall (st : pass2) (w : world),
    exists st' lines,
      over_packets (second_pass_body frame_idx target) pkts st w
      = (Ok st', mk_world (stdout w ++ lines) (files w)).
Proof.
  induction pkts as [|[[s [pt pl]] e] pkts IH]; intros st w; cbn [over_packets].
  - exists st, []. unfold pret. now rewrite world_eta.
  - assert (Hbody : exists c lines,
               second_pass_body frame_idx target st e (pt, pl) w
               = (Ok c, mk_world (stdout w ++ lines) (files w))).
    { unfold second_pass_body.
      destruct (pt =? PT_TraceBegin).
      - destruct (current_frame st + 1 =? target).
        + do 2 eexists. reflexivity.
        + eexists. exists []. unfold pret. now rewrite world_eta.
      - destruct (pt =? PT_VSyncEvent).
        + destruct (dumping st && (current_frame st =? target)).
          * unfold pbind, print at 1. cbn [stdout files].
            destruct ((target <? current_frame st + 1) && is_int frame_idx);
              [|destruct (current_frame st + 1 =? target)];
              do 2 eexists; reflexivity.
          * rewrite pbind_pret.
            destruct ((target <? current_frame st + 1) && is_int frame_idx);
              [|destruct (current_frame st + 1 =? target)];
              eexists; exists []; unfold pret; now rewrite world_eta.
        + destruct (negb (dumping st) || negb (current_frame st =? target)).
          * exists (Continue st), []. unfold pret. now rewrite world_eta.
          * destruct (emit_packet_ok (pt, pl) w) as [lines E].
            unfold pbind. rewrite E. do 2 eexists. reflexivity. }
    destruct Hbody as (c & lines & E). unfold pbind at 1. rewrite E.
    destruct c as [st1|st1].
    + destruct (IH st1 (mk_world (stdout w ++ lines) (files w))) as (st' & lines' & E').
      rewrite E'. cbn [stdout files]. rewrite <- app_assoc. eauto.
    + unfold pret. eauto.
Qed.

(** The frame mode on a buffer with a valid header, as its two passes
    over the packets of the capture. *)
Lemma main_frame_passes (data : list byte) (frame_idx : option Z) :
  parse_header data = Ok 14 ->
  main_frame data frame_idx world0
  = match frame_starts false (packets data) with
    | [] => (Raise (SystemExit 1), mk_world ["No frames found"] [])
    | o :: offs =>
      (st <~ over_packets
               (second_pass_body frame_idx (match frame_idx with Some n => n | None => 0 end))
               (packets data)
               (mk_pass2 (-1) (match frame_idx with Some n => n =? 0 | None => true end) 0) ;;
       print (total_line (len (o :: offs)) (pkt_count st))) world0
    end.
Proof.
  intros Hh. unfold main_frame.
  rewrite Hh, pbind_lift_ok. unfold pbind at 1.
  unfold first_pass, pbind at 1. rewrite packets_loop.
  destruct (first_pass_frame_starts (packets data) false [] world0) as [it ->].
  cbn [app snd pret].
  destruct (frame_starts false (packets data)) as [|o offs]; [reflexivity|].
  rewrite pbind_lift_ok. unfold pbind at 1. rewrite packets_loop. reflexivity.
Qed.

(** X16. Whatever the buffer and the requested frame, the frame mode ends
    in one of three ways: ValueError on a bad header, with nothing
    printed; "No frames found" and exit status 1, when the header is good
    and the frame index is empty; or, when the index is not empty, a
    normal return after printing lines that end with the total of the
    frame index.  No other exception escapes, and no file is ever
    written. *)
Theorem main_frame_outcomes :
  forall (data : list byte) (frame_idx : option Z),
    (parse_header data = Raise ValueError /\
     main_frame data frame_idx world0 = (Raise ValueError, world0)) \/
    (parse_header data = Ok 14 /\
     frame_starts false (packets data) = [] /\
     main_frame data frame_idx world0
     = (Raise (SystemExit 1), mk_world ["No frames found"] [])) \/
    (parse_header data = Ok 14 /\
     frame_starts false (packets data) <> [] /\
     exists lines k,
       main_frame data frame_idx world0
       = (Ok tt,
          mk_world (lines ++ [total_line (len (frame_starts false (packets data))) k]) [])).
Proof.
  intros data frame_idx.
  destruct (parse_header data) as [p|ex] eqn:Hh.
  2: { left. unfold main_frame. rewrite Hh. unfold parse_header in Hh.
       destruct ((len data <? 14) || negb (bytes_eqb (slice data 0 10) magic));
         [|discriminate].
       apply (f_equal (fun r => match r with Raise x => x | Ok _ => ValueError end)) in Hh.
       subst ex. split; reflexivity. }
  assert (p = 14).
  { unfold parse_header in Hh.
    destruct ((len data <? 14) || negb (bytes_eqb (slice data 0 10) magic));
      [discriminate|]. now apply Ok_inj in Hh. }
  subst p. right. rewrite (main_frame_passes data frame_idx Hh).
  destruct (frame_starts false (packets data)) as [|o offs];
    [left; repeat split|].
  right. split; [reflexivity|]. split; [discriminate|]. unfold pbind at 1.
  match goal with
  | |- context [over_packets (second_pass_body ?fi ?t) _ ?st world0] =>
    destruct (second_pass_ok fi t (packets data) st world0) as (st' & lines & E)
  end.
  rewrite E. exists lines, (pkt_count st'). reflexivity.
Qed.

(** ** VRAM mode: the scan for the full-frame upload *)

Lemma full_frame_blit_words (pkt : packet) :
  full_frame_blit pkt = true ->
  fst pkt = 0 /\ 262147 <= len (unpack_words (snd pkt)) /\
  blit_signature (unpack_words (snd pkt)) = Ok true.
Proof.
  destruct pkt as [ptype payload]. unfold full_frame_blit. cbn [fst snd].
  unfold PT_GPUPort0Data. intros H. apply andb_true_iff in H. destruct H as [Ht H].
  apply Z.eqb_eq in Ht. split; [exact Ht|].
  destruct (unpack_words payload) as [|w0 [|w1 [|w2 rest]]]; try discriminate.
  apply andb_true_iff in H. destruct H as [H Hl].
  apply andb_true_iff in H. destruct H as [H H2].
  apply andb_true_iff in H. destruct H as [H0 H1].
  apply Z.leb_le in Hl. split; [exact Hl|].
  unfold blit_signature, index. cbn [Z.ltb Z.compare Z.to_nat nth_error bind].
  change (Pos.to_nat 1) with 1%nat. change (Pos.to_nat 2) with 2%nat.
  cbn [nth_error bind]. rewrite H0, H1, H2. reflexivity.
Qed.

Lemma vram_scan_body_blit (pkt : packet) (st : option (list Z)) (pos : Z) (w : world) :
  full_frame_blit pkt = true ->
  vram_scan_body st pos pkt w
  = (Ok (Break (Some (slice (unpack_words (snd pkt)) 3 (3 + 262144)))), w).
Proof.
  intros H. destruct (full_frame_blit_words pkt H) as (Ht & Hl & Hs).
  destruct pkt as [ptype payload]. cbn [fst snd] in *. subst ptype.
  unfold vram_scan_body.
  destruct (unpack_words_length_range (List.length payload) payload (le_n _)) as [Hlen _].
  assert (4 <= len payload).
  { pose proof (len_nonneg payload).
    destruct (Z.le_gt_cases 4 (len payload)) as [|Hs4]; [assumption|].
    rewrite (Z.div_small (len payload) 4) in Hlen by lia. lia. }
  change (0 =? 0) with true. cbn [andb].
  destruct (Z.leb_spec 4 (len payload)); [|lia].
  destruct (Z.leb_spec 262147 (len (unpack_words payload))); [|lia].
  rewrite Hs, pbind_lift_ok. reflexivity.
Qed.

(** The scan stops at the first full-frame upload and takes the 262144
    words behind its three header words; later uploads are not looked at. *)
Lemma vram_scan_find (pkts : list (Z * packet * Z)) (w : world) :
  over_packets vram_scan_body pkts None w
  = (Ok (option_map (fun pkt => slice (unpack_words (snd pkt)) 3 (3 + 262144))
           (find full_frame_blit (map packet_of pkts))), w).
Proof.
  induction pkts as [|[[s pkt] e] pkts IH]; cbn [over_packets map find]; [reflexivity|].
  unfold packet_of at 1. cbn [fst snd].
  destruct (full_frame_blit pkt) eqn:E.
  - unfold pbind. rewrite vram_scan_body_blit by exact E. reflexivity.
  - unfold pbind. rewrite vram_scan_body_skip by exact E. exact IH.
Qed.

(** X17. With a valid header, the VRAM mode takes the first packet of the
    capture that is a full-frame upload (a GP0 packet of at least 3 + 262144
    words that begins with opcode 0xA0 and two zero words), whatever
    follows it, and renders exactly the 262144 words behind that packet's
    three header words. *)
Theorem main_vram_first_blit :
  forall (ppm_name txt_name : string) (data : list byte) (pkt : packet),
    parse_header data = Ok 14 ->
    find full_frame_blit (map packet_of (packets data)) = Some pkt ->
    len (slice (unpack_words (snd pkt)) 3 (3 + 262144)) = 262144 /\
    main_vram ppm_name txt_name data world0
    = emit_vram ppm_name txt_name (slice (unpack_words (snd pkt)) 3 (3 + 262144)) world0.
Proof.
  intros ppm_name txt_name data pkt Hh Hf.
  assert (Hl : len (slice (unpack_words (snd pkt)) 3 (3 + 262144)) = 262144).
  { apply find_some in Hf. destruct Hf as [_ Hb].
    destruct (full_frame_blit_words pkt Hb) as (_ & Hl & _).
    rewrite slice_len; lia. }
  split; [exact Hl|].
  unfold main_vram. rewrite Hh, !pbind_lift_ok. unfold pbind at 1.
  rewrite packets_loop, vram_scan_find, Hf. cbn [option_map].
  destruct (slice (unpack_words (snd pkt)) 3 (3 + 262144)) as [|w ws];
    [discriminate | reflexivity].
Qed.

Lemma parse_header_capture (rest : list byte) :
  parse_header (capture_header ++ rest) = Ok 14.
Proof.
  unfold parse_header. rewrite len_app. pose proof (len_nonneg rest).
  change (len capture_header) with 14.
  destruct (Z.ltb_spec (14 + len rest) 14); [lia|].
  reflexivity.
Qed.

Lemma unpack_pack_words (ws : list Z) :
  Forall (fun w => 0 <= w < 2 ^ 32) ws -> unpack_words (pack_words ws) = ws.
Proof.
  induction 1 as [|w ws Hw _ IH]; [reflexivity|].
  rewrite pack_words_cons, unpack_pack_word by exact Hw. now rewrite IH.
Qed.

Lemma vram_upload_words :
  unpack_words (snd vram_upload) = 0xA0000000 :: 0 :: 0 :: repeat 0 (Z.to_nat 262144).
Proof.
  unfold vram_upload. cbn [snd]. apply unpack_pack_words.
  do 3 (apply Forall_cons; [lia|]).
  apply Forall_forall. intros w Hw. apply repeat_spec in Hw. subst w. lia.
Qed.

Lemma vram_upload_len : len (unpack_words (snd vram_upload)) = 262147.
Proof.
  rewrite vram_upload_words, !len_cons. unfold len. rewrite repeat_length. lia.
Qed.

Lemma vram_upload_blit : full_frame_blit vram_upload = true.
Proof.
  unfold full_frame_blit. rewrite vram_upload_len. rewrite vram_upload_words.
  reflexivity.
Qed.

Lemma vram_upload_valid : valid_packet vram_upload.
Proof.
  unfold valid_packet, vram_upload. cbn [fst snd]. rewrite len_pack_words.
  assert (E : len (0xA0000000 :: 0 :: 0 :: repeat 0 (Z.to_nat 262144)) = 262147).
  { rewrite !len_cons. unfold len. rewrite repeat_length. lia. }
  rewrite E. unfold PT_GPUPort0Data. repeat split; try lia; vm_compute; congruence.
Qed.

Lemma find_cons_false {A : Type} (f : A -> bool) (x : A) (l : list A) :
  f x = false -> find f (x :: l) = find f l.
Proof. intros H. cbn [find]. now rewrite H. Qed.

Lemma find_cons_true {A : Type} (f : A -> bool) (x : A) (l : list A) :
  f x = true -> find f (x :: l) = Some x.
Proof. intros H. cbn [find]. now rewrite H. Qed.

Lemma upload_capture_packets :
  map packet_of (packets upload_capture)
  = [(PT_GPUPort1Data, pack_words [0x08000001]); vram_upload; (PT_TraceBegin, [])].
Proof.
  unfold upload_capture. rewrite packets_encoded.
  - apply packet_of_place.
  - reflexivity.
  - apply Forall_cons; [repeat split; vm_compute; congruence|].
    apply Forall_cons; [apply vram_upload_valid|].
    apply Forall_cons; [repeat split; vm_compute; congruence|]. apply Forall_nil.
  - left. reflexivity.
Qed.

Lemma main_vram_first_blit_witness :
  main_vram "dump_vram.ppm" "dump_vram_layout.txt" upload_capture world0
  = emit_vram "dump_vram.ppm" "dump_vram_layout.txt"
      (slice (unpack_words (snd vram_upload)) 3 (3 + 262144)) world0.
Proof.
  apply (main_vram_first_blit "dump_vram.ppm" "dump_vram_layout.txt"
           upload_capture vram_upload).
  - apply parse_header_capture.
  - rewrite upload_capture_packets.
    rewrite find_cons_false by reflexivity.
    apply find_cons_true, vram_upload_blit.
Defined.

(** ** VRAM mode: the preview and the image *)

Lemma In_range (n x : Z) : In x (range n) <-> 0 <= x < n.
Proof.
  unfold range. rewrite in_map_iff. split.
  - intros (k & <- & Hk). apply in_seq in Hk. lia.
  - intros Hx. exists (Z.to_nat x). split; [lia|]. apply in_seq. lia.
Qed.

Lemma length_range (n : Z) : List.length (range n) = Z.to_nat n.
Proof. unfold range. now rewrite length_map, length_seq. Qed.

Lemma range_nonneg (n : Z) : Forall (fun x => 0 <= x) (range n).
Proof. apply Forall_forall. intros x Hx. apply In_range in Hx. lia. Qed.

Lemma index_In {A : Type} (l : list A) (i : Z) (a : A) : index l i = Ok a -> In a l.
Proof. intros H. apply index_inv in H. destruct H as [_ H]. eapply nth_error_In, H. Qed.

Lemma index_raises {A : Type} (l : list A) (i : Z) (e : exn) :
  index l i = Raise e -> e = IndexError.
Proof.
  unfold index. destruct (i <? 0); [congruence|].
  destruct (nth_error l (Z.to_nat i)); congruence.
Qed.

Lemma px_to_bright_nonneg (px16 : Z) : 0 <= px_to_bright px16.
Proof.
  unfold px_to_bright.
  assert (H : forall a, 0 <= Z.land a 0x1F * 255 / 31).
  { intros a. apply Z.div_pos; [|lia].
    assert (0 <= Z.land a 0x1F) by (apply Z.land_nonneg; right; lia). lia. }
  apply Z.div_pos; [|lia].
  pose proof (H (Z.shiftr px16 0)). pose proof (H (Z.shiftr px16 5)).
  pose proof (H (Z.shiftr px16 10)). lia.
Qed.

(** Both pixels of a word are at most of brightness 230. *)
Lemma vram_pixels_dark (vram_words : list Z) :
  Forall (fun w => px_to_bright (Z.land w 0xFFFF) <= 230 /\
                   px_to_bright (Z.land (Z.shiftr w 16) 0xFFFF) <= 230) vram_words ->
  Forall (fun p => 0 <= p <= 230) (vram_pixels vram_words).
Proof.
  induction 1 as [|w ws [H0 H1] _ IH]; [constructor|].
  unfold vram_pixels. cbn [flat_map app]. fold (vram_pixels ws).
  constructor; [split; [apply px_to_bright_nonneg | exact H0]|].
  constructor; [split; [apply px_to_bright_nonneg | exact H1]|]. exact IH.
Qed.

(** The offsets [(dy, dx)] of the pixels of a block. *)
Lemma block_offsets :
  Forall (fun d : Z * Z => (0 <= fst d < 4) /\ (0 <= snd d < 4))
    (flat_map (fun dy => map (fun dx => (dy, dx)) (range 4)) (range 4)) /\
  len (flat_map (fun dy => map (fun dx => (dy, dx)) (range 4)) (range 4)) = 16.
Proof.
  split; [|reflexivity].
  apply Forall_forall. intros [dy dx] H. apply in_flat_map in H.
  destruct H as (dy' & Hdy & H). apply in_map_iff in H.
  destruct H as (dx' & E & Hdx). apply pair_inj in E. destruct E as [<- <-].
  apply In_range in Hdy, Hdx. cbn [fst snd]. lia.
Qed.

Lemma block_sum_fold (pixels : list Z) (W H block bx by_ : Z) :
  block_sum pixels W H block bx by_
  = fold_left (block_step pixels W H block bx by_)
      (flat_map (fun dy => map (fun dx => (dy, dx)) (range block)) (range block))
      (Ok (0, 0)).
Proof. reflexivity. Qed.

(** A block of pixels none of which is brighter than 230 sums up within
    230 per pixel counted. *)
Lemma block_sum_dark (pixels : list Z) (bx by_ : Z) :
  0 <= bx -> 0 <= by_ ->
  Forall (fun p => 0 <= p <= 230) pixels ->
  exists acc n, block_sum pixels 1024 512 4 bx by_ = Ok (acc, n) /\
                0 <= n /\ 0 <= acc <= 230 * n.
Proof.
  intros Hbx Hby Hp. rewrite block_sum_fold.
  destruct block_offsets as [Hds _]. revert Hds.
  generalize (flat_map (fun dy => map (fun dx => (dy, dx)) (range 4)) (range 4)).
  intros ds Hds.
  assert (Hgen : forall acc n,
             0 <= n -> 0 <= acc <= 230 * n ->
             exists acc' n',
               fold_left (block_step pixels 1024 512 4 bx by_) ds (Ok (acc, n))
               = Ok (acc', n') /\ 0 <= n' /\ 0 <= acc' <= 230 * n').
  { induction Hds as [|[dy dx] ds [Hdy Hdx] _ IH]; intros acc n Hn Hacc;
      cbn [fold_left].
    - exists acc, n. split; [reflexivity | split; assumption].
    - cbn [fst snd] in Hdy, Hdx. unfold block_step at 2. cbn [bind].
      destruct ((by_ * 4 + dy <? 512) && (bx * 4 + dx <? 1024)); [|apply IH; assumption].
      destruct (Z.ltb_spec ((by_ * 4 + dy) * 1024 + (bx * 4 + dx)) (len pixels));
        [|apply IH; assumption].
      destruct (index_ok pixels ((by_ * 4 + dy) * 1024 + (bx * 4 + dx)) ltac:(lia))
        as [p Ep].
      rewrite Ep. cbn [bind].
      apply index_In in Ep. rewrite Forall_forall in Hp. specialize (Hp p Ep).
      apply IH; lia. }
  apply Hgen; lia.
Qed.

Lemma chars_level (acc n : Z) :
  0 <= n -> 0 <= acc <= 230 * n ->
  exists c, index (list_ascii_of_string chars)
              (Z.min 9 ((if n =? 0 then 0 else acc / n) * 10 / 256)) = Ok c.
Proof.
  intros Hn Hacc. apply index_ok. change (len (list_ascii_of_string chars)) with 9.
  assert (Havg : 0 <= (if n =? 0 then 0 else acc / n) <= 230).
  { destruct (Z.eqb_spec n 0); [lia|]. split.
    - apply Z.div_pos; lia.
    - apply Z.div_le_upper_bound; lia. }
  split.
  - apply Z.min_glb; [lia|]. apply Z.div_pos; lia.
  - apply Z.min_lt_iff. right. apply Z.div_lt_upper_bound; lia.
Qed.

Lemma ascii_row_dark (pixels : list Z) (by_ : Z) (bxs : list Z) :
  0 <= by_ -> Forall (fun p => 0 <= p <= 230) pixels ->
  Forall (fun x => 0 <= x) bxs ->
  exists row, ascii_row pixels 1024 512 4 by_ bxs = Ok row /\
              String.length row = List.length bxs.
Proof.
  intros Hby Hp. induction 1 as [|bx bxs Hbx _ IH]; cbn [ascii_row].
  - exists "". split; reflexivity.
  - destruct (block_sum_dark pixels bx by_ Hbx Hby Hp) as (acc & n & -> & Hn & Hacc).
    cbn [bind]. destruct (chars_level acc n Hn Hacc) as [c ->]. cbn [bind].
    destruct IH as (row & -> & Hl). cbn [bind].
    exists (String c row). split; [reflexivity|]. cbn [String.length]. now rewrite Hl.
Qed.

Lemma ascii_rows_dark (pixels : list Z) (out_w : Z) (bys : list Z) :
  Forall (fun p => 0 <= p <= 230) pixels ->
  Forall (fun y => 0 <= y) bys ->
  exists rows, ascii_rows pixels 1024 512 4 out_w bys = Ok rows /\
               List.length rows = List.length bys /\
               Forall (fun row => String.length row = Z.to_nat (Z.min out_w 160)) rows.
Proof.
  intros Hp. induction 1 as [|by_ bys Hby _ IH]; cbn [ascii_rows].
  - exists []. repeat split. constructor.
  - destruct (ascii_row_dark pixels by_ (range (Z.min out_w 160)) Hby Hp
                (range_nonneg _)) as (row & -> & Hl).
    cbn [bind]. destruct IH as (rows & -> & Hn & Hw). cbn [bind].
    exists (row :: rows). split; [reflexivity|]. split.
    + cbn [List.length]. now rewrite Hn.
    + constructor; [|exact Hw]. now rewrite Hl, length_range.
Qed.

(** The image export reads word [idx // 2] for pixel [idx]: it succeeds
    on indexes below twice the number of words, with three bytes each. *)
Lemma ppm_pixels_ok (vram_words : list Z) (idxs : list Z) :
  Forall (fun idx => 0 <= idx < 2 * len vram_words) idxs ->
  exists body, ppm_pixels vram_words idxs = Ok body /\
               len body = 3 * len idxs.
Proof.
  induction 1 as [|idx idxs Hi _ IH]; cbn [ppm_pixels].
  - exists []. split; reflexivity.
  - destruct (index_ok vram_words (idx / 2)) as [w ->].
    { split; [apply Z.div_pos; lia | apply Z.div_lt_upper_bound; lia]. }
    cbn [bind]. destruct IH as (body & -> & Hl). cbn [bind].
    eexists. split; [reflexivity|]. rewrite !len_cons, Hl. lia.
Qed.

(** X18. A VRAM image of 262144 words, none of whose pixels is brighter
    than 230, is rendered without an error: one print of the title, an
    empty line and 120 preview rows of 160 characters, then the PPM file
    with its header and three bytes for each of the 1024 x 512 pixels, the
    layout summary file, and the two lines that name the files. *)
Theorem emit_vram_dark :
  forall (ppm_name txt_name : string) (vram_words : list Z) (w : world),
    len vram_words = 262144 ->
    Forall (fun v => px_to_bright (Z.land v 0xFFFF) <= 230 /\
                     px_to_bright (Z.land (Z.shiftr v 16) 0xFFFF) <= 230) vram_words ->
    exists (rows : list string) (body : list byte),
      emit_vram ppm_name txt_name vram_words w
      = (Ok tt,
         mk_world
           (stdout w
              ++ [join nl ("VRAM DuckStation 1024x512 (block=4, display area often 0-640 x 0-480)"
                             :: "" :: rows);
                  (nl ++ "PPM saved: " ++ ppm_name)%string;
                  ("Layout summary: " ++ txt_name)%string])
           (files w
              ++ [(ppm_name,
                   list_byte_of_string ("P6" ++ nl ++ "1024 512" ++ nl ++ "255" ++ nl)
                     ++ body);
                  (txt_name, list_byte_of_string layout_text)])) /\
      len rows = 120 /\
      Forall (fun row => String.length row = 160%nat) rows /\
      len body = 3 * (1024 * 512).
Proof.
  intros ppm_name txt_name vram_words w Hlen Hdark.
  pose proof (vram_pixels_dark vram_words Hdark) as Hp.
  destruct (ascii_rows_dark (vram_pixels vram_words) (1024 / 4) (range (Z.min (512 / 4) 120))
              Hp (range_nonneg _)) as (rows & Erows & Hn & Hw).
  destruct (ppm_pixels_ok vram_words (range (512 * 1024))) as (body & Ebody & Hb).
  { apply Forall_forall. intros idx Hi. apply In_range in Hi. lia. }
  exists rows, body. split; [|split; [|split]].
  - unfold emit_vram. cbv zeta. rewrite Erows, pbind_lift_ok.
    unfold pbind at 1, print at 1. rewrite Ebody, pbind_lift_ok.
    unfold pbind, print, write_file. cbn [stdout files].
    rewrite <- !app_assoc. reflexivity.
  - unfold len. rewrite Hn, length_range. change (Z.min (512 / 4) 120) with 120. lia.
  - exact Hw.
  - rewrite Hb. unfold len. rewrite length_range. lia.
Qed.

Lemma emit_vram_dark_witness :
  exists (rows : list string) (body : list byte),
    emit_vram "dump_vram.ppm" "dump_vram_layout.txt" (repeat 0 (Z.to_nat 262144)) world0
    = (Ok tt,
       mk_world
         (stdout world0
            ++ [join nl ("VRAM DuckStation 1024x512 (block=4, display area often 0-640 x 0-480)"
                           :: "" :: rows);
                (nl ++ "PPM saved: " ++ "dump_vram.ppm")%string;
                ("Layout summary: " ++ "dump_vram_layout.txt")%string])
         (files world0
            ++ [("dump_vram.ppm",
                 list_byte_of_string ("P6" ++ nl ++ "1024 512" ++ nl ++ "255" ++ nl)
                   ++ body);
                ("dump_vram_layout.txt", list_byte_of_string layout_text)])) /\
    len rows = 120 /\
    Forall (fun row => String.length row = 160%nat) rows /\
    len body = 3 * (1024 * 512).
Proof.
  apply (emit_vram_dark "dump_vram.ppm" "dump_vram_layout.txt"
           (repeat 0 (Z.to_nat 262144)) world0).
  - unfold len. rewrite repeat_length. lia.
  - apply Forall_forall. intros v Hv. apply repeat_spec in Hv. subst v.
    split; vm_compute; discriminate.
Defined.

(** ** VRAM mode: the preview of a bright block *)

Lemma block_sum_raises (pixels : list Z) (W H block bx by_ : Z) (e : exn) :
  block_sum pixels W H block bx by_ = Raise e -> e = IndexError.
Proof.
  rewrite block_sum_fold.
  generalize (flat_map (fun dy => map (fun dx => (dy, dx)) (range block)) (range block)).
  intros ds.
  assert (Hgen : forall st : res (Z * Z),
             (forall e0, st = Raise e0 -> e0 = IndexError) ->
             forall e0, fold_left (block_step pixels W H block bx by_) ds st = Raise e0 ->
                        e0 = IndexError).
  { induction ds as [|[dy dx] ds IH]; intros st Hst; cbn [fold_left]; [exact Hst|].
    apply IH. intros e0. unfold block_step. destruct st as [[acc n]|e1]; cbn [bind].
    - destruct ((by_ * block + dy <? H) && (bx * block + dx <? W)); [|discriminate].
      destruct ((by_ * block + dy) * W + (bx * block + dx) <? len pixels); [|discriminate].
      destruct (index pixels ((by_ * block + dy) * W + (bx * block + dx))) eqn:E;
        cbn [bind]; [discriminate|].
      intros E0. apply index_raises in E. congruence.
    - intros E0. specialize (Hst e1 eq_refl). congruence. }
  apply Hgen. discriminate.
Qed.

Lemma ascii_row_raises (pixels : list Z) (W H block by_ : Z) (bxs : list Z) (e : exn) :
  ascii_row pixels W H block by_ bxs = Raise e -> e = IndexError.
Proof.
  revert e. induction bxs as [|bx bxs IH]; intros e; cbn [ascii_row]; [discriminate|].
  destruct (block_sum pixels W H block bx by_) as [[acc n]|e0] eqn:E; cbn [bind].
  - destruct (index (list_ascii_of_string chars)
                (Z.min 9 ((if n =? 0 then 0 else acc / n) * 10 / 256))) eqn:Ec; cbn [bind].
    + destruct (ascii_row pixels W H block by_ bxs) eqn:Er; cbn [bind]; [discriminate|].
      intros E0. specialize (IH _ eq_refl). congruence.
    + intros E0. apply index_raises in Ec. congruence.
  - intros E0. apply block_sum_raises in E. congruence.
Qed.

(** A block whose sixteen pixels are all there and of brightness 231 or
    more sums up to at least 231 per pixel. *)
Lemma block_sum_bright (pixels : list Z) (bx by_ : Z) :
  0 <= bx < 160 -> 0 <= by_ < 120 ->
  (forall dy dx, 0 <= dy < 4 -> 0 <= dx < 4 ->
     exists p, index pixels ((by_ * 4 + dy) * 1024 + (bx * 4 + dx)) = Ok p /\ 231 <= p) ->
  exists acc, block_sum pixels 1024 512 4 bx by_ = Ok (acc, 16) /\ 231 * 16 <= acc.
Proof.
  intros Hbx Hby Hp. rewrite block_sum_fold.
  destruct block_offsets as [Hds Hl]. revert Hds Hl.
  generalize (flat_map (fun dy => map (fun dx => (dy, dx)) (range 4)) (range 4)).
  intros ds Hds Hl.
  assert (Hgen : forall acc n,
             exists acc',
               fold_left (block_step pixels 1024 512 4 bx by_) ds (Ok (acc, n))
               = Ok (acc', n + len ds) /\ acc + 231 * len ds <= acc').
  { clear Hl. induction Hds as [|[dy dx] ds [Hdy Hdx] _ IH]; intros acc n;
      cbn [fold_left].
    - exists acc. change (len (@nil (Z * Z))) with 0. split; [f_equal; f_equal|]; lia.
    - cbn [fst snd] in Hdy, Hdx. unfold block_step at 2. cbn [bind].
      destruct (Hp dy dx Hdy Hdx) as (p & Ep & Hbright).
      pose proof (index_inv _ _ _ Ep) as [Hidx _].
      destruct (Z.ltb_spec (by_ * 4 + dy) 512); [|lia].
      destruct (Z.ltb_spec (bx * 4 + dx) 1024); [|lia]. cbn [andb].
      destruct (Z.ltb_spec ((by_ * 4 + dy) * 1024 + (bx * 4 + dx)) (len pixels)); [|lia].
      rewrite Ep. cbn [bind].
      destruct (IH (acc + p) (n + 1)) as (acc' & -> & Hacc).
      exists acc'. rewrite len_cons. split; [f_equal; f_equal|]; lia. }
  destruct (Hgen 0 0) as (acc & E & Hacc). rewrite Hl in *.
  exists acc. split; [exact E | lia].
Qed.

Lemma ascii_row_bright (pixels : list Z) (bx by_ : Z) (bxs : list Z) :
  0 <= bx < 160 -> 0 <= by_ < 120 ->
  (forall dy dx, 0 <= dy < 4 -> 0 <= dx < 4 ->
     exists p, index pixels ((by_ * 4 + dy) * 1024 + (bx * 4 + dx)) = Ok p /\ 231 <= p) ->
  In bx bxs ->
  ascii_row pixels 1024 512 4 by_ bxs = Raise IndexError.
Proof.
  intros Hbx Hby Hp. induction bxs as [|x bxs IH]; intros Hin; [contradiction|].
  cbn [ascii_row].
  destruct (block_sum pixels 1024 512 4 x by_) as [[acc n]|e0] eqn:E; cbn [bind].
  2: { apply block_sum_raises in E. now subst e0. }
  destruct (index (list_ascii_of_string chars)
              (Z.min 9 ((if n =? 0 then 0 else acc / n) * 10 / 256))) as [c|e1] eqn:Ec;
    cbn [bind].
  2: { apply index_raises in Ec. now subst e1. }
  destruct Hin as [->|Hin]; [|now rewrite (IH Hin)].
  exfalso. destruct (block_sum_bright pixels bx by_ Hbx Hby Hp) as (acc' & E' & Hacc).
  rewrite E' in E. ok_pair E Ha Hn. subst acc' n.
  change (16 =? 0) with false in Ec. cbv iota in Ec.
  assert (Havg : 231 <= acc / 16) by (apply Z.div_le_lower_bound; lia).
  assert (Hlvl : 9 <= acc / 16 * 10 / 256) by (apply Z.div_le_lower_bound; lia).
  rewrite Z.min_l in Ec by exact Hlvl. discriminate.
Qed.

Lemma ascii_rows_bright (pixels : list Z) (out_w bx by_ : Z) (bys : list Z) :
  0 <= bx < 160 -> bx < out_w -> 0 <= by_ < 120 ->
  (forall dy dx, 0 <= dy < 4 -> 0 <= dx < 4 ->
     exists p, index pixels ((by_ * 4 + dy) * 1024 + (bx * 4 + dx)) = Ok p /\ 231 <= p) ->
  In by_ bys ->
  ascii_rows pixels 1024 512 4 out_w bys = Raise IndexError.
Proof.
  intros Hbx Hw Hby Hp. induction bys as [|y bys IH]; intros Hin; [contradiction|].
  cbn [ascii_rows].
  destruct (ascii_row pixels 1024 512 4 y (range (Z.min out_w 160))) as [row|e0] eqn:E;
    cbn [bind].
  2: { apply ascii_row_raises in E. now subst e0. }
  destruct Hin as [->|Hin]; [|now rewrite (IH Hin)].
  rewrite (ascii_row_bright pixels bx by_ _ Hbx Hby Hp) in E; [discriminate|].
  apply In_range. lia.
Qed.

(** X19. The brightness scale has nine characters, but a block whose
    average brightness is 231 or more asks for a tenth: when one of the
    160 x 120 previewed blocks has sixteen pixels of brightness 231 or
    more, the VRAM mode ends in IndexError before anything is printed or
    written. *)
Theorem emit_vram_bright_block :
  forall (ppm_name txt_name : string) (vram_words : list Z) (bx by_ : Z) (w : world),
    0 <= bx < 160 -> 0 <= by_ < 120 ->
    (forall dy dx, 0 <= dy < 4 -> 0 <= dx < 4 ->
       exists p, index (vram_pixels vram_words) ((by_ * 4 + dy) * 1024 + (bx * 4 + dx)) = Ok p
                 /\ 231 <= p) ->
    emit_vram ppm_name txt_name vram_words w = (Raise IndexError, w).
Proof.
  intros ppm_name txt_name vram_words bx by_ w Hbx Hby Hp.
  unfold emit_vram. cbv zeta.
  rewrite (ascii_rows_bright (vram_pixels vram_words) (1024 / 4) bx by_ _ Hbx).
  - reflexivity.
  - change (1024 / 4) with 256. lia.
  - exact Hby.
  - exact Hp.
  - apply In_range. change (Z.min (512 / 4) 120) with 120. lia.
Qed.

Lemma emit_vram_bright_block_witness :
  emit_vram "dump_vram.ppm" "dump_vram_layout.txt" (repeat 0x7FFF7FFF 1538) world0
  = (Raise IndexError, world0).
Proof.
  apply (emit_vram_bright_block "dump_vram.ppm" "dump_vram_layout.txt"
           (repeat 0x7FFF7FFF 1538) 0 0 world0); [lia | lia |].
  intros dy dx Hdy Hdx. exists 255.
  assert (Ey : dy = 0 \/ dy = 1 \/ dy = 2 \/ dy = 3) by lia.
  assert (Ex : dx = 0 \/ dx = 1 \/ dx = 2 \/ dx = 3) by lia.
  split; [|lia].
  destruct Ey as [->|[->|[->| ->]]]; destruct Ex as [->|[->|[->| ->]]];
    vm_compute; reflexivity.
Defined.

(** ** Frame mode: no frame named *)

Lemma pbind_print {B : Type} (s : string) (k : unit -> proc B) (w : world) :
  pbind (print s) k w = k tt (mk_world (stdout w ++ [s]) (files w)).
Proof. reflexivity. Qed.

(** Once the frame counter is past the requested frame, the second pass
    prints and counts nothing more. *)
Lemma second_pass_past (frame_idx : option Z) (target : Z)
    (pkts : list (Z * packet * Z)) :
  forall (st : pass2) (w : world),
    target < current_frame st ->
    exists st',
      over_packets (second_pass_body frame_idx target) pkts st w = (Ok st', w) /\
      pkt_count st' = pkt_count st.
Proof.
  induction pkts as [|[[s [pt pl]] e] pkts IH]; intros st w Hc;
    cbn [over_packets].
  - exists st. split; reflexivity.
  - assert (Hne : (current_frame st =? target) = false) by (apply Z.eqb_neq; lia).
    assert (Hne1 : (current_frame st + 1 =? target) = false) by (apply Z.eqb_neq; lia).
    unfold second_pass_body at 1. rewrite Hne, Hne1.
    rewrite andb_false_r, orb_true_r.
    destruct (pt =? PT_TraceBegin).
    + rewrite pbind_pret. apply (IH (mk_pass2 _ _ _)). cbn [current_frame]. lia.
    + destruct (pt =? PT_VSyncEvent).
      * rewrite pbind_assoc, pbind_pret.
        destruct ((target <? current_frame st + 1) && is_int frame_idx).
        -- rewrite pbind_pret. eexists. split; reflexivity.
        -- rewrite pbind_pret. apply (IH (mk_pass2 _ _ _)). cbn [current_frame]. lia.
      * rewrite pbind_pret. apply IH. exact Hc.
Qed.

(** Up to the end of frame 0 the second pass takes the same steps with
    and without a frame named; behind it, one run stops and the other
    goes on silently. *)
Lemma second_pass_default (pkts : list (Z * packet * Z)) :
  forall (st : pass2) (w : world),
    current_frame st <= 0 ->
    exists st1 st2 w',
      over_packets (second_pass_body None 0) pkts st w = (Ok st1, w') /\
      over_packets (second_pass_body (Some 0) 0) pkts st w = (Ok st2, w') /\
      pkt_count st1 = pkt_count st2.
Proof.
  induction pkts as [|[[s [pt pl]] e] pkts IH]; intros st w Hc;
    cbn [over_packets].
  - exists st, st, w. repeat split.
  - unfold second_pass_body at 1 3.
    destruct (pt =? PT_TraceBegin).
    + destruct (Z.eqb_spec (current_frame st + 1) 0) as [E|E].
      * rewrite !pbind_assoc, !pbind_print, !pbind_pret.
        apply (IH (mk_pass2 _ _ _)). cbn [current_frame]. lia.
      * rewrite !pbind_pret.
        destruct (Z.le_gt_cases (current_frame st + 1) 0) as [Hle|Hgt].
        -- apply (IH (mk_pass2 _ _ _)). cbn [current_frame]. lia.
        -- destruct (second_pass_past None 0 pkts
                       (mk_pass2 (current_frame st + 1) (dumping st) (pkt_count st)) w)
             as (st1 & E1 & H1); [cbn [current_frame]; lia|].
           destruct (second_pass_past (Some 0) 0 pkts
                       (mk_pass2 (current_frame st + 1) (dumping st) (pkt_count st)) w)
             as (st2 & E2 & H2); [cbn [current_frame]; lia|].
           exists st1, st2, w. rewrite E1, E2. repeat split. congruence.
    + destruct (pt =? PT_VSyncEvent).
      * rewrite !pbind_assoc.
        assert (Hpr : exists w1,
                   (if dumping st && (current_frame st =? 0) then print "  VSync"
                    else pret tt) w = (Ok tt, w1)).
        { destruct (dumping st && (current_frame st =? 0)); eexists; reflexivity. }
        destruct Hpr as [w1 Hpr]. unfold pbind at 1 3. rewrite Hpr.
        cbn [is_int]. rewrite andb_false_r, andb_true_r.
        destruct (Z.ltb_spec 0 (current_frame st + 1)) as [Hgt|Hle].
        -- destruct (Z.eqb_spec (current_frame st + 1) 0) as [E|_]; [lia|].
           rewrite !pbind_pret.
           destruct (second_pass_past None 0 pkts
                       (mk_pass2 (current_frame st + 1) (dumping st) (pkt_count st)) w1)
             as (st1 & E1 & H1); [cbn [current_frame]; lia|].
           exists st1, (mk_pass2 (current_frame st + 1) (dumping st) (pkt_count st)), w1.
           rewrite E1. repeat split. exact H1.
        -- destruct (current_frame st + 1 =? 0); rewrite !pbind_pret;
             apply (IH (mk_pass2 _ _ _)); cbn [current_frame]; lia.
      * destruct (negb (dumping st) || negb (current_frame st =? 0)).
        -- rewrite !pbind_pret. apply IH. exact Hc.
        -- rewrite !pbind_assoc.
           destruct (emit_packet_ok (pt, pl) w) as [lines El].
           unfold pbind at 1 3. rewrite El. rewrite !pbind_pret.
           apply (IH (mk_pass2 _ _ _)). cbn [current_frame]. exact Hc.
Qed.

Lemma parse_header_14 (data : list byte) (p : Z) : parse_header data = Ok p -> p = 14.
Proof.
  unfold parse_header.
  destruct ((len data <? 14) || negb (bytes_eqb (slice data 0 10) magic));
    [discriminate|]. intros H. now apply Ok_inj in H.
Qed.

(** X21. Run without a frame argument, the frame mode prints exactly what
    it prints for frame 0, and ends the same way, on every buffer: the
    only difference is that it reads on to the end of the capture where
    the run for frame 0 stops at the VSync that ends the frame. *)
Theorem main_frame_default_is_frame_0 :
  forall data : list byte,
    main_frame data None world0 = main_frame data (Some 0) world0.
Proof.
  intros data. destruct (parse_header data) as [p|ex] eqn:Hh.
  2: { unfold main_frame. rewrite Hh. reflexivity. }
  pose proof (parse_header_14 data p Hh). subst p.
  rewrite !main_frame_passes by exact Hh.
  destruct (frame_starts false (packets data)) as [|o offs]; [reflexivity|].
  change (0 =? 0) with true.
  destruct (second_pass_default (packets data) (mk_pass2 (-1) true 0) world0)
    as (st1 & st2 & w' & E1 & E2 & Hk); [cbn [current_frame]; lia|].
  unfold pbind. rewrite E1, E2, Hk. reflexivity.
Qed.

(** ** VRAM mode: the preview and the image address the same pixels *)

Lemma index_0 {A : Type} (a : A) (l : list A) : index (a :: l) 0 = Ok a.
Proof. reflexivity. Qed.


Lemma len_vram_pixels (vram_words : list Z) :
  len (vram_pixels vram_words) = 2 * len vram_words.
Proof.
  induction vram_words as [|w ws IH]; [reflexivity|].
  unfold vram_pixels. cbn [flat_map app]. fold (vram_pixels ws).
  rewrite !len_cons, IH. lia.
Qed.





(** ** Drawing environment commands *)

Lemma land_low (a b n : Z) :
  0 <= n -> 0 <= b < 2 ^ n -> Z.land (a * 2 ^ n + b) (Z.ones n) = b.
Proof.
  intros Hn Hb. rewrite Z.land_ones by exact Hn.
  rewrite Z.add_comm, Z.mod_add by lia. apply Z.mod_small. exact Hb.
Qed.

Lemma shiftr_high (a b n : Z) :
  0 <= n -> 0 <= b < 2 ^ n -> Z.shiftr (a * 2 ^ n + b) n = a.
Proof.
  intros Hn Hb. rewrite Z.shiftr_div_pow2 by exact Hn.
  rewrite Z.add_comm, Z.div_add by lia. rewrite Z.div_small by exact Hb. lia.
Qed.

Lemma sign_extend_11_mod (x : Z) :
  -1024 <= x <= 1023 -> sign_extend_11 (x mod 2 ^ 11) = x.
Proof.
  intros Hx. change (2 ^ 11) with 2048.
  assert (Hm : 0 <= x mod 2048 < 2048) by (apply Z.mod_pos_bound; lia).
  rewrite sign_extend_11_field by lia.
  destruct (Z.le_gt_cases 0 x) as [Hp|Hn].
  - rewrite Z.mod_small by lia. destruct (Z.ltb_spec x 1024); lia.
  - replace (x mod 2048) with (x + 2048).
    + destruct (Z.ltb_spec (x + 2048) 1024); lia.
    + apply Z.mod_unique with (q := -1); lia.
Qed.

(** X24. The environment decoder reads back what the command words
    encode: a clip corner [(x, y)] with [x] below 1024 and [y] below 512
    is printed as written, under the name of its opcode; a draw offset
    [(ox, oy)] between -1024 and 1023 is printed with its signs, [oy]
    taken from bits 11-21. *)
Theorem parse_gp0_env_roundtrip :
  (forall x y, 0 <= x < 1024 -> 0 <= y < 512 ->
     parse_gp0_env (clip_word 0xE3 x y)
     = ("  GP0 CLIP_TL (" ++ str x ++ "," ++ str y ++ ")")%string /\
     parse_gp0_env (clip_word 0xE4 x y)
     = ("  GP0 CLIP_BR (" ++ str x ++ "," ++ str y ++ ")")%string) /\
  (forall ox oy, -1024 <= ox <= 1023 -> -1024 <= oy <= 1023 ->
     parse_gp0_env (draw_offset_word ox oy)
     = ("  GP0 DRAW_OFFSET (" ++ str ox ++ "," ++ str oy ++ ")")%string).
Proof.
  split.
  - intros x y Hx Hy.
    assert (Hclip : forall cmd, 0 <= cmd < 256 ->
               Z.land (Z.shiftr (clip_word cmd x y) 24) 0xFF = cmd /\
               Z.land (clip_word cmd x y) 0x3FF = x /\
               Z.land (Z.shiftr (clip_word cmd x y) 10) 0x1FF = y).
    { intros cmd Hc. unfold clip_word. repeat split.
      - rewrite <- Z.add_assoc, shiftr_high by lia.
        change 0xFF with (Z.ones 8). rewrite Z.land_ones by lia.
        apply Z.mod_small. lia.
      - replace (cmd * 2 ^ 24 + y * 2 ^ 10 + x)
          with ((cmd * 2 ^ 14 + y) * 2 ^ 10 + x) by lia.
        apply (land_low _ x 10); lia.
      - replace (cmd * 2 ^ 24 + y * 2 ^ 10 + x)
          with ((cmd * 2 ^ 14 + y) * 2 ^ 10 + x) by lia.
        rewrite shiftr_high by lia.
        replace (cmd * 2 ^ 14 + y) with ((cmd * 2 ^ 5) * 2 ^ 9 + y) by lia.
        apply (land_low _ y 9); lia. }
    split.
    + destruct (Hclip 0xE3 ltac:(lia)) as (Hc & Hx' & Hy').
      unfold parse_gp0_env. cbv zeta. rewrite Hc, Hx', Hy'. reflexivity.
    + destruct (Hclip 0xE4 ltac:(lia)) as (Hc & Hx' & Hy').
      unfold parse_gp0_env. cbv zeta. rewrite Hc, Hx', Hy'. reflexivity.
  - intros ox oy Hox Hoy.
    assert (Hmx : 0 <= ox mod 2 ^ 11 < 2 ^ 11) by (apply Z.mod_pos_bound; lia).
    assert (Hmy : 0 <= oy mod 2 ^ 11 < 2 ^ 11) by (apply Z.mod_pos_bound; lia).
    assert (Hc : Z.land (Z.shiftr (draw_offset_word ox oy) 24) 0xFF = 0xE5).
    { unfold draw_offset_word. rewrite <- Z.add_assoc, shiftr_high by lia. reflexivity. }
    assert (Hx : Z.land (draw_offset_word ox oy) 0x7FF = ox mod 2 ^ 11).
    { unfold draw_offset_word.
      replace (0xE5 * 2 ^ 24 + oy mod 2 ^ 11 * 2 ^ 11 + ox mod 2 ^ 11)
        with ((0xE5 * 2 ^ 13 + oy mod 2 ^ 11) * 2 ^ 11 + ox mod 2 ^ 11) by lia.
      apply (land_low _ _ 11); lia. }
    assert (Hy : Z.land (Z.shiftr (draw_offset_word ox oy) 11) 0x7FF = oy mod 2 ^ 11).
    { unfold draw_offset_word.
      replace (0xE5 * 2 ^ 24 + oy mod 2 ^ 11 * 2 ^ 11 + ox mod 2 ^ 11)
        with ((0xE5 * 2 ^ 13 + oy mod 2 ^ 11) * 2 ^ 11 + ox mod 2 ^ 11) by lia.
      rewrite shiftr_high by lia.
      replace (0xE5 * 2 ^ 13 + oy mod 2 ^ 11)
        with ((0xE5 * 2 ^ 2) * 2 ^ 11 + oy mod 2 ^ 11) by lia.
      apply (land_low _ _ 11); lia. }
    unfold parse_gp0_env. cbv zeta. rewrite Hc, Hx, Hy.
    rewrite !sign_extend_11_mod by assumption. reflexivity.
Qed.

Lemma parse_gp0_env_roundtrip_witness :
  parse_gp0_env (clip_word 0xE4 639 479) = "  GP0 CLIP_BR (639,479)" /\
  parse_gp0_env (draw_offset_word (-3) 2) = "  GP0 DRAW_OFFSET (-3,2)".
Proof.
  destruct parse_gp0_env_roundtrip as [Hclip Hoff]. split.
  - apply (Hclip 639 479); lia.
  - apply (Hoff (-3) 2); lia.
Defined.

(** ** The listing modes *)

Lemma pbind_ok {A B : Type} (m : proc A) (k : A -> proc B) (w : world) (a : A)
    (w' : world) :
  m w = (Ok a, w') -> pbind m k w = k a w'.
Proof. intros H. unfold pbind. now rewrite H. Qed.

(** Running the binds at the head of a computation. *)
Ltac run_proc :=
  repeat (rewrite pbind_assoc || rewrite pbind_print || rewrite pbind_pret
          || rewrite pbind_lift_ok).

(** Without content the listing loop prints the listing of the packets it
    is allowed to number: those from [pos] on, as long as [n] stays below
    200. *)
Lemma list_loop_listing (data : list byte) :
  forall (fuel : nat) (pos n : Z) (w : world),
    len data - pos <= Z.of_nat fuel ->
    list_loop fuel data false pos n w
    = (Ok tt,
       mk_world (stdout w ++ listing n (firstn (Z.to_nat (200 - n)) (read_packets fuel data pos)))
                (files w)).
Proof.
  induction fuel as [|fuel IH]; intros pos n w Hf; cbn [list_loop read_packets].
  - destruct (Z.ltb_spec pos (len data)); [lia|]. cbn [andb].
    rewrite firstn_nil. cbn [listing]. unfold pret. now rewrite world_eta.
  - destruct (Z.ltb_spec pos (len data)); cbn [andb].
    2: { rewrite firstn_nil. cbn [listing]. unfold pret. now rewrite world_eta. }
    destruct (Z.ltb_spec n 200) as [Hn|Hn].
    2: { replace (Z.to_nat (200 - n)) with 0%nat by lia. cbn [firstn listing].
         unfold pret. now rewrite world_eta. }
    destruct (get_next_packet_total data pos) as (r & pos' & E).
    rewrite E, pbind_lift_ok. destruct r as [[ptype payload]|].
    2: { rewrite firstn_nil. cbn [listing]. unfold pret. now rewrite world_eta. }
    replace (Z.to_nat (200 - n)) with (S (Z.to_nat (200 - (n + 1)))) by lia.
    cbn [firstn listing]. unfold ptype_of, packet_of, list_line. cbn [fst snd].
    unfold list_body. cbn [andb]. run_proc.
    unfold PT_TraceBegin. destruct (ptype =? 5).
    + run_proc. unfold pret. cbn [stdout files]. now rewrite <- app_assoc.
    + run_proc. rewrite IH by (apply get_next_packet_progress in E; lia).
      cbn [stdout files]. now rewrite <- app_assoc.
Qed.

Lemma listing_length (pkts : list (Z * packet * Z)) :
  forall n, len (listing n pkts) <= len pkts + 1.
Proof.
  induction pkts as [|x pkts IH]; intros n; cbn [listing]; [cbn; lia|].
  rewrite !len_cons. destruct (ptype_of x =? PT_TraceBegin).
  - pose proof (len_nonneg pkts). change (len ["  ^ TraceBegin"]) with 1. lia.
  - specialize (IH (n + 1)). lia.
Qed.

(** X22. On a capture with a valid header the [--list] mode prints one
    line for each packet, numbered from 0, with the packet's type, its
    name and its length in words; it stops behind the first TraceBegin,
    which it marks with a line of its own, and never numbers more than
    200 packets.  It returns normally, writes no file and prints at most
    201 lines. *)
Theorem main_list_listing :
  forall data : list byte,
    parse_header data = Ok 14 ->
    main_list data false world0
    = (Ok tt, mk_world (listing 0 (firstn 200 (packets data))) []) /\
    len (listing 0 (firstn 200 (packets data))) <= 201.
Proof.
  intros data Hh. split.
  - unfold main_list. rewrite Hh, !pbind_lift_ok.
    rewrite list_loop_listing by (unfold len; lia). reflexivity.
  - pose proof (listing_length (firstn 200 (packets data)) 0) as H.
    assert (len (firstn 200 (packets data)) <= 200).
    { unfold len. rewrite length_firstn. lia. }
    lia.
Qed.

Lemma main_list_listing_witness :
  main_list frames_capture false world0
  = (Ok tt, mk_world (listing 0 (firstn 200 (packets frames_capture))) []) /\
  len (listing 0 (firstn 200 (packets frames_capture))) <= 201.
Proof. apply main_list_listing. reflexivity. Defined.

Lemma blit_signature_guarded (words : list Z) :
  exists b, (if 3 <=? len words then blit_signature words else Ok false) = Ok b.
Proof.
  destruct (Z.leb_spec 3 (len words)); [|eauto].
  unfold blit_signature.
  destruct (index_ok words 0 ltac:(lia)) as [w0 ->]. cbn [bind].
  destruct (Z.shiftr w0 24 =? 0xA0); [|eauto].
  destruct (index_ok words 1 ltac:(lia)) as [w1 ->]. cbn [bind].
  destruct (w1 =? 0); [|eauto].
  destruct (index_ok words 2 ltac:(lia)) as [w2 ->]. cbn [bind]. eauto.
Qed.

(** In both listing modes the body of the loop never raises and writes
    no file. *)
Lemma list_body_ok (dump_content : bool) (n : Z) (pkt : packet) (w : world) :
  exists c lines,
    list_body dump_content n pkt w = (Ok c, mk_world (stdout w ++ lines) (files w)).
Proof.
  destruct pkt as [ptype payload]. unfold list_body.
  rewrite pbind_print.
  match goal with |- context [mk_world (stdout w ++ [?l]) (files w)] =>
    set (w1 := mk_world (stdout w ++ [l]) (files w)) end.
  assert (H1 : exists lines1,
             (if dump_content && (ptype =? 0) && (4 <=? len payload) then
                let words := unpack_words payload in
                if len words <=? 20 then
                  lines <~ lift (parse_gp0_stream words) ;;
                  print_all (map (fun l : op => ("       " ++ strip (snd l))%string) lines)
                else
                  vram_init <~ lift (if 3 <=? len words then blit_signature words
                                     else Ok false) ;;
                  if (vram_init : bool) then
                    print ("       [VRAM init " ++ str (len words - 3) ++ " words]")%string
                  else pret tt
              else pret tt) w1
             = (Ok tt, mk_world (stdout w1 ++ lines1) (files w1))).
  { destruct (dump_content && (ptype =? 0) && (4 <=? len payload)).
    2: { exists []. unfold pret. now rewrite world_eta. }
    cbv zeta. destruct (len (unpack_words payload) <=? 20).
    - destruct (parse_gp0_stream_total (unpack_words payload)) as (lines & -> & _).
      rewrite pbind_lift_ok, print_all_spec. eauto.
    - destruct (blit_signature_guarded (unpack_words payload)) as [b ->].
      rewrite pbind_lift_ok. destruct b.
      + eexists. reflexivity.
      + exists []. unfold pret. now rewrite world_eta. }
  destruct H1 as [lines1 H1]. rewrite (pbind_ok _ _ w1 tt _ H1).
  set (w2 := mk_world (stdout w1 ++ lines1) (files w1)).
  assert (H2 : exists lines2,
             (if dump_content && (ptype =? 1) && (4 <=? len payload) then
                w <~ lift (unpack_u32 payload 0) ;;
                print ("       GP1 0x" ++ fmt_X 2 (Z.land (Z.shiftr w 24) 0x3F)
                         ++ " = 0x" ++ fmt_X 8 w)%string
              else pret tt) w2
             = (Ok tt, mk_world (stdout w2 ++ lines2) (files w2))).
  { destruct (dump_content && (ptype =? 1) && (4 <=? len payload)) eqn:E.
    2: { exists []. unfold pret. now rewrite world_eta. }
    apply andb_true_iff in E. destruct E as [_ E]. apply Z.leb_le in E.
    unfold unpack_u32. destruct (Z.ltb_spec (len payload) (0 + 4)); [lia|].
    rewrite pbind_lift_ok. eexists. reflexivity. }
  destruct H2 as [lines2 H2]. rewrite (pbind_ok _ _ w2 tt _ H2).
  subst w1 w2. cbn [stdout files].
  destruct (ptype =? 5).
  - rewrite pbind_print. unfold pret. cbn [stdout files].
    rewrite <- !app_assoc. eauto.
  - unfold pret. rewrite <- !app_assoc. eauto.
Qed.

Lemma list_loop_ok (data : list byte) (dump_content : bool) :
  forall (fuel : nat) (pos n : Z) (w : world),
    len data - pos <= Z.of_nat fuel ->
    exists lines,
      list_loop fuel data dump_content pos n w
      = (Ok tt, mk_world (stdout w ++ lines) (files w)).
Proof.
  induction fuel as [|fuel IH]; intros pos n w Hf; cbn [list_loop].
  - destruct (Z.ltb_spec pos (len data)); [lia|]. cbn [andb].
    exists []. unfold pret. now rewrite world_eta.
  - destruct ((pos <? len data) && (n <? 200)).
    2: { exists []. unfold pret. now rewrite world_eta. }
    destruct (get_next_packet_total data pos) as (r & pos' & E).
    rewrite E, pbind_lift_ok. destruct r as [pkt|].
    2: { exists []. unfold pret. now rewrite world_eta. }
    destruct (list_body_ok dump_content n pkt w) as (c & lines & Eb).
    unfold pbind. rewrite Eb. destruct c as [n'|n'].
    + destruct (IH pos' n' (mk_world (stdout w ++ lines) (files w))) as [lines' ->].
      { apply get_next_packet_progress in E. lia. }
      cbn [stdout files]. rewrite <- app_assoc. eauto.
    + unfold pret. eauto.
Qed.

(** X23. The listing modes cannot fail behind the header check: on every
    buffer, [--list] and [--pre-trace] either raise ValueError for a bad
    header, with nothing printed, or print their lines and return
    normally; decoding the content of any packet raises nothing, and no
    file is written. *)
Theorem main_list_outcomes :
  forall (data : list byte) (dump_content : bool),
    (parse_header data = Raise ValueError /\
     main_list data dump_content world0 = (Raise ValueError, world0)) \/
    (parse_header data = Ok 14 /\
     exists lines, main_list data dump_content world0 = (Ok tt, mk_world lines [])).
Proof.
  intros data dump_content. destruct (parse_header data) as [p|ex] eqn:Hh.
  - pose proof (parse_header_14 data p Hh). subst p. right. split; [reflexivity|].
    unfold main_list. rewrite Hh, !pbind_lift_ok.
    destruct (list_loop_ok data dump_content (List.length data) 14 0 world0) as [lines ->].
    { unfold len. lia. }
    exists lines. reflexivity.
  - left. unfold main_list. rewrite Hh. unfold parse_header in Hh.
    destruct ((len data <? 14) || negb (bytes_eqb (slice data 0 10) magic));
      [|discriminate].
    apply (f_equal (fun r => match r with Raise x => x | Ok _ => ValueError end)) in Hh.
    subst ex. split; reflexivity.
Qed.

(** ** Frame mode: the frame a number selects *)

(** Before the requested frame the second pass only counts markers. *)
Lemma second_pass_before (frame_idx : option Z) (target : Z)
    (pre rest : list (Z * packet * Z)) :
  forall (st : pass2) (w : world),
    current_frame st + len (filter is_marker pre) < target ->
    over_packets (second_pass_body frame_idx target) (pre ++ rest) st w
    = over_packets (second_pass_body frame_idx target) rest
        (mk_pass2 (current_frame st + len (filter is_marker pre)) (dumping st)
           (pkt_count st)) w.
Proof.
  induction pre as [|[[s [pt pl]] e] pre IH]; intros st w Hc;
    cbn [app over_packets filter].
  - change (len (@nil (Z * packet * Z))) with 0. rewrite Z.add_0_r.
    destruct st; reflexivity.
  - cbn [filter] in Hc.
    change (is_marker (s, (pt, pl), e))
      with ((pt =? PT_TraceBegin) || (pt =? PT_VSyncEvent)) in *.
    pose proof (len_nonneg (filter is_marker pre)) as Hnn.
    unfold second_pass_body at 1.
    destruct (pt =? PT_TraceBegin); cbn [orb] in Hc |- *.
    + rewrite len_cons in Hc |- *.
      destruct (Z.eqb_spec (current_frame st + 1) target); [lia|].
      rewrite pbind_pret, IH by (cbn [current_frame]; lia).
      cbn [current_frame dumping pkt_count]. do 2 f_equal. lia.
    + destruct (pt =? PT_VSyncEvent); cbn [orb] in Hc |- *.
      * rewrite len_cons in Hc |- *.
        destruct (Z.eqb_spec (current_frame st) target); [lia|].
        rewrite andb_false_r, pbind_assoc, pbind_pret.
        destruct (Z.ltb_spec target (current_frame st + 1)); [lia|]. cbn [andb].
        destruct (Z.eqb_spec (current_frame st + 1) target); [lia|].
        rewrite pbind_pret, IH by (cbn [current_frame]; lia).
        cbn [current_frame dumping pkt_count]. do 2 f_equal. lia.
      * destruct (Z.eqb_spec (current_frame st) target); [lia|].
        cbn [negb]. rewrite orb_true_r, pbind_pret. apply IH. exact Hc.
Qed.

Lemma emit_packets_ok (pkts : list packet) :
  forall w, exists lines,
    emit_packets pkts w = (Ok tt, mk_world (stdout w ++ lines) (files w)).
Proof.
  induction pkts as [|pkt pkts IH]; intros w; cbn [emit_packets].
  - exists []. unfold pret. now rewrite world_eta.
  - destruct (emit_packet_ok pkt w) as [l1 E1]. rewrite (pbind_ok _ _ _ _ _ E1).
    destruct (IH (mk_world (stdout w ++ l1) (files w))) as [l2 ->].
    cbn [stdout files]. rewrite <- app_assoc. eauto.
Qed.

(** The second pass on a capture cut at the marker that opens frame [N]:
    what it prints, and the count it hands to the total line. *)
Lemma second_pass_segment (n N : Z) (pre : list (Z * packet * Z)) (m : Z * packet * Z)
    (seg rest : list (Z * packet * Z)) :
  len (filter is_marker pre) = N ->
  is_marker m = true ->
  Forall (fun x => is_marker x = false) seg ->
  match rest with
  | [] => True
  | m' :: _ => is_marker m' = true
  end ->
  (st <~ over_packets (second_pass_body (Some N) N) (pre ++ m :: seg ++ rest)
           (mk_pass2 (-1) (N =? 0) 0) ;;
   print (total_line n (pkt_count st))) world0
  = ((if ptype_of m =? PT_TraceBegin
      then print (nl ++ "--- Frame " ++ str N ++ " ---")%string else pret tt) ;;;
     emit_packets (map packet_of seg) ;;;
     match rest with
     | m' :: _ => if ptype_of m' =? PT_VSyncEvent then print "  VSync" else pret tt
     | [] => pret tt
     end ;;;
     print (total_line n (len seg))) world0.
Proof.
  intros HN Hm Hseg Hrest.
  pose proof (len_nonneg (filter is_marker pre)) as HN0.
  unfold pbind at 1.
  rewrite second_pass_before by (cbn [current_frame]; lia).
  cbn [current_frame dumping pkt_count]. rewrite HN.
  replace (-1 + N) with (N - 1) by lia.
  destruct m as [[s [pt pl]] e]. unfold ptype_of. cbn [fst snd].
  unfold is_marker in Hm. cbn [fst snd] in Hm.
  cbn [over_packets]. unfold second_pass_body at 1.
  cbn [current_frame dumping pkt_count].
  replace (N - 1 + 1) with N by lia. rewrite Z.eqb_refl.
  assert (Hpast : forall (st : pass2) (w : world),
             current_frame st = N -> dumping st = true -> pkt_count st = len seg ->
             match over_packets (second_pass_body (Some N) N) rest st w with
             | (Ok a, w') => print (total_line n (pkt_count a)) w'
             | (Raise e, w') => (Raise e, w')
             end
             = (match rest with
                | m' :: _ => if ptype_of m' =? PT_VSyncEvent then print "  VSync" else pret tt
                | [] => pret tt
                end ;;; print (total_line n (len seg))) w).
  { intros st w Hcf Hd Hk. destruct rest as [|[[s' [pt' pl']] e'] rest'].
    - cbn [over_packets]. rewrite pbind_pret. unfold pret. rewrite Hk. reflexivity.
    - unfold is_marker in Hrest. cbn [fst snd] in Hrest.
      unfold ptype_of. cbn [fst snd].
      cbn [over_packets]. unfold second_pass_body at 1. rewrite Hcf, Hd.
      destruct (Z.eqb_spec (N + 1) N); [lia|].
      destruct (pt' =? PT_TraceBegin) eqn:E5.
      + assert (Hv : (pt' =? PT_VSyncEvent) = false).
        { apply Z.eqb_eq in E5. subst pt'. reflexivity. }
        rewrite Hv. run_proc.
        destruct (second_pass_past (Some N) N rest'
                    (mk_pass2 (N + 1) true (pkt_count st)) w) as (st' & -> & Hk');
          [cbn [current_frame]; lia|].
        rewrite Hk'. cbn [pkt_count]. rewrite Hk. reflexivity.
      + cbn [orb] in Hrest. rewrite Hrest, Z.eqb_refl. cbn [andb].
        destruct (Z.ltb_spec N (N + 1)); [|lia]. cbn [is_int andb].
        run_proc. unfold pret. cbn [pkt_count]. rewrite Hk. reflexivity. }
  destruct (pt =? PT_TraceBegin) eqn:E5.
  - run_proc. rewrite second_pass_dump by exact Hseg.
    destruct (emit_packets_ok (map packet_of seg)
                (mk_world (stdout world0 ++ [(nl ++ "--- Frame " ++ str N ++ " ---")%string])
                          (files world0))) as [lines El].
    rewrite !(pbind_ok _ _ _ _ _ El). apply Hpast; [reflexivity | reflexivity|].
    cbn [pkt_count]. lia.
  - cbn [orb] in Hm. rewrite Hm.
    destruct (Z.eqb_spec (N - 1) N); [lia|]. rewrite andb_false_r.
    destruct (Z.ltb_spec N N); [lia|]. cbn [andb]. run_proc.
    rewrite second_pass_dump by exact Hseg.
    destruct (emit_packets_ok (map packet_of seg) world0) as [lines El].
    rewrite !(pbind_ok _ _ _ _ _ El). apply Hpast; [reflexivity | reflexivity|].
    cbn [pkt_count]. lia.
Qed.

(** X25. The number of a frame counts the markers of the capture,
    TraceBegin and VSync alike, from 0: with a valid header and a
    non-empty frame index, frame N is what lies behind the marker that
    has N markers before it, up to the next marker.  The frame mode
    prints the frame header if that marker is a TraceBegin, then the
    packets of the frame, then "  VSync" if the frame ends at a VSync,
    then the total, in which it counts the packets of the frame; nothing
    of any other packet is printed. *)
Theorem main_frame_selects :
  forall (data : list byte) (N : Z) (pre : list (Z * packet * Z)) (m : Z * packet * Z)
         (seg rest : list (Z * packet * Z)),
    parse_header data = Ok 14 ->
    frame_starts false (packets data) <> [] ->
    packets data = pre ++ m :: seg ++ rest ->
    len (filter is_marker pre) = N ->
    is_marker m = true ->
    Forall (fun x => is_marker x = false) seg ->
    match rest with
    | [] => True
    | m' :: _ => is_marker m' = true
    end ->
    main_frame data (Some N) world0
    = ((if ptype_of m =? PT_TraceBegin
        then print (nl ++ "--- Frame " ++ str N ++ " ---")%string else pret tt) ;;;
       emit_packets (map packet_of seg) ;;;
       match rest with
       | m' :: _ => if ptype_of m' =? PT_VSyncEvent then print "  VSync" else pret tt
       | [] => pret tt
       end ;;;
       print (total_line (len (frame_starts false (packets data))) (len seg))) world0.
Proof.
  intros data N pre m seg rest Hh Hne EL HN Hm Hseg Hrest.
  rewrite (main_frame_passes data (Some N) Hh).
  destruct (frame_starts false (packets data)) as [|o offs]; [congruence|].
  clear Hne. rewrite EL. clear EL.
  apply second_pass_segment; assumption.
Qed.

Lemma main_frame_selects_witness :
  main_frame early_vsync_capture (Some 1) world0
  = (Ok tt,
     mk_world [(nl ++ "--- Frame 1 ---")%string; "  GP0 CLIP_TL (0,0)"; "  VSync";
               total_line 2 1] []).
Proof.
  rewrite (main_frame_selects early_vsync_capture 1
             [(14, (PT_VSyncEvent, []), 18);
              (18, (PT_GPUPort1Data, pack_words [0x08000001]), 26)]
             (26, (PT_TraceBegin, []), 30)
             [(30, (PT_GPUPort0Data, pack_words [0xE3000000]), 38)]
             [(38, (PT_VSyncEvent, []), 42);
              (42, (PT_GPUPort0Data, pack_words [0xE4000000]), 50)]).
  - reflexivity.
  - reflexivity.
  - vm_compute. discriminate.
  - reflexivity.
  - reflexivity.
  - reflexivity.
  - repeat constructor.
  - reflexivity.
Defined.

(** ** The two passes number the frames differently *)

Lemma frame_starts_before_trace (pre0 post : list (Z * packet * Z)) :
  Forall (fun x => ptype_of x <> PT_TraceBegin) pre0 ->
  frame_starts false (pre0 ++ post) = frame_starts false post.
Proof.
  induction 1 as [|x pre0 Hx _ IH]; cbn [app frame_starts]; [reflexivity|].
  destruct (Z.eqb_spec (ptype_of x) PT_TraceBegin); [contradiction|].
  now rewrite andb_false_r.
Qed.

Lemma frame_starts_in_trace (l : list (Z * packet * Z)) :
  frame_starts true l = map snd (filter is_marker l).
Proof.
  induction l as [|x l IH]; cbn [frame_starts filter]; [reflexivity|].
  unfold is_marker at 1. fold (ptype_of x). rewrite andb_true_r.
  destruct (ptype_of x =? PT_TraceBegin); cbn [orb map]; [now rewrite IH|].
  destruct (ptype_of x =? PT_VSyncEvent); cbn [map]; now rewrite IH.
Qed.

Lemma index_app_mid {A : Type} (l1 l2 : list A) (x : A) :
  index (l1 ++ x :: l2) (len l1) = Ok x.
Proof.
  unfold index, len. destruct (Z.ltb_spec (Z.of_nat (List.length l1)) 0); [lia|].
  rewrite Nat2Z.id, nth_error_app2, Nat.sub_diag by lia. reflexivity.
Qed.

Lemma vsyncs_before_trace_nonneg (pkts : list (Z * packet * Z)) :
  0 <= vsyncs_before_trace pkts.
Proof.
  induction pkts as [|x pkts IH]; cbn [vsyncs_before_trace]; [lia|].
  destruct (ptype_of x =? PT_TraceBegin); [lia|].
  destruct (ptype_of x =? PT_VSyncEvent); lia.
Qed.

(** Before the first TraceBegin every marker is a VSync. *)
Lemma vsyncs_before_trace_app (pre l : list (Z * packet * Z)) :
  Forall (fun x => ptype_of x <> PT_TraceBegin) pre ->
  vsyncs_before_trace (pre ++ l) = len (filter is_marker pre) + vsyncs_before_trace l.
Proof.
  induction 1 as [|x pre Hx _ IH]; cbn [app vsyncs_before_trace filter].
  - change (len (@nil (Z * packet * Z))) with 0. lia.
  - unfold is_marker at 1. fold (ptype_of x).
    destruct (Z.eqb_spec (ptype_of x) PT_TraceBegin); [contradiction|]. cbn [orb].
    destruct (ptype_of x =? PT_VSyncEvent); [rewrite len_cons|]; lia.
Qed.

Lemma split_at_trace (l : list (Z * packet * Z)) :
  Forall (fun x => ptype_of x <> PT_TraceBegin) l \/
  exists p0 tb p1,
    l = p0 ++ tb :: p1 /\
    Forall (fun x => ptype_of x <> PT_TraceBegin) p0 /\
    ptype_of tb = PT_TraceBegin.
Proof.
  induction l as [|x l IH]; [left; constructor|].
  destruct (Z.eq_dec (ptype_of x) PT_TraceBegin) as [E|E].
  - right. exists [], x, l. repeat split; [constructor | exact E].
  - destruct IH as [IH | (p0 & tb & p1 & -> & Hp0 & Htb)].
    + left. constructor; assumption.
    + right. exists (x :: p0), tb, p1. repeat split; [constructor; assumption | exact Htb].
Qed.

Lemma chained_after (pre tail : list (Z * packet * Z)) (m : Z * packet * Z) (a : Z) :
  chained a (pre ++ m :: tail) -> chained (snd m) tail.
Proof.
  intros H. apply chained_app in H. destruct H as (_ & H & _).
  inversion H; subst. assumption.
Qed.

(** Where the marker that has [N] markers before it stands in the frame
    index: at entry [N - k] from the first TraceBegin on, nowhere before
    it. *)
Lemma frame_starts_marker (pre tail : list (Z * packet * Z)) (m : Z * packet * Z) (a : Z) :
  chained a (pre ++ m :: tail) ->
  is_marker m = true ->
  let k := vsyncs_before_trace (pre ++ m :: tail) in
  let N := len (filter is_marker pre) in
  let offs := frame_starts false (pre ++ m :: tail) in
  (k <= N -> index offs (N - k) = Ok (snd m)) /\
  (N < k -> ~ In (snd m) offs).
Proof.
  intros Hch Hm k N offs.
  pose proof (vsyncs_before_trace_nonneg tail) as Hk0.
  destruct (split_at_trace pre) as [Hpre | (p0 & tb & p1 & -> & Hp0 & Htb)].
  - assert (Ek : k = N + vsyncs_before_trace (m :: tail))
      by (apply vsyncs_before_trace_app; exact Hpre).
    assert (Eo : offs = frame_starts false (m :: tail))
      by (apply frame_starts_before_trace; exact Hpre).
    cbn [vsyncs_before_trace] in Ek. cbn [frame_starts] in Eo.
    unfold is_marker in Hm. fold (ptype_of m) in Hm.
    destruct (ptype_of m =? PT_TraceBegin); cbn [orb] in Hm.
    + split; [|lia]. intros _. replace (N - k) with 0 by lia. rewrite Eo. reflexivity.
    + rewrite Hm in Ek, Eo. cbn [andb] in Eo. split; [lia|]. intros _ Hin.
      apply chained_after in Hch.
      destruct (frame_starts_sorted tail (snd m) false Hch) as (_ & Hb & _).
      rewrite Eo, Forall_forall in *. specialize (Hb _ Hin). lia.
  - assert (Ek : k = len (filter is_marker p0)).
    { unfold k. rewrite <- app_assoc. cbn [app].
      rewrite vsyncs_before_trace_app by exact Hp0.
      cbn [vsyncs_before_trace]. apply Z.eqb_eq in Htb. rewrite Htb. lia. }
    assert (Htbm : is_marker tb = true).
    { unfold is_marker. fold (ptype_of tb). rewrite Htb. reflexivity. }
    assert (EN : N = len (filter is_marker p0) + (1 + len (filter is_marker p1))).
    { unfold N. rewrite filter_app, len_app. cbn [filter]. rewrite Htbm, len_cons.
      reflexivity. }
    pose proof (len_nonneg (filter is_marker p1)).
    split; [|lia]. intros _.
    assert (Eo : offs = (snd tb :: map snd (filter is_marker p1))
                        ++ snd m :: map snd (filter is_marker tail)).
    { unfold offs. rewrite <- app_assoc. cbn [app].
      rewrite frame_starts_before_trace by exact Hp0.
      cbn [frame_starts]. apply Z.eqb_eq in Htb. rewrite Htb.
      rewrite frame_starts_in_trace, filter_app, map_app. cbn [filter].
      rewrite Hm. reflexivity. }
    rewrite Eo.
    replace (N - k) with (len (snd tb :: map snd (filter is_marker p1))).
    + apply index_app_mid.
    + rewrite len_cons. unfold len at 1. rewrite length_map. fold (len (filter is_marker p1)).
      lia.
Qed.

(** X26. The two passes number the frames differently: the second pass
    counts every TraceBegin and VSync of the capture, the first pass
    indexes only those from the first TraceBegin on.  Let k be the number
    of VSync packets before the first TraceBegin.  The frame that the
    frame mode prints under number N, the packets behind the marker that
    has N markers before it, begins at the end offset of that marker;
    for N >= k this offset is entry N - k of the frame index (entry N
    when k = 0), and for N < k the frame mode prints the frame all the
    same although its offset is no entry of the index. *)
Theorem frame_number_shift :
  forall (data : list byte) (N : Z) (pre : list (Z * packet * Z)) (m : Z * packet * Z)
         (seg rest : list (Z * packet * Z)),
    parse_header data = Ok 14 ->
    frame_starts false (packets data) <> [] ->
    packets data = pre ++ m :: seg ++ rest ->
    len (filter is_marker pre) = N ->
    is_marker m = true ->
    Forall (fun x => is_marker x = false) seg ->
    match rest with
    | [] => True
    | m' :: _ => is_marker m' = true
    end ->
    let k := vsyncs_before_trace (packets data) in
    exists offs,
      first_pass data 14 world0 = (Ok offs, world0) /\
      main_frame data (Some N) world0
      = ((if ptype_of m =? PT_TraceBegin
          then print (nl ++ "--- Frame " ++ str N ++ " ---")%string else pret tt) ;;;
         emit_packets (map packet_of seg) ;;;
         match rest with
         | m' :: _ => if ptype_of m' =? PT_VSyncEvent then print "  VSync" else pret tt
         | [] => pret tt
         end ;;;
         print (total_line (len offs) (len seg))) world0 /\
      match seg with
      | [] => True
      | x :: _ => fst (fst x) = snd m
      end /\
      (k <= N -> index offs (N - k) = Ok (snd m)) /\
      (N < k -> ~ In (snd m) offs).
Proof.
  intros data N pre m seg rest Hh Hne EL HN Hm Hseg Hrest k.
  pose proof (read_packets_chained data (List.length data) 14) as Hch.
  fold (packets data) in Hch.
  exists (frame_starts false (packets data)).
  split; [|split; [|split]].
  - unfold first_pass, pbind. rewrite packets_loop.
    destruct (first_pass_frame_starts (packets data) false [] world0) as [it ->].
    reflexivity.
  - rewrite (main_frame_passes data (Some N) Hh).
    destruct (frame_starts false (packets data)) as [|o offs]; [congruence|].
    rewrite EL. apply second_pass_segment; assumption.
  - rewrite EL in Hch. apply chained_after in Hch.
    destruct seg as [|x seg]; [exact I|]. cbn [app] in Hch.
    inversion Hch; subst. reflexivity.
  - subst k. rewrite EL in Hch |- *. rewrite <- HN.
    apply (frame_starts_marker pre (seg ++ rest) m 14 Hch Hm).
Qed.

Lemma frame_number_shift_witness :
  let k := vsyncs_before_trace (packets early_vsync_capture) in
  exists offs,
    first_pass early_vsync_capture 14 world0 = (Ok offs, world0) /\
    main_frame early_vsync_capture (Some 0) world0
    = ((if ptype_of (14, (PT_VSyncEvent, @nil byte), 18) =? PT_TraceBegin
        then print (nl ++ "--- Frame " ++ str 0 ++ " ---")%string else pret tt) ;;;
       emit_packets
         (map packet_of [(18, (PT_GPUPort1Data, pack_words [0x08000001]), 26)]) ;;;
       (if ptype_of (26, (PT_TraceBegin, @nil byte), 30) =? PT_VSyncEvent
        then print "  VSync" else pret tt) ;;;
       print (total_line (len offs)
                (len [(18, (PT_GPUPort1Data, pack_words [0x08000001]), 26)]))) world0 /\
    fst (fst (18, (PT_GPUPort1Data, pack_words [0x08000001]), 26))
    = snd (14, (PT_VSyncEvent, @nil byte), 18) /\
    (k <= 0 -> index offs (0 - k) = Ok (snd (14, (PT_VSyncEvent, @nil byte), 18))) /\
    (0 < k -> ~ In (snd (14, (PT_VSyncEvent, @nil byte), 18)) offs).
Proof.
  apply (frame_number_shift early_vsync_capture 0 []
           (14, (PT_VSyncEvent, []), 18)
           [(18, (PT_GPUPort1Data, pack_words [0x08000001]), 26)]
           [(26, (PT_TraceBegin, []), 30);
            (30, (PT_GPUPort0Data, pack_words [0xE3000000]), 38);
            (38, (PT_VSyncEvent, []), 42);
            (42, (PT_GPUPort0Data, pack_words [0xE4000000]), 50)]).
  - reflexivity.
  - vm_compute. discriminate.
  - reflexivity.
  - reflexivity.
  - reflexivity.
  - repeat constructor.
  - reflexivity.
Defined.

(** ** The decoder on a stream put behind another *)

Lemma index_app_l {A : Type} (a b : list A) (i : Z) :
  i < len a -> index (a ++ b) i = index a i.
Proof.
  intros Hi. unfold index. destruct (Z.ltb_spec i 0); [reflexivity|].
  rewrite nth_error_app1; [reflexivity|]. unfold len in Hi. lia.
Qed.

Lemma index_app_r {A : Type} (a b : list A) (i : Z) :
  0 <= i -> index (a ++ b) (len a + i) = index b i.
Proof.
  intros Hi. unfold index, len.
  destruct (Z.ltb_spec (Z.of_nat (List.length a) + i) 0); [lia|].
  destruct (Z.ltb_spec i 0); [lia|].
  rewrite nth_error_app2 by lia.
  replace (Z.to_nat (Z.of_nat (List.length a) + i) - List.length a)%nat
    with (Z.to_nat i) by lia.
  reflexivity.
Qed.

Lemma slice_app_l {A : Type} (a b : list A) (i j : Z) :
  0 <= i -> j <= len a -> slice (a ++ b) i j = slice a i j.
Proof.
  intros Hi Hj. unfold slice, len in *.
  destruct (Z.le_gt_cases j i) as [Hji|Hji].
  - replace (Z.to_nat (j - i)) with 0%nat by lia. reflexivity.
  - rewrite skipn_app, firstn_app.
    replace (Z.to_nat (j - i) - List.length (skipn (Z.to_nat i) a))%nat with 0%nat
      by (rewrite length_skipn; lia).
    cbn [firstn]. apply app_nil_r.
Qed.

Lemma slice_app_r {A : Type} (a b : list A) (i j : Z) :
  0 <= i -> slice (a ++ b) (len a + i) (len a + j) = slice b i j.
Proof.
  intros Hi. unfold slice, len.
  replace (Z.of_nat (List.length a) + j - (Z.of_nat (List.length a) + i)) with (j - i)
    by lia.
  rewrite skipn_app, skipn_all2 by lia. cbn [app].
  replace (Z.to_nat (Z.of_nat (List.length a) + i) - List.length a)%nat
    with (Z.to_nat i) by lia.
  reflexivity.
Qed.

(** A terminator found inside the first stream is found there whatever
    follows. *)
Lemma polyline_scan_app (a b : list Z) (cmd : Z) :
  forall (f1 f2 : nat) (j j' : Z),
    0 <= j -> len (a ++ b) - j <= Z.of_nat f2 ->
    polyline_scan f1 a cmd j = Ok j' -> j' < len a ->
    polyline_scan f2 (a ++ b) cmd j = Ok j'.
Proof.
  induction f1 as [|f1 IH]; intros f2 j j' Hj Hf E Hlt; cbn [polyline_scan] in E.
  - destruct (Z.ltb_spec j (len a)); [discriminate|]. apply Ok_inj in E. lia.
  - destruct (Z.ltb_spec j (len a)) as [Hja|Hja]; [|apply Ok_inj in E; lia].
    rewrite len_app in Hf. pose proof (len_nonneg b).
    destruct f2 as [|f2]; [lia|]. cbn [polyline_scan].
    rewrite len_app. destruct (Z.ltb_spec j (len a + len b)); [|lia].
    rewrite index_app_l by lia.
    destruct (index a j) as [w|e]; cbn [bind] in E |- *; [|discriminate].
    destruct (Z.land w 0xF000F000 =? 0x50005000); [exact E|].
    apply (IH f2 _ j'); try assumption.
    + destruct (bit_set cmd 0x10); lia.
    + rewrite len_app. destruct (bit_set cmd 0x10); lia.
Qed.

Lemma polyline_scan_shift (a b : list Z) (cmd : Z) :
  forall (f2 f1 : nat) (j : Z),
    0 <= j -> len b - j <= Z.of_nat f1 -> len b - j <= Z.of_nat f2 ->
    polyline_scan f1 (a ++ b) cmd (len a + j)
    = match polyline_scan f2 b cmd j with
      | Ok j' => Ok (len a + j')
      | Raise e => Raise e
      end.
Proof.
  induction f2 as [|f2 IH]; intros f1 j Hj H1 H2.
  - destruct f1 as [|f1]; cbn [polyline_scan]; rewrite len_app;
      destruct (Z.ltb_spec (len a + j) (len a + len b)); try lia;
      destruct (Z.ltb_spec j (len b)); try lia; reflexivity.
  - destruct f1 as [|f1]; cbn [polyline_scan]; rewrite len_app;
      destruct (Z.ltb_spec (len a + j) (len a + len b));
      destruct (Z.ltb_spec j (len b)); try lia; try reflexivity.
    rewrite index_app_r by lia.
    destruct (index b j) as [w|e]; cbn [bind]; [|reflexivity].
    destruct (Z.land w 0xF000F000 =? 0x50005000); [reflexivity|].
    rewrite <- Z.add_assoc. apply IH; destruct (bit_set cmd 0x10); lia.
Qed.

Lemma line_nparams_shift (a b : list Z) (i cmd : Z) :
  0 <= i -> line_nparams (a ++ b) (len a + i) cmd = line_nparams b i cmd.
Proof.
  intros Hi. unfold line_nparams.
  destruct (gp0_param_count cmd <? 0); [|reflexivity].
  rewrite <- Z.add_assoc.
  rewrite (polyline_scan_shift a b cmd (List.length b))
    by (unfold len; rewrite ?length_app; lia).
  destruct (polyline_scan (List.length b) b cmd (i + 1)); cbn [bind]; [|reflexivity].
  f_equal. lia.
Qed.

Lemma ok_step (x y : Z) (new : list op) : x = y -> @Ok (Z * list op) (x, new) = Ok (y, new).
Proof. now intros ->. Qed.

(** Behind a first stream the decoder takes the steps it takes on the
    second stream alone. *)
Lemma gp0_iter_shift (a b : list Z) (i : Z) :
  0 <= i ->
  gp0_iter (a ++ b) (len a + i)
  = match gp0_iter b i with
    | Ok (i', new) => Ok (len a + i', new)
    | Raise e => Raise e
    end.
Proof.
  intros Hi. unfold gp0_iter. rewrite index_app_r by exact Hi.
  destruct (index b i) as [val|e] eqn:Hval; cbn [bind]; [|reflexivity].
  apply index_inv in Hval. destruct Hval as [Hib _].
  rewrite line_nparams_shift by exact Hi. rewrite len_app.
  set (cmd := Z.land (Z.shiftr val 24) 0xFF).
  destruct (in_GP0_ENV cmd). { apply ok_step; lia. }
  destruct ((0x20 <=? cmd) && (cmd <=? 0x3F)).
  { destruct (Z.ltb_spec (len a + len b) (len a + i + 1 + gp0_param_count cmd));
      destruct (Z.ltb_spec (len b) (i + 1 + gp0_param_count cmd)); try lia.
    - apply ok_step; lia.
    - replace (len a + i + 1 + gp0_param_count cmd)
        with (len a + (i + 1 + gp0_param_count cmd)) by lia.
      rewrite slice_app_r by exact Hi.
      destruct (decode_polygon cmd (slice b i (i + 1 + gp0_param_count cmd)));
        cbn [bind]; [|reflexivity].
      apply ok_step; lia. }
  destruct ((0x40 <=? cmd) && (cmd <=? 0x5F)).
  { destruct (line_nparams b i cmd) as [nparams|e]; cbn [bind]; [|reflexivity].
    destruct (Z.leb_spec (len a + i + 1 + nparams) (len a + len b));
      destruct (Z.leb_spec (i + 1 + nparams) (len b)); try lia;
      apply ok_step; lia. }
  destruct ((0x60 <=? cmd) && (cmd <=? 0x7F)).
  { destruct (Z.leb_spec (len a + i + 1 + gp0_param_count cmd) (len a + len b));
      destruct (Z.leb_spec (i + 1 + gp0_param_count cmd) (len b)); try lia;
      apply ok_step; lia. }
  destruct (cmd =? 0xA0).
  { destruct (Z.leb_spec (len a + i + 3) (len a + len b));
      destruct (Z.leb_spec (i + 3) (len b)); try lia.
    - rewrite <- !Z.add_assoc. rewrite !index_app_r by lia.
      destruct (index b (i + 1)) as [w1|e1]; cbn [bind]; [|reflexivity].
      destruct (index b (i + 2)) as [w2|e2]; cbn [bind]; [|reflexivity].
      replace (len a + len b - (len a + i)) with (len b - i) by lia.
      apply ok_step; lia.
    - apply ok_step; lia. }
  apply ok_step; lia.
Qed.

Lemma parse_gp0_loop_shift (a b : list Z) :
  forall (f2 f1 : nat) (i : Z) (lines : list op),
    0 <= i -> len b - i <= Z.of_nat f1 -> len b - i <= Z.of_nat f2 ->
    parse_gp0_loop f1 (a ++ b) (len a + i) lines = parse_gp0_loop f2 b i lines.
Proof.
  induction f2 as [|f2 IH]; intros f1 i lines Hi H1 H2.
  - destruct f1 as [|f1]; cbn [parse_gp0_loop]; rewrite len_app;
      destruct (Z.ltb_spec (len a + i) (len a + len b)); try lia;
      destruct (Z.ltb_spec i (len b)); try lia; reflexivity.
  - destruct f1 as [|f1]; cbn [parse_gp0_loop]; rewrite len_app;
      destruct (Z.ltb_spec (len a + i) (len a + len b));
      destruct (Z.ltb_spec i (len b)); try lia; try reflexivity.
    rewrite gp0_iter_shift by exact Hi.
    destruct (gp0_iter b i) as [[i' new]|e] eqn:E; cbn [bind]; [|reflexivity].
    apply gp0_iter_progress in E; [|lia].
    apply IH; lia.
Qed.

Lemma line_count_neg (cmd : Z) :
  0x40 <= cmd <= 0x5F -> (gp0_param_count cmd <? 0) = bit_set cmd 0x08.
Proof.
  intros Hc. unfold gp0_param_count. cmd_tests cmd.
  destruct (bit_set cmd 0x08), (bit_set cmd 0x10); reflexivity.
Qed.

(** An operation that is complete in the first stream, with its
    terminator if it is a polyline, is decoded the same whatever
    follows. *)
Lemma gp0_iter_app (a b : list Z) (i val i' : Z) (new : list op) :
  index a i = Ok val ->
  truncated_at a i = Ok false ->
  gp0_iter a i = Ok (i', new) ->
  (polyline_cmd (opcode val) = true -> i' < len a) ->
  gp0_iter (a ++ b) i = Ok (i', new).
Proof.
  intros Hval Ht E Hp. pose proof (index_inv _ _ _ Hval) as [Hi _].
  pose proof (len_nonneg b) as Hb.
  revert Ht E Hp.
  unfold gp0_iter, truncated_at, operand_words, polyline_cmd, opcode.
  rewrite index_app_l, Hval by lia. cbn [bind]. rewrite len_app.
  set (cmd := Z.land (Z.shiftr val 24) 0xFF).
  destruct (in_GP0_ENV cmd) eqn:Eenv; [intros _ E _; exact E|].
  destruct (Z_le_dec 0x20 cmd) as [H20|H20].
  2: { cmd_tests cmd. destruct (Z.eqb_spec cmd 0xA0); [lia|]. intros _ E _; exact E. }
  destruct (Z_le_dec cmd 0x3F) as [H3F|H3F].
  { cmd_tests cmd. cbn [bind].
    destruct (Z.ltb_spec (len a) (i + 1 + gp0_param_count cmd)); [discriminate|].
    destruct (Z.ltb_spec (len a + len b) (i + 1 + gp0_param_count cmd)); [lia|].
    rewrite slice_app_l by lia. intros _ E _; exact E. }
  destruct (Z_le_dec cmd 0x5F) as [H5F|H5F].
  { cmd_tests cmd.
    destruct (line_nparams a i cmd) as [n|e] eqn:El; cbn [bind]; [|discriminate].
    destruct (Z.ltb_spec (len a) (i + 1 + n)); [discriminate|].
    destruct (Z.leb_spec (i + 1 + n) (len a)); [|lia].
    intros _ E Hp. ok_pair E E1 E2.
    assert (El' : line_nparams (a ++ b) i cmd = Ok n).
    { revert El. unfold line_nparams. rewrite line_count_neg by lia.
      destruct (bit_set cmd 0x08); [|trivial].
      destruct (polyline_scan (List.length a) a cmd (i + 1)) as [j|e] eqn:Es;
        cbn [bind]; [|discriminate].
      intros En. apply Ok_inj in En.
      rewrite (polyline_scan_app a b cmd (List.length a) _ (i + 1) j);
        [cbn [bind]; now rewrite En | lia | unfold len; lia | exact Es |].
      specialize (Hp eq_refl). lia. }
    rewrite El'. cbn [bind].
    destruct (Z.leb_spec (i + 1 + n) (len a + len b)); [|lia].
    now rewrite E1, E2. }
  destruct (Z_le_dec cmd 0x7F) as [H7F|H7F].
  { cmd_tests cmd. cbn [bind].
    destruct (Z.ltb_spec (len a) (i + 1 + gp0_param_count cmd)); [discriminate|].
    destruct (Z.leb_spec (i + 1 + gp0_param_count cmd) (len a)); [|lia].
    destruct (Z.leb_spec (i + 1 + gp0_param_count cmd) (len a + len b)); [|lia].
    intros _ E _; exact E. }
  cmd_tests cmd.
  destruct (Z.eqb_spec cmd 0xA0); [|intros _ E _; exact E].
  destruct (Z.leb_spec (i + 3) (len a)); [|discriminate].
  destruct (Z.leb_spec (i + 3) (len a + len b)); [|lia].
  rewrite !index_app_l by lia.
  destruct (index a (i + 1)) as [w1|e1]; cbn [bind]; [|discriminate].
  destruct (index a (i + 2)) as [w2|e2]; cbn [bind]; [|discriminate].
  destruct (Z.ltb_spec (len a - i) (3 + (Z.land w1 0xFFFF * Z.land w2 0xFFFF + 1) / 2));
    [discriminate|].
  rewrite !Z.min_l by lia. intros _ E _; exact E.
Qed.

(** Over a closed stream the decoder reaches the end of the stream, and
    does so too when more words follow. *)
Lemma parse_gp0_from_closed (a b : list Z) :
  forall (fuel : nat) (i : Z) (lines : list op),
    0 <= i <= len a ->
    closed_from fuel a i = true ->
    exists ops,
      parse_gp0_from a i [] = Ok ops /\
      parse_gp0_from (a ++ b) i lines = parse_gp0_from (a ++ b) (len a) (lines ++ ops).
Proof.
  induction fuel as [|fuel IH]; intros i lines Hi Hc; cbn [closed_from] in Hc.
  - destruct (Z.ltb_spec i (len a)); [discriminate|].
    exists []. rewrite parse_gp0_from_end by lia. rewrite app_nil_r.
    split; [reflexivity|]. replace i with (len a) by lia. reflexivity.
  - destruct (Z.ltb_spec i (len a)) as [Hlt|Hge].
    2: { exists []. rewrite parse_gp0_from_end by lia. rewrite app_nil_r.
         split; [reflexivity|]. replace i with (len a) by lia. reflexivity. }
    destruct (index a i) as [val|] eqn:Hval; [|discriminate].
    destruct (truncated_at a i) as [[|]|] eqn:Ht; try discriminate.
    destruct (gp0_iter a i) as [[i' new]|] eqn:E; [|discriminate].
    apply andb_true_iff in Hc. destruct Hc as [Hp Hc].
    pose proof (gp0_iter_progress a i i' new ltac:(lia) E) as Hprog.
    assert (E' : gp0_iter (a ++ b) i = Ok (i', new)).
    { apply (gp0_iter_app a b i val); try assumption.
      intros Hpoly. rewrite Hpoly in Hp. cbn [negb orb] in Hp.
      apply Z.ltb_lt in Hp. exact Hp. }
    destruct (IH i' (lines ++ new) ltac:(lia) Hc) as (ops & Eops & Eapp).
    exists (new ++ ops). split.
    + rewrite (parse_gp0_from_step a i i' new []) by (assumption || lia).
      destruct (parse_gp0_from_total a (List.length a) i' ([] ++ new))
        as (rest & E1 & E2 & _); [lia | unfold len; lia |].
      rewrite E1. rewrite Eops in E2. apply Ok_inj in E2. now subst rest.
    + rewrite (parse_gp0_from_step (a ++ b) i i' new lines);
        [|rewrite len_app; pose proof (len_nonneg b); lia | exact E'].
      rewrite Eapp, app_assoc. reflexivity.
Qed.

(** X27. Decoding is local.  When a word stream holds no truncated
    operation and no polyline without its terminator, the operations
    decoded from it followed by any other stream are its own operations
    followed by those of the other stream. *)
Theorem parse_gp0_stream_app :
  forall a b : list Z,
    closed a = true ->
    exists la lb,
      parse_gp0_stream a = Ok la /\
      parse_gp0_stream b = Ok lb /\
      parse_gp0_stream (a ++ b) = Ok (la ++ lb).
Proof.
  intros a b Hc. unfold closed in Hc.
  destruct (parse_gp0_from_closed a b (List.length a) 0 [] ltac:(pose proof (len_nonneg a); lia) Hc)
    as (la & Ea & Eab).
  destruct (parse_gp0_from_total b (List.length b) 0 la ltac:(lia) ltac:(unfold len; lia))
    as (lb & E1 & E2 & _).
  exists la, lb. unfold parse_gp0_stream. split; [exact Ea|]. split; [exact E2|].
  rewrite Eab. cbn [app]. unfold parse_gp0_from.
  replace (len a) with (len a + 0) by lia.
  rewrite (parse_gp0_loop_shift a b (List.length b)).
  - exact E1.
  - lia.
  - unfold len. rewrite length_app. lia.
  - unfold len. lia.
Qed.

Lemma parse_gp0_stream_app_witness :
  exists la lb,
    parse_gp0_stream sample_stream = Ok la /\
    parse_gp0_stream [0x48000000; 1; 2] = Ok lb /\
    parse_gp0_stream (sample_stream ++ [0x48000000; 1; 2]) = Ok (la ++ lb).
Proof. apply parse_gp0_stream_app. reflexivity. Defined.

(** ** VRAM mode: what it can end in *)



